(** * Harmony Assistant: the Gemini adapter and its environment

    A shallow embedding of the conversation adapter that lets a chat handler
    written against the Claude message format drive the Gemini API
    (app/services/gemini.server.js):

    - [formatHistoryForGemini]: canonical history to Gemini [contents];
    - [transformToolsForGemini] / [cleanParameters]: tool declarations;
    - [createGeminiService], [getSystemPrompt] and [streamConversation]:
      the service, the streaming call, its three callbacks and the final
      canonical assistant message;
    - [mapFinishReason]: the stop-reason table;

    and of what the server reads its settings with:

    - [validateEnvironment], [setDefaults], [getEnvVar]
      (app/services/environment.server.js);
    - [shouldLog], [createLogEntry] and the logging and tracking methods
      of the logger (app/services/logger.server.js);
    - the health check [loader] (app/routes/health.jsx).

    Plain data (tool arguments, schemas, parsed payloads) is a [JSON] value.
    Thrown JavaScript exceptions are the [Throw] outcome of [result].
    Callbacks and the provider call are recorded as a trace of [Event]s,
    console output and database queries as a trace of [ServerEvent]s. *)

From Stdlib Require Import ZArith Ascii String List Bool Lia.
From stdpp Require Import base tactics option list strings.
Import ListNotations.
Open Scope string_scope.
Open Scope list_scope.

(* ===================================================================== *)
(** ** Plain JavaScript data *)
(* ===================================================================== *)

(** A JSON-shaped JavaScript value.  An object is the list of its own
    enumerable properties in enumeration order (the order [for..in] and the
    spread operator visit them); a number [JNumber m e] stands for the
    decimal [m * 10^e], of which the adapter only ever asks whether it is
    zero. *)
#[warnings="-register-all"]
Inductive JSON : Type :=
| JNull
| JBool (b : bool)
| JNumber (mantissa exponent : Z)
| JString (s : string)
| JArray (items : list JSON)
| JObject (props : list (string * JSON)).

(** The generated induction principle gives nothing for the values nested
    under [JArray] and [JObject]; this one does. *)
Section JSON_induction.
Variable P : JSON -> Prop.
Hypothesis Hnull : P JNull.
Hypothesis Hbool : forall b, P (JBool b).
Hypothesis Hnumber : forall m e, P (JNumber m e).
Hypothesis Hstring : forall s, P (JString s).
Hypothesis Harray : forall items, Forall P items -> P (JArray items).
Hypothesis Hobject :
  forall props, Forall (fun kv => P (snd kv)) props -> P (JObject props).

Fixpoint JSON_deep_ind (v : JSON) : P v :=
  match v with
  | JNull => Hnull
  | JBool b => Hbool b
  | JNumber m e => Hnumber m e
  | JString s => Hstring s
  | JArray items =>
      Harray items
        ((fix all (l : list JSON) : Forall P l :=
            match l with
            | [] => List.Forall_nil P
            | x :: r => @List.Forall_cons _ P x r (JSON_deep_ind x) (all r)
            end) items)
  | JObject props =>
      Hobject props
        ((fix all (l : list (string * JSON)) : Forall (fun kv => P (snd kv)) l :=
            match l with
            | [] => List.Forall_nil _
            | kv :: r => @List.Forall_cons _ _ kv r (JSON_deep_ind (snd kv)) (all r)
            end) props)
  end.
End JSON_induction.

(** [obj.key] on an own-property list; [None] is JavaScript's [undefined]. *)
Fixpoint getProp {V : Type} (props : list (string * V)) (key : string) : option V :=
  match props with
  | [] => None
  | (k, v) :: rest => if k =? key then Some v else getProp rest key
  end.

(** [delete obj.key]. *)
Definition deleteProp {V : Type} (props : list (string * V)) (key : string)
  : list (string * V) :=
  List.filter (fun kv => negb (fst kv =? key)) props.

(** [obj.key = v]: an existing property keeps its place, a new one goes
    last. *)
Fixpoint setProp {V : Type} (props : list (string * V)) (key : string) (v : V)
  : list (string * V) :=
  match props with
  | [] => [(key, v)]
  | (k, w) :: rest =>
      if k =? key then (k, v) :: rest else (k, w) :: setProp rest key v
  end.

(** JavaScript truthiness ([if (x)], [!!x], [x && ...]); [undefined] is
    falsy. *)
Definition truthy (v : JSON) : bool :=
  match v with
  | JNull => false
  | JBool b => b
  | JNumber m _ => negb (m =? 0)%Z
  | JString s => negb (s =? "")
  | JArray _ | JObject _ => true
  end.

(** [x === 'literal'] for a property read [x]. *)
Definition strictEqString (v : option JSON) (lit : string) : bool :=
  match v with
  | Some (JString s) => s =? lit
  | _ => false
  end.

(** [[lit1, lit2, ...].includes(v)] for an array of string literals. *)
Definition includes (lits : list string) (v : JSON) : bool :=
  match v with
  | JString s => existsb (String.eqb s) lits
  | _ => false
  end.

(* ===================================================================== *)
(** ** Tool Schema Normalizer *)
(* ===================================================================== *)

(** [cleanParameters(params)], lines 220-232.

    The [for (const key in params)] loop is the inner [loop]; [continue]
    and a skipped assignment both go on with the rest.  An array has only
    its indices as keys, none of which is ['format'] or
    ['additional_properties'], so every element is cleaned in place.

    One branch is JavaScript's rather than the source text's: the
    assignment [cleanedParams['__proto__'] = x] on a fresh [{}] runs the
    inherited [__proto__] setter and creates no own property, so such a key
    does not appear among the own properties of the result. *)
Fixpoint cleanParameters (params : JSON) : JSON :=
  match params with
  | JArray items => JArray (List.map cleanParameters items)
  | JObject props =>
      JObject
        ((fix loop (keys : list (string * JSON)) : list (string * JSON) :=
            match keys with
            | [] => []
            | (key, v) :: rest =>
                if (key =? "format")
                   && strictEqString (getProp props "type") "string"
                   && negb (includes ["enum"; "date-time"] v)
                then loop rest
                else if negb (key =? "additional_properties")
                then if key =? "__proto__" then loop rest
                     else (key, cleanParameters v) :: loop rest
                else loop rest
            end) props)
  | _ => params
  end.

(** A tool declaration is a JavaScript object. *)
Definition Tool : Type := list (string * JSON).

(** The arrow function mapped over [tools], lines 210-217.  The spread
    [{ ...tool }] copies the own properties; [input_schema] is renamed only
    when its value is truthy. *)
Definition transformTool (tool : Tool) : Tool :=
  let newTool := tool in
  match getProp newTool "input_schema" with
  | Some schema =>
      if truthy schema then
        let newTool := setProp newTool "parameters" (cleanParameters schema) in
        deleteProp newTool "input_schema"
      else newTool
  | None => newTool
  end.

(** [transformToolsForGemini(tools)], lines 209-218. *)
Definition transformToolsForGemini (tools : list Tool) : list Tool :=
  List.map transformTool tools.

(* ===================================================================== *)
(** ** Exceptions *)
(* ===================================================================== *)

(** A thrown value: the constructor that made it and its [message]. *)
Inductive Exception : Type :=
| Error (message : string)
| TypeError (message : string)
| SyntaxError (message : string).

Definition message (e : Exception) : string :=
  match e with Error m | TypeError m | SyntaxError m => m end.

(** The outcome of code that may throw. *)
Inductive result (A : Type) : Type :=
| Ok (a : A)
| Throw (e : Exception).
Arguments Ok {A} a.
Arguments Throw {A} e.

Definition bind {A B : Type} (r : result A) (k : A -> result B) : result B :=
  match r with
  | Ok a => k a
  | Throw e => Throw e
  end.

Declare Scope result_scope.
Delimit Scope result_scope with result.
Notation "x <- r ;; k" := (bind r (fun x => k))
  (at level 100, r at next level, right associativity) : result_scope.

(** [array.map(f)] for an [f] that may throw: elements are visited in
    order and the first exception ends the call. *)
Fixpoint mapR {A B : Type} (f : A -> result B) (l : list A) : result (list B) :=
  match l with
  | [] => Ok []
  | x :: rest =>
      (y <- f x ;; ys <- mapR f rest ;; Ok (y :: ys))%result
  end.

(* ===================================================================== *)
(** ** A reference [JSON.parse] *)
(* ===================================================================== *)

Module JSONText.

Definition isWhitespace (c : ascii) : bool :=
  let n := nat_of_ascii c in
  (n =? 32)%nat || (n =? 9)%nat || (n =? 10)%nat || (n =? 13)%nat.

Fixpoint skipWhitespace (s : string) : string :=
  match s with
  | String c rest => if isWhitespace c then skipWhitespace rest else s
  | EmptyString => s
  end.

Definition digit (c : ascii) : option Z :=
  let n := nat_of_ascii c in
  if (48 <=? n)%nat && (n <=? 57)%nat then Some (Z.of_nat (n - 48)) else None.

Definition hexDigit (c : ascii) : option nat :=
  let n := nat_of_ascii c in
  if (48 <=? n)%nat && (n <=? 57)%nat then Some (n - 48)%nat
  else if (65 <=? n)%nat && (n <=? 70)%nat then Some (n - 55)%nat
  else if (97 <=? n)%nat && (n <=? 102)%nat then Some (n - 87)%nat
  else None.

(** The text after [lit], when [s] starts with it. *)
Fixpoint stripPrefix (lit s : string) : option string :=
  match lit, s with
  | EmptyString, _ => Some s
  | String a lit', String b s' =>
      if Ascii.eqb a b then stripPrefix lit' s' else None
  | String _ _, EmptyString => None
  end.

(** A run of digits: its value after [acc], how many there were, and
    the rest. *)
Fixpoint digits (s : string) (acc : Z) (count : nat) : Z * nat * string :=
  match s with
  | String c rest =>
      match digit c with
      | Some d => digits rest (10 * acc + d)%Z (S count)
      | None => (acc, count, s)
      end
  | EmptyString => (acc, count, s)
  end.

(** number = [-] int [frac] [exp] *)
Definition parseNumber (s : string) : option (JSON * string) :=
  let (negative, s) :=
    match s with
    | String "-" rest => (true, rest)
    | _ => (false, s)
    end in
  let '(int, n, afterInt) := digits s 0%Z 0 in
  let leadingZero :=
    match s with String "0" _ => (1 <? n)%nat | _ => false end in
  if (n =? 0)%nat || leadingZero then None
  else
    let fraction :=
      match afterInt with
      | String "." rest =>
          let '(m, k, r) := digits rest int 0 in
          if (k =? 0)%nat then None else Some (m, k, r)
      | _ => Some (int, 0%nat, afterInt)
      end in
    match fraction with
    | None => None
    | Some (m, k, afterFrac) =>
        let exponent :=
          match afterFrac with
          | String c rest =>
              if Ascii.eqb c "e" || Ascii.eqb c "E" then
                let (minus, rest) :=
                  match rest with
                  | String "-" r => (true, r)
                  | String "+" r => (false, r)
                  | _ => (false, rest)
                  end in
                let '(e, j, r) := digits rest 0%Z 0 in
                if (j =? 0)%nat then None
                else Some (if minus then (- e)%Z else e, r)
              else Some (0%Z, afterFrac)
          | EmptyString => Some (0%Z, afterFrac)
          end in
        match exponent with
        | None => None
        | Some (e, r) =>
            Some (JNumber (if negative then (- m)%Z else m)
                          (e - Z.of_nat k)%Z, r)
        end
    end.

(** The UTF-8 bytes of a [\u] escape's code unit; the two escapes of a
    surrogate pair are kept as two units. *)
Definition utf8 (u : nat) : list ascii :=
  if (u <? 128)%nat then [ascii_of_nat u]
  else if (u <? 2048)%nat then
    [ascii_of_nat (192 + u / 64); ascii_of_nat (128 + u mod 64)]
  else
    [ascii_of_nat (224 + u / 4096);
     ascii_of_nat (128 + (u / 64) mod 64);
     ascii_of_nat (128 + u mod 64)].

Fixpoint stringOfRev (acc : list ascii) (tail : string) : string :=
  match acc with
  | [] => tail
  | c :: rest => stringOfRev rest (String c tail)
  end.

(** The double quote and the backslash. *)
Definition quoteChar : ascii := ascii_of_nat 34.
Definition backslashChar : ascii := ascii_of_nat 92.

(** The characters after an opening quote, up to the closing one. *)
Fixpoint parseChars (s : string) (acc : list ascii) : option (string * string) :=
  match s with
  | EmptyString => None
  | String c rest =>
      if Ascii.eqb c quoteChar then Some (stringOfRev acc "", rest)
      else if Ascii.eqb c backslashChar then
        match rest with
        | String e rest' =>
            let simple (x : nat) := parseChars rest' (ascii_of_nat x :: acc) in
            if Ascii.eqb e quoteChar then simple 34
            else if Ascii.eqb e backslashChar then simple 92
            else
              match e with
              | "/"%char => simple 47
              | "b"%char => simple 8
              | "f"%char => simple 12
              | "n"%char => simple 10
              | "r"%char => simple 13
              | "t"%char => simple 9
              | "u"%char =>
                  match rest' with
                  | String h1 (String h2 (String h3 (String h4 rest''))) =>
                      match hexDigit h1, hexDigit h2, hexDigit h3, hexDigit h4 with
                      | Some a, Some b, Some c, Some d =>
                          parseChars rest''
                            (rev (utf8 (((a * 16 + b) * 16 + c) * 16 + d)) ++ acc)
                      | _, _, _, _ => None
                      end
                  | _ => None
                  end
              | _ => None
              end
        | EmptyString => None
        end
      else if (nat_of_ascii c <? 32)%nat then None
      else parseChars rest (c :: acc)
  end.

(** value, then the elements after [[] and the members after [{]; the
    fuel bounds the number of values still to be read. *)
Fixpoint parseValue (fuel : nat) (s : string) : option (JSON * string) :=
  match fuel with
  | O => None
  | S fuel =>
      match skipWhitespace s with
      | String "n" _ =>
          rest ← stripPrefix "null" (skipWhitespace s); Some (JNull, rest)
      | String "t" _ =>
          rest ← stripPrefix "true" (skipWhitespace s); Some (JBool true, rest)
      | String "f" _ =>
          rest ← stripPrefix "false" (skipWhitespace s); Some (JBool false, rest)
      | String "[" rest =>
          match skipWhitespace rest with
          | String "]" rest => Some (JArray [], rest)
          | _ => '(items, rest) ← parseElements fuel rest []; Some (JArray items, rest)
          end
      | String "{" rest =>
          match skipWhitespace rest with
          | String "}" rest => Some (JObject [], rest)
          | _ => '(props, rest) ← parseMembers fuel rest []; Some (JObject props, rest)
          end
      | String c rest =>
          if Ascii.eqb c quoteChar
          then '(str, rest) ← parseChars rest []; Some (JString str, rest)
          else parseNumber (skipWhitespace s)
      | EmptyString => None
      end
  end
with parseElements (fuel : nat) (s : string) (acc : list JSON)
  : option (list JSON * string) :=
  match fuel with
  | O => None
  | S fuel =>
      '(v, rest) ← parseValue fuel s;
      match skipWhitespace rest with
      | String "," rest => parseElements fuel rest (acc ++ [v])
      | String "]" rest => Some (acc ++ [v], rest)
      | _ => None
      end
  end
with parseMembers (fuel : nat) (s : string) (acc : list (string * JSON))
  : option (list (string * JSON) * string) :=
  match fuel with
  | O => None
  | S fuel =>
      match skipWhitespace s with
      | String c rest =>
          if Ascii.eqb c quoteChar then
            '(key, rest) ← parseChars rest [];
            match skipWhitespace rest with
            | String ":" rest =>
                '(v, rest) ← parseValue fuel rest;
                match skipWhitespace rest with
                | String "," rest => parseMembers fuel rest (setProp acc key v)
                | String "}" rest => Some (setProp acc key v, rest)
                | _ => None
                end
            | _ => None
            end
          else None
      | EmptyString => None
      end
  end.

(** [s] between double quotes, for writing JSON texts. *)
Definition quoted (s : string) : string :=
  String quoteChar (s ++ String quoteChar "").

End JSONText.

(** [JSON.parse(text)] after ECMA-404: the value when the whole text is one
    JSON value, a SyntaxError otherwise.  Texts and strings are taken as
    UTF-8; a repeated key keeps its first place and its last value.  The
    wording of the engine's error message and the place index-like keys
    take in an object's enumeration are not modelled. *)
Definition json_parse (text : string) : result JSON :=
  match JSONText.parseValue (S (String.length text)) text with
  | Some (v, rest) =>
      match JSONText.skipWhitespace rest with
      | EmptyString => Ok v
      | _ => Throw (SyntaxError "Unexpected non-whitespace character after JSON")
      end
  | None => Throw (SyntaxError "Unexpected token in JSON")
  end.

(* ===================================================================== *)
(** ** The two message formats *)
(* ===================================================================== *)

(** Canonical (Claude-format) content blocks.  The translator reads
    [type], [text], [tool_use_id] and [content] of a block; a [text] block
    carries a string, so for it [typeof c.text === 'string'] holds. *)
#[warnings="-register-all"]
Inductive ContentBlock : Type :=
| TextBlock (text : string)
| ToolUseBlock (id name : string) (input : JSON)
| ToolResultBlock (tool_use_id : string) (content : list ContentBlock).

(** [c.type]. *)
Definition block_type (c : ContentBlock) : string :=
  match c with
  | TextBlock _ => "text"
  | ToolUseBlock _ _ _ => "tool_use"
  | ToolResultBlock _ _ => "tool_result"
  end.

(** [c.text]; [None] is [undefined]. *)
Definition block_text (c : ContentBlock) : option string :=
  match c with
  | TextBlock t => Some t
  | _ => None
  end.

(** [msg.content]: a string, an array of blocks, or any other value (an
    object payload of a [tool] turn, [null]). *)
Inductive MessageContent : Type :=
| ContentString (s : string)
| ContentBlocks (blocks : list ContentBlock)
| ContentData (v : JSON).

(** [tool_call.function] and [tool_call]. *)
Record FunctionRef : Type := { fn_name : string; fn_arguments : JSON }.
Record ToolCall : Type := { tc_id : string; tc_function : FunctionRef }.

(** A canonical turn.  [msg_tool_calls = []] also stands for an absent
    [tool_calls]: the guard [msg.tool_calls && msg.tool_calls.length > 0]
    treats both alike. *)
Record Message : Type := {
  msg_role : string;
  msg_content : MessageContent;
  msg_tool_calls : list ToolCall;
  msg_name : option string
}.

(** What a [functionResponse] carries: a parsed payload, or the blocks of a
    [tool] turn that were passed through as they were. *)
Inductive Payload : Type :=
| PayloadJSON (v : JSON)
| PayloadBlocks (blocks : list ContentBlock).

(** Gemini parts and turns: [{ text }], [{ functionCall: { name, args } }]
    and [{ functionResponse: { name, response } }]. *)
Record FunctionCall : Type := { fc_name : string; fc_args : JSON }.
Record FunctionResponse : Type :=
  { fr_name : option string; fr_response : Payload }.

Inductive Part : Type :=
| TextPart (text : string)
| FunctionCallPart (functionCall : FunctionCall)
| FunctionResponsePart (functionResponse : FunctionResponse).

Record Content : Type := { role : string; parts : list Part }.

(** [array.filter(Boolean)] on an array of objects and [null]s. *)
Definition filterBoolean {A : Type} (l : list (option A)) : list A :=
  flat_map (fun o => match o with Some x => [x] | None => [] end) l.

(** [array.join(sep)] on an array of strings and [undefined]s; an
    [undefined] element contributes the empty string. *)
Definition join (sep : string) (l : list (option string)) : string :=
  String.concat sep
    (List.map (fun x => match x with Some s => s | None => "" end) l).

(** The string ['\n']. *)
Definition newline : string := String (ascii_of_nat 10) EmptyString.

(** [typeof x === 'string'] for an [x] that is a string or [undefined]. *)
Definition typeofString (x : option string) : bool :=
  match x with Some _ => true | None => false end.

(** [String(x)] for an [x] that is a string or [undefined], as [JSON.parse]
    applies it to its argument. *)
Definition toStringOpt (x : option string) : string :=
  match x with Some s => s | None => "undefined" end.

(* ===================================================================== *)
(** ** History Translator *)
(* ===================================================================== *)

Section HistoryTranslator.

(** [JSON.parse] is the platform's; the translator is defined, and its
    properties are proved, for whatever it returns. *)
Variable JSON_parse : string -> result JSON.

(** Lines 55-63 and, word for word, 82-90: the text of a turn. *)
Definition textContent (content : MessageContent) : string :=
  match content with
  | ContentBlocks blocks =>
      join newline
        (List.map (fun c => block_text c)
           (List.filter
              (fun c => (block_type c =? "text") && typeofString (block_text c))
              blocks))
  | ContentString s => s
  | ContentData _ => ""
  end.

(** [JSON.parse(toolResult.content[0].text)], line 76: reading [.text]
    of a missing first element is a TypeError. *)
Definition parseToolResult (content : list ContentBlock) : result JSON :=
  match content with
  | [] => Throw (TypeError "Cannot read properties of undefined (reading 'text')")
  | first :: _ => JSON_parse (toStringOpt (block_text first))
  end.

(** The arrow function mapped over [messages], lines 41-107; [None] is
    its [null]. *)
Definition formatMessage (msg : Message) : result (option Content) :=
  if msg_role msg =? "assistant" then
    match msg_tool_calls msg with
    | _ :: _ =>
        Ok (Some {| role := "model";
                    parts := List.map
                      (fun tool_call =>
                         FunctionCallPart
                           {| fc_name := fn_name (tc_function tool_call);
                              fc_args := fn_arguments (tc_function tool_call) |})
                      (msg_tool_calls msg) |})
    | [] =>
        Ok (Some {| role := "model";
                    parts := [TextPart (textContent (msg_content msg))] |})
    end
  else if msg_role msg =? "user" then
    match msg_content msg with
    | ContentBlocks (ToolResultBlock tool_use_id content :: _) =>
        (response <- parseToolResult content ;;
         Ok (Some {| role := "function";
                     parts := [FunctionResponsePart
                                 {| fr_name := Some tool_use_id;
                                    fr_response := PayloadJSON response |}] |}))%result
    | _ =>
        Ok (Some {| role := "user";
                    parts := [TextPart (textContent (msg_content msg))] |})
    end
  else if msg_role msg =? "tool" then
    (response <-
       match msg_content msg with
       | ContentString s => (v <- JSON_parse s ;; Ok (PayloadJSON v))
       | ContentBlocks blocks => Ok (PayloadBlocks blocks)
       | ContentData v => Ok (PayloadJSON v)
       end ;;
     Ok (Some {| role := "function";
                 parts := [FunctionResponsePart
                             {| fr_name := msg_name msg;
                                fr_response := response |}] |}))%result
  else Ok None.

(** [formatHistoryForGemini(messages)], lines 40-108. *)
Definition formatHistoryForGemini (messages : list Message)
  : result (list Content) :=
  (mapped <- mapR formatMessage messages ;; Ok (filterBoolean mapped))%result.

End HistoryTranslator.

(* ===================================================================== *)
(** ** Response Re-encoder *)
(* ===================================================================== *)

(** [mapFinishReason(reason)], lines 200-207; [None] is an absent
    [finishReason]. *)
Definition mapFinishReason (reason : option string) : string :=
  match reason with
  | Some r =>
      if r =? "STOP" then "end_turn"
      else if r =? "TOOL_USE" then "tool_use"
      else if r =? "MAX_TOKENS" then "max_tokens"
      else "end_turn"
  | None => "end_turn"
  end.

(** The canonical assistant message, lines 175-182. *)
Record FinalMessage : Type := {
  fm_role : string;
  fm_content : list ContentBlock;
  fm_model : string;
  fm_stop_reason : string
}.

(** The object literal of lines 167-169 and 178. *)
Definition toolUseOf (geminiCall : FunctionCall) : ContentBlock :=
  ToolUseBlock (fc_name geminiCall) (fc_name geminiCall) (fc_args geminiCall).

(** [parts.filter(part => !!part.functionCall).map(part => part.functionCall)],
    lines 161-163, in one pass. *)
Fixpoint functionCalls (l : list Part) : list FunctionCall :=
  match l with
  | [] => []
  | FunctionCallPart functionCall :: rest => functionCall :: functionCalls rest
  | _ :: rest => functionCalls rest
  end.

(* ===================================================================== *)
(** ** Streaming Response Emulator *)
(* ===================================================================== *)

(** The provider side: what [getGenerativeModel] is given, and what the
    streaming call resolves to.  [stream] lists [chunk.text()] of every
    chunk; [candidates = []] also stands for an absent [candidates]. *)
Record ModelParams : Type := {
  model : string;
  systemInstruction : string;
  tools : option (list Tool)
}.

Record Candidate : Type := {
  content : option Content;
  finishReason : option string
}.

Record StreamResult : Type := {
  stream : list string;
  candidates : list Candidate
}.

(** Which of the three callbacks the caller supplied. *)
Record StreamHandlers : Type := {
  onText : bool;
  onToolUse : bool;
  onMessage : bool
}.

(** The arguments of [streamConversation]; [promptType = None] and
    [req_tools = []] stand for absent ones. *)
Record Request : Type := {
  messages : list Message;
  promptType : option string;
  req_tools : list Tool
}.

(** What the adapter does to the outside world, in order. *)
Inductive Event : Type :=
| GenerateContentStream (params : ModelParams) (contents : list Content)
| ConsoleError (text : string)
| OnText (chunkText : string)
| OnToolUse (block : ContentBlock)
| OnMessage (finalMessage : FinalMessage).

(** A computation that performs events and returns or throws.  The
    callbacks are the caller's: a call to one is recorded and taken to
    return. *)
Definition Eff (A : Type) : Type := (list Event * result A)%type.

Definition ret {A : Type} (a : A) : Eff A := ([], Ok a).
Definition throw {A : Type} (e : Exception) : Eff A := ([], Throw e).
Definition emit (ev : Event) : Eff unit := ([ev], Ok tt).
Definition lift {A : Type} (r : result A) : Eff A := ([], r).

Definition bindE {A B : Type} (m : Eff A) (k : A -> Eff B) : Eff B :=
  match m with
  | (t, Ok a) => (t ++ fst (k a), snd (k a))
  | (t, Throw e) => (t, Throw e)
  end.

Declare Scope eff_scope.
Delimit Scope eff_scope with eff.
Notation "x <- m ;; k" := (bindE m (fun x => k))
  (at level 100, m at next level, right associativity) : eff_scope.
Notation "m ;; k" := (bindE m (fun _ => k))
  (at level 100, right associativity) : eff_scope.

(** [if (handler) handler(arg)]. *)
Definition call (supplied : bool) (ev : Event) : Eff unit :=
  if supplied then emit ev else ret tt.

(** [for (const x of l) await f(x)]. *)
Fixpoint forEach {A : Type} (f : A -> Eff unit) (l : list A) : Eff unit :=
  match l with
  | [] => ret tt
  | x :: rest => (f x ;; forEach f rest)%eff
  end.

(** [s.includes(sub)]. *)
Fixpoint str_includes (s sub : string) : bool :=
  String.prefix sub s
  || match s with
     | EmptyString => false
     | String _ rest => str_includes rest sub
     end.

(** Constants of config.server.js. *)
Definition defaultModel : string := "gemini-2.5-pro".
Definition defaultPromptType : string := "standardAssistant".

Definition readableStreamSignature : string :=
  "First parameter has member 'readable' that is not a ReadableStream".

Definition streamingUnavailable : Exception :=
  Error "Streaming is temporarily unavailable due to a ReadableStream compatibility issue. Please try again or contact support if the issue persists.".

Definition polyfillNotice : string :=
  "ReadableStream polyfill conflict detected. This is a known issue with web-streams-polyfill versions.".

Definition noCandidate : Exception :=
  Error "No response candidate found from Gemini.".

(** [responseCandidate.content?.parts.filter(...).map(...) || []], lines
    161-163. *)
Definition geminiToolCallsOf (responseCandidate : Candidate) : list FunctionCall :=
  match content responseCandidate with
  | Some c => functionCalls (parts c)
  | None => []
  end.

(** The [finalMessage] object, lines 175-182. *)
Definition finalMessageOf (responseCandidate : Candidate) (fullResponseText : string)
  : FinalMessage :=
  let geminiToolCalls := geminiToolCallsOf responseCandidate in
  {| fm_role := "assistant";
     fm_content :=
       match geminiToolCalls with
       | _ :: _ => List.map toolUseOf geminiToolCalls
       | [] => [TextBlock fullResponseText]
       end;
     fm_model := defaultModel;
     fm_stop_reason := mapFinishReason (finishReason responseCandidate) |}.

Section GeminiService.

Variable JSON_parse : string -> result JSON.

(** The table of prompts.json, a parameter here: [systemPrompts k = Some c]
    when it has an entry [k] with content [c]. *)
Variable systemPrompts : string -> option string.

(** The remote call [model.generateContentStream({ contents })] of the
    model built from [params]: it resolves or rejects. *)
Variable generateContentStream :
  ModelParams -> list Content -> result StreamResult.

(** [getSystemPrompt(promptType)], lines 191-194. *)
Definition getSystemPrompt (promptType : string) : result string :=
  match systemPrompts promptType with
  | Some c =>
      if negb (c =? "") then Ok c
      else match systemPrompts defaultPromptType with
           | Some d => Ok d
           | None => Throw (TypeError "Cannot read properties of undefined (reading 'content')")
           end
  | None =>
      match systemPrompts defaultPromptType with
      | Some d => Ok d
      | None => Throw (TypeError "Cannot read properties of undefined (reading 'content')")
      end
  end.

(** The [for await] loop of lines 148-155, from an accumulator. *)
Fixpoint consumeStream (streamHandlers : StreamHandlers)
    (chunks : list string) (fullResponseText : string) : Eff string :=
  match chunks with
  | [] => ret fullResponseText
  | chunkText :: rest =>
      if negb (chunkText =? "") then
        (call (onText streamHandlers) (OnText chunkText) ;;
         consumeStream streamHandlers rest (fullResponseText ++ chunkText))%eff
      else consumeStream streamHandlers rest fullResponseText
  end.

(** The [try]/[catch] around the provider call, lines 135-146. *)
Definition callProvider (params : ModelParams) (geminiHistory : list Content)
  : Eff StreamResult :=
  (emit (GenerateContentStream params geminiHistory) ;;
   match generateContentStream params geminiHistory with
   | Ok result => ret result
   | Throw error =>
       if negb (message error =? "")
          && str_includes (message error) readableStreamSignature
       then (emit (ConsoleError polyfillNotice) ;;
             throw streamingUnavailable)
       else throw error
   end)%eff.

(** The argument of [genAI.getGenerativeModel], lines 126-130. *)
Definition modelParams (systemInstruction : string) (tools : list Tool)
  : ModelParams :=
  {| model := defaultModel;
     systemInstruction := systemInstruction;
     tools := match tools with
              | _ :: _ => Some (transformToolsForGemini tools)
              | [] => None
              end |}.

(** [streamConversation({ messages, promptType, tools }, streamHandlers)],
    lines 120-189. *)
Definition streamConversation (req : Request) (streamHandlers : StreamHandlers)
  : Eff FinalMessage :=
  (systemInstruction <-
     lift (getSystemPrompt (default defaultPromptType (promptType req))) ;;
   let params := modelParams systemInstruction (req_tools req) in
   geminiHistory <- lift (formatHistoryForGemini JSON_parse (messages req)) ;;
   result <- callProvider params geminiHistory ;;
   fullResponseText <- consumeStream streamHandlers (stream result) "" ;;
   match candidates result with
   | [] => throw noCandidate
   | responseCandidate :: _ =>
       let geminiToolCalls := geminiToolCallsOf responseCandidate in
       (if onToolUse streamHandlers && negb (length geminiToolCalls =? 0)%nat then
          forEach (fun geminiCall => emit (OnToolUse (toolUseOf geminiCall)))
                  geminiToolCalls
        else ret tt) ;;
       let finalMessage := finalMessageOf responseCandidate fullResponseText in
       call (onMessage streamHandlers) (OnMessage finalMessage) ;;
       ret finalMessage
   end)%eff.

End GeminiService.

(* ===================================================================== *)
(** ** Service factory *)
(* ===================================================================== *)

(** [process.env]: the variables that are set, each with its string
    value. *)
Definition Env : Type := list (string * string).

(** The object [createGeminiService] returns:
    [{ streamConversation, getSystemPrompt }]. *)
Record GeminiService : Type := {
  svc_streamConversation : Request -> StreamHandlers -> Eff FinalMessage;
  svc_getSystemPrompt : string -> result string
}.

Definition apiKeyNotSet : Exception := Error "GEMINI_API_KEY is not set.".

Section ServiceFactory.

Variable JSON_parse : string -> result JSON.
Variable systemPrompts : string -> option string.

(** [new GoogleGenerativeAI(apiKey)]: the client made for a key, as the
    remote call made by the models it builds. *)
Variable GoogleGenerativeAI :
  string -> ModelParams -> list Content -> result StreamResult.

(** [createGeminiService(apiKey = process.env.GEMINI_API_KEY)], lines
    116-197.  [apiKey = None] is an omitted (or [undefined]) argument, the
    only case in which the default is read. *)
Definition createGeminiService (env : Env) (apiKey : option string)
  : result GeminiService :=
  let apiKey :=
    match apiKey with
    | Some key => Some key
    | None => getProp env "GEMINI_API_KEY"
    end in
  match apiKey with
  | Some key =>
      if negb (key =? "") then
        let genAI := GoogleGenerativeAI key in
        Ok {| svc_streamConversation :=
                streamConversation JSON_parse systemPrompts genAI;
              svc_getSystemPrompt := getSystemPrompt systemPrompts |}
      else Throw apiKeyNotSet
  | None => Throw apiKeyNotSet
  end.

End ServiceFactory.

(* ===================================================================== *)
(** ** The normalizer on a store of mutable objects *)
(* ===================================================================== *)

(** JavaScript objects are mutable and shared: [{ ...tool }] copies the
    properties of [tool] but not the schema object they point to, and
    [delete] and assignment update an object where it lives.  This second
    embedding of the normalizer keeps the store explicit, so that what the
    call leaves of its arguments can be stated. *)

(** A value is a primitive or a reference into the store. *)
Inductive HValue : Type :=
| HUndefined
| HNull
| HBool (b : bool)
| HNumber (mantissa exponent : Z)
| HString (s : string)
| HRef (l : nat).

(** A stored object: a plain object with its own properties, or an array
    with its elements. *)
Inductive HObject : Type :=
| HObj (props : list (string * HValue))
| HArr (items : list HValue).

(** The store; a new object takes the next free address. *)
Abbreviation Heap := (list HObject).

(** [v.key] for a property name. *)
Definition hget (h : Heap) (v : HValue) (key : string) : HValue :=
  match v with
  | HRef l =>
      match h !! l with
      | Some (HObj props) => default HUndefined (getProp props key)
      | _ => HUndefined
      end
  | _ => HUndefined
  end.

(** [v[i]] for an array index. *)
Definition hindex (h : Heap) (v : HValue) (i : nat) : HValue :=
  match v with
  | HRef l =>
      match h !! l with
      | Some (HArr items) => default HUndefined (items !! i)
      | _ => HUndefined
      end
  | _ => HUndefined
  end.

(** [obj[key] = v], [arr[arr.length] = v] and [delete obj[key]] on the
    object at address [l]. *)
Definition hsetProp (h : Heap) (l : nat) (key : string) (v : HValue) : Heap :=
  alter (fun o => match o with
                  | HObj props => HObj (setProp props key v)
                  | HArr _ => o
                  end) l h.

Definition hpush (h : Heap) (l : nat) (v : HValue) : Heap :=
  alter (fun o => match o with
                  | HArr items => HArr (items ++ [v])
                  | HObj _ => o
                  end) l h.

Definition hdeleteProp (h : Heap) (l : nat) (key : string) : Heap :=
  alter (fun o => match o with
                  | HObj props => HObj (deleteProp props key)
                  | HArr _ => o
                  end) l h.

Definition truthyH (v : HValue) : bool :=
  match v with
  | HUndefined | HNull => false
  | HBool b => b
  | HNumber m _ => negb (m =? 0)%Z
  | HString s => negb (s =? "")
  | HRef _ => true
  end.

Definition strictEqStringH (v : HValue) (lit : string) : bool :=
  match v with
  | HString s => s =? lit
  | _ => false
  end.

Definition includesH (lits : list string) (v : HValue) : bool :=
  match v with
  | HString s => existsb (String.eqb s) lits
  | _ => false
  end.

(** The two loops of [cleanParameters] on the store, over the keys fixed
    when the loop starts: the indices of an array, the property names of an
    object.  [clean] is the recursive call; [params.type] and [params[key]]
    are read from the store as it is at each turn, and [cleanedParams] is
    the address of the object being filled. *)
Definition cleanArrayLoop (clean : HValue -> Heap -> option (HValue * Heap))
    (params : HValue) (cleanedParams : nat)
  : list nat -> Heap -> option (HValue * Heap) :=
  fix loop (keys : list nat) (h : Heap) : option (HValue * Heap) :=
    match keys with
    | [] => Some (HRef cleanedParams, h)
    | key :: rest =>
        '(v, h) ← clean (hindex h params key) h;
        loop rest (hpush h cleanedParams v)
    end.

Definition cleanObjectLoop (clean : HValue -> Heap -> option (HValue * Heap))
    (params : HValue) (cleanedParams : nat)
  : list string -> Heap -> option (HValue * Heap) :=
  fix loop (keys : list string) (h : Heap) : option (HValue * Heap) :=
    match keys with
    | [] => Some (HRef cleanedParams, h)
    | key :: rest =>
        if (key =? "format")
           && strictEqStringH (hget h params "type") "string"
           && negb (includesH ["enum"; "date-time"] (hget h params key))
        then loop rest h
        else if negb (key =? "additional_properties")
        then
          '(v, h) ← clean (hget h params key) h;
          loop rest (if key =? "__proto__" then h
                     else hsetProp h cleanedParams key v)
        else loop rest h
    end.

(** [cleanParameters(params)] on the store.  [cleanedParams] is allocated
    before the loop runs.  The fuel bounds the nesting depth, which on a
    cyclic store is unbounded. *)
Fixpoint cleanParametersH (fuel : nat) (params : HValue) (h : Heap)
  : option (HValue * Heap) :=
  match fuel with
  | O => None
  | S fuel =>
      match params with
      | HRef l =>
          match h !! l with
          | None => None
          | Some (HArr items) =>
              cleanArrayLoop (cleanParametersH fuel) params (length h)
                (seq 0 (length items)) (h ++ [HArr []])
          | Some (HObj props) =>
              cleanObjectLoop (cleanParametersH fuel) params (length h)
                (List.map fst props) (h ++ [HObj []])
          end
      | _ => Some (params, h)
      end
  end.

(** The own properties [{ ...tool }] copies, for a declaration that is a
    plain object; any other value contributes none here. *)
Definition spread (h : Heap) (tool : HValue) : list (string * HValue) :=
  match tool with
  | HRef l =>
      match h !! l with
      | Some (HObj props) => props
      | _ => []
      end
  | _ => []
  end.

(** The arrow function of [transformToolsForGemini] on the store. *)
Definition transformToolH (fuel : nat) (tool : HValue) (h : Heap)
  : option (HValue * Heap) :=
  let newTool := length h in
  let h := h ++ [HObj (spread h tool)] in
  if truthyH (hget h (HRef newTool) "input_schema") then
    '(parameters, h) ← cleanParametersH fuel (hget h (HRef newTool) "input_schema") h;
    let h := hsetProp h newTool "parameters" parameters in
    Some (HRef newTool, hdeleteProp h newTool "input_schema")
  else Some (HRef newTool, h).

(** [transformToolsForGemini(tools)] on the store: the elements of the
    new array, and the store after the call. *)
Fixpoint transformToolsForGeminiH (fuel : nat) (tools : list HValue) (h : Heap)
  : option (list HValue * Heap) :=
  match tools with
  | [] => Some ([], h)
  | tool :: rest =>
      '(newTool, h) ← transformToolH fuel tool h;
      '(newTools, h) ← transformToolsForGeminiH fuel rest h;
      Some (newTool :: newTools, h)
  end.

(** The JSON value a stored value stands for, [None] when it has none
    within [fuel] levels (a dangling or cyclic reference, [undefined]). *)
Fixpoint reify (fuel : nat) (h : Heap) (v : HValue) : option JSON :=
  match fuel with
  | O => None
  | S fuel =>
      match v with
      | HUndefined => None
      | HNull => Some JNull
      | HBool b => Some (JBool b)
      | HNumber m e => Some (JNumber m e)
      | HString s => Some (JString s)
      | HRef l =>
          match h !! l with
          | None => None
          | Some (HArr items) => JArray <$> mapM (reify fuel h) items
          | Some (HObj props) =>
              JObject <$>
                mapM (fun kv => pair (fst kv) <$> reify fuel h (snd kv)) props
          end
      end
  end.

(** Every object of [h] is still there, as it was, in [h']. *)
Definition unchanged (h h' : Heap) : Prop :=
  forall l object, h !! l = Some object -> h' !! l = Some object.

(** The values JavaScript objects can stand for: property names are
    distinct within every object. *)
#[warnings="-register-all"]
Inductive DistinctKeys : JSON -> Prop :=
| dk_null : DistinctKeys JNull
| dk_bool b : DistinctKeys (JBool b)
| dk_number m e : DistinctKeys (JNumber m e)
| dk_string s : DistinctKeys (JString s)
| dk_array items : Forall DistinctKeys items -> DistinctKeys (JArray items)
| dk_object props :
    NoDup (List.map fst props) ->
    Forall (fun kv => DistinctKeys (snd kv)) props ->
    DistinctKeys (JObject props).

(** The same as a test. *)
Fixpoint distinctKeysb (v : JSON) : bool :=
  match v with
  | JArray items => forallb distinctKeysb items
  | JObject props =>
      bool_decide (NoDup (List.map fst props))
      && forallb (fun kv => distinctKeysb (snd kv)) props
  | _ => true
  end.

(** [h''] has the objects of [h'] at the addresses from [k] on. *)
Definition agreesFrom (k : nat) (h' h'' : Heap) : Prop :=
  forall l, k <= l -> l < length h' -> h'' !! l = h' !! l.

(* ===================================================================== *)
(** ** Environment configuration (app/services/environment.server.js) *)
(* ===================================================================== *)

(** [!process.env[varName]]: the variable is unset or empty. *)
Definition unset (env : Env) (varName : string) : bool :=
  match getProp env varName with
  | Some value => value =? ""
  | None => true
  end.

(** Lines 9-26. *)
Definition REQUIRED_ENV_VARS : list (string * list string) :=
  [("all", ["NODE_ENV"; "SHOPIFY_API_KEY"; "SHOPIFY_API_SECRET";
            "SHOPIFY_APP_URL"; "CLAUDE_API_KEY"; "DATABASE_URL";
            "REDIRECT_URL"]);
   ("production", ["SESSION_SECRET"; "RENDER_SERVICE_NAME"]);
   ("development", ["HMR_SERVER_PORT"])].

(** Lines 31-40. *)
Definition DEFAULT_VALUES : list (string * string) :=
  [("NODE_ENV", "development");
   ("PORT", "3000");
   ("AI_PROVIDER", "claude");
   ("LOG_LEVEL", "info");
   ("ENABLE_STRUCTURED_LOGGING", "true");
   ("ENABLE_CHAT_ANALYTICS", "true");
   ("ENABLE_PERFORMANCE_MONITORING", "false");
   ("SCOPES", "customer_read_customers,customer_read_orders,customer_read_store_credit_account_transactions,customer_read_store_credit_accounts,unauthenticated_read_product_listings")].

(** The names an object literal answers to besides its own: the
    properties of [Object.prototype].  Each is a function or an object, so
    truthy, and none has a [forEach]. *)
Definition objectPrototypeKeys : list string :=
  ["constructor"; "hasOwnProperty"; "isPrototypeOf"; "propertyIsEnumerable";
   "toLocaleString"; "toString"; "valueOf"; "__proto__";
   "__defineGetter__"; "__defineSetter__"; "__lookupGetter__";
   "__lookupSetter__"].

(** [process.env.NODE_ENV || 'development'], line 56. *)
Definition nodeEnvOf (processEnv : Env) : string :=
  match getProp processEnv "NODE_ENV" with
  | Some value => if negb (value =? "") then value else "development"
  | None => "development"
  end.

(** The message of lines 76-78. *)
Definition missingMessage (missing : list string) (env : string) : string :=
  "Missing required environment variables: " ++ String.concat ", " missing
  ++ newline
  ++ "Please check your .env file and ensure all required variables are set."
  ++ newline
  ++ "Environment: " ++ env.

(** [validateEnvironment()], lines 55-81.  [missing] is the array the two
    [forEach] loops push to; [REQUIRED_ENV_VARS[env]] is an own property,
    an inherited one (on which calling [forEach] is a TypeError, in the
    engine's wording), or [undefined]. *)
Definition validateEnvironment (processEnv : Env) : result unit :=
  let env := nodeEnvOf processEnv in
  let missing :=
    List.filter (unset processEnv)
      (default [] (getProp REQUIRED_ENV_VARS "all")) in
  (missing <-
     match getProp REQUIRED_ENV_VARS env with
     | Some names => Ok (missing ++ List.filter (unset processEnv) names)
     | None =>
         if existsb (String.eqb env) objectPrototypeKeys
         then Throw (TypeError "REQUIRED_ENV_VARS[env].forEach is not a function")
         else Ok missing
     end ;;
   if (0 <? length missing)%nat
   then Throw (Error (missingMessage missing env))
   else Ok tt)%result.

(** The loop of [setDefaults], lines 87-91, over the entries [defaults]:
    the assignment [process.env[key] = value] for every entry whose
    variable is unset or empty. *)
Definition applyDefaults (defaults : list (string * string)) (processEnv : Env)
  : Env :=
  fold_left
    (fun processEnv entry =>
       if unset processEnv (fst entry)
       then setProp processEnv (fst entry) (snd entry)
       else processEnv)
    defaults processEnv.

(** [setDefaults()], lines 86-92. *)
Definition setDefaults (processEnv : Env) : Env :=
  applyDefaults DEFAULT_VALUES processEnv.

(** [new EnvironmentConfig()], lines 46-49: the environment it leaves. *)
Definition EnvironmentConfig (processEnv : Env) : result Env :=
  (_ <- validateEnvironment processEnv ;; Ok (setDefaults processEnv))%result.

(** What [process.env[varName]] can be for an arbitrary name: the string
    of the variable of that name, or, when no variable has the name and
    [Object.prototype] has a member of that name, that member (a function,
    or the prototype itself for [__proto__]). *)
Inductive EnvValue : Type :=
| EnvString (value : string)
| EnvInherited (name : string).

(** [process.env[varName]]; [None] is [undefined].  A variable that is
    set hides the inherited member of the same name. *)
Definition envLookup (processEnv : Env) (varName : string) : option EnvValue :=
  match getProp processEnv varName with
  | Some value => Some (EnvString value)
  | None =>
      if existsb (String.eqb varName) objectPrototypeKeys
      then Some (EnvInherited varName)
      else None
  end.

(** Truthiness of such a value: a string unless empty, every inherited
    member. *)
Definition truthyEnv (value : EnvValue) : bool :=
  match value with
  | EnvString s => negb (s =? "")
  | EnvInherited _ => true
  end.

Definition requiredNotSet (varName : string) : Exception :=
  Error ("Required environment variable " ++ varName ++ " is not set").

(** [getEnvVar(varName, defaultValue = null)], lines 202-210;
    [defaultValue = None] is [null] or an omitted argument.  The test of
    line 205 is [!value && defaultValue === null]; line 209 returns
    [value || defaultValue]. *)
Definition getEnvVar (processEnv : Env) (varName : string)
    (defaultValue : option string) : result EnvValue :=
  let value := envLookup processEnv varName in
  match defaultValue with
  | None =>
      match value with
      | Some v => if truthyEnv v then Ok v else Throw (requiredNotSet varName)
      | None => Throw (requiredNotSet varName)
      end
  | Some d =>
      match value with
      | Some v => Ok (if truthyEnv v then v else EnvString d)
      | None => Ok (EnvString d)
      end
  end.

(* ===================================================================== *)
(** ** Structured logger (app/services/logger.server.js) *)
(* ===================================================================== *)

(** [array.indexOf(x)]: the first index of [x], or [-1]. *)
Fixpoint indexOf (l : list string) (x : string) : Z :=
  match l with
  | [] => (-1)%Z
  | y :: rest =>
      if y =? x then 0%Z
      else let i := indexOf rest x in
           if (i <? 0)%Z then (-1)%Z else (i + 1)%Z
  end.

(** [shouldLog(level)] of a logger configured with [logLevel], lines
    72-77. *)
Definition shouldLog (logLevel level : string) : bool :=
  let levels := ["error"; "warn"; "info"; "debug"] in
  let currentLevelIndex := indexOf levels logLevel in
  let messageLevelIndex := indexOf levels level in
  (messageLevelIndex <=? currentLevelIndex)%Z.

(** [a || b] for two property reads. *)
Definition orElse (a b : option JSON) : option JSON :=
  match a with
  | Some v => if truthy v then a else b
  | None => b
  end.

(** [{ ...base, ...data }] on own-property lists. *)
Definition spreadInto (base data : list (string * JSON)) : list (string * JSON) :=
  fold_left (fun object kv => setProp object (fst kv) (snd kv)) data base.

(** [createLogEntry(level, message, data = {})], lines 86-103, for a
    logger whose configuration has [nodeEnv]; [timestamp] is what
    [new Date().toISOString()] gives. *)
Definition createLogEntry (timestamp nodeEnv : string) (level message : string)
    (data : list (string * JSON)) : list (string * JSON) :=
  let logEntry :=
    spreadInto
      [("timestamp", JString timestamp);
       ("level", JString level);
       ("message", JString message);
       ("environment", JString nodeEnv);
       ("service", JString "harmony-assistant")]
      data in
  match orElse (getProp data "conversationId") (getProp data "sessionId") with
  | Some correlationId =>
      if truthy correlationId
      then setProp logEntry "correlationId" correlationId
      else logEntry
  | None => logEntry
  end.

(* ===================================================================== *)
(** ** The logger's methods (app/services/logger.server.js) *)
(* ===================================================================== *)

(** The part of [getEnvConfig()] the logger and the health check read:
    [nodeEnv], the [logging] flags and the [analytics] settings.  The
    configuration is read from a constructed [EnvironmentConfig], for which
    [NODE_ENV] is set. *)
Record EnvConfig : Type := {
  nodeEnv : string;
  enableStructuredLogging : bool;
  logLevel : string;
  enableChatAnalytics : bool;
  enablePerformanceMonitoring : bool;
  analyticsEnabled : bool;
  googleAnalyticsId : option string;
  mixpanelToken : option string
}.

(** What [console.log] is given: [JSON.stringify(logEntry)], recorded as
    the entry, or the line [[timestamp] LEVEL: message] of the fallback,
    recorded as the three values the template is filled with. *)
Inductive ConsoleLine : Type :=
| Stringified (logEntry : list (string * JSON))
| Formatted (timestamp : option JSON) (level : string) (message : option JSON).

(** What the server does to the outside world. *)
Inductive ServerEvent : Type :=
| ConsoleLog (line : ConsoleLine)
| QueryRaw (sql : string).

(** A computation that reads the clock, performs events and returns or
    throws; the state counts the clock reads made so far. *)
Definition Logging (A : Type) : Type :=
  nat -> list ServerEvent * nat * result A.

Definition retL {A : Type} (a : A) : Logging A := fun n => ([], n, Ok a).
Definition throwL {A : Type} (e : Exception) : Logging A :=
  fun n => ([], n, Throw e).
Definition perform (ev : ServerEvent) : Logging unit := fun n => ([ev], n, Ok tt).

Definition bindL {A B : Type} (m : Logging A) (k : A -> Logging B) : Logging B :=
  fun n =>
    match m n with
    | (t, n', Ok a) =>
        (t ++ fst (fst (k a n')), snd (fst (k a n')), snd (k a n'))
    | (t, n', Throw e) => (t, n', Throw e)
    end.

(** [try { body } catch (error) { handler }]. *)
Definition tryCatch {A : Type} (body : Logging A)
    (handler : Exception -> Logging A) : Logging A :=
  fun n =>
    match body n with
    | (t, n', Ok a) => (t, n', Ok a)
    | (t, n', Throw e) =>
        (t ++ fst (fst (handler e n')), snd (fst (handler e n')),
         snd (handler e n'))
    end.

Declare Scope logging_scope.
Delimit Scope logging_scope with logging.
Notation "x <- m ;; k" := (bindL m (fun x => k))
  (at level 100, m at next level, right associativity) : logging_scope.
Notation "m ;; k" := (bindL m (fun _ => k))
  (at level 100, right associativity) : logging_scope.

(** [error.name] and [error.message] of a thrown value. *)
Definition errorName (e : Exception) : string :=
  match e with
  | Error _ => "Error"
  | TypeError _ => "TypeError"
  | SyntaxError _ => "SyntaxError"
  end.

Definition errorMessage (e : Exception) : string := message e.

(** A promise that has settled, awaited. *)
Definition await {A : Type} (r : result A) : Logging A := fun n => ([], n, r).

(** [x && s] for a flag and a string that may be missing: both truthy. *)
Definition configured (flag : bool) (s : option string) : bool :=
  flag && match s with Some v => negb (v =? "") | None => false end.

Module StructuredLogger.
Section Methods.

(** The system clock, in milliseconds, at each successive reading;
    [Date.prototype.toISOString], [String.prototype.toUpperCase] and the
    [stack] of a thrown value are the platform's. *)
Variable clock : nat -> Z.
Variable toISOString : Z -> string.
Variable toUpperCase : string -> string.
Variable stack : Exception -> string.

(** [this.config], read when the logger was constructed (lines 60-65). *)
Variable config : EnvConfig.

(** [Date.now()], and [new Date()], read the clock. *)
Definition now : Logging Z := fun n => ([], S n, Ok (clock n)).

(** [createLogEntry(level, message, data)] with its clock reading. *)
Definition newLogEntry (level message : string) (data : list (string * JSON))
  : Logging (list (string * JSON)) :=
  (t <- now ;;
   retL (createLogEntry (toISOString t) (nodeEnv config) level message data))%logging.

(** [output(logEntry)], lines 109-116.  In the fallback the template
    calls [logEntry.level.toUpperCase()], a TypeError (in the engine's
    wording) unless the level is a string. *)
Definition output (logEntry : list (string * JSON)) : Logging unit :=
  if enableStructuredLogging config then
    perform (ConsoleLog (Stringified logEntry))
  else
    match getProp logEntry "level" with
    | Some (JString level) =>
        perform (ConsoleLog (Formatted (getProp logEntry "timestamp")
                               (toUpperCase level)
                               (getProp logEntry "message")))
    | Some JNull =>
        throwL (TypeError "Cannot read properties of null (reading 'toUpperCase')")
    | None =>
        throwL (TypeError "Cannot read properties of undefined (reading 'toUpperCase')")
    | Some _ =>
        throwL (TypeError "logEntry.level.toUpperCase is not a function")
    end.

(** [error(message, data = {}, error = null)], lines 124-138. *)
Definition error (message : string) (data : list (string * JSON))
    (error : option Exception) : Logging unit :=
  if negb (shouldLog (logLevel config) "error") then retL tt
  else
    let logData := spreadInto [] data in
    let logData :=
      match error with
      | Some error =>
          setProp logData "error"
            (JObject [("name", JString (errorName error));
                      ("message", JString (errorMessage error));
                      ("stack", JString (stack error))])
      | None => logData
      end in
    (logEntry <- newLogEntry "error" message logData ;;
     output logEntry)%logging.

(** [warn], [info] and [debug], lines 145-171. *)
Definition warn (message : string) (data : list (string * JSON)) : Logging unit :=
  if negb (shouldLog (logLevel config) "warn") then retL tt
  else (logEntry <- newLogEntry "warn" message data ;; output logEntry)%logging.

Definition info (message : string) (data : list (string * JSON)) : Logging unit :=
  if negb (shouldLog (logLevel config) "info") then retL tt
  else (logEntry <- newLogEntry "info" message data ;; output logEntry)%logging.

Definition debug (message : string) (data : list (string * JSON)) : Logging unit :=
  if negb (shouldLog (logLevel config) "debug") then retL tt
  else (logEntry <- newLogEntry "debug" message data ;; output logEntry)%logging.

(** [sendToAnalytics(eventData)], lines 203-215. *)
Definition sendToAnalytics (eventData : list (string * JSON)) : Logging unit :=
  ((if configured (analyticsEnabled config) (googleAnalyticsId config)
    then debug "Would send to Google Analytics" [("eventData", JObject eventData)]
    else retL tt) ;;
   (if configured (analyticsEnabled config) (mixpanelToken config)
    then debug "Would send to Mixpanel" [("eventData", JObject eventData)]
    else retL tt))%logging.

(** [trackEvent(eventType, properties = {}, context = {})], lines
    179-197. *)
Definition trackEvent (eventType : string)
    (properties context : list (string * JSON)) : Logging unit :=
  if negb (enableChatAnalytics config) then retL tt
  else
    (t <- now ;;
     let eventData :=
       [("eventType", JString eventType);
        ("properties", JObject properties);
        ("context",
         JObject (spreadInto
                    [("timestamp", JString (toISOString t));
                     ("environment", JString (nodeEnv config));
                     ("service", JString "harmony-assistant")]
                    context))] in
     info "Analytics Event" [("analytics", JObject eventData)] ;;
     sendToAnalytics eventData)%logging.

(** [trackPerformance(operation, duration, context = {})], lines
    223-237. *)
Definition trackPerformance (operation : string) (duration : JSON)
    (context : list (string * JSON)) : Logging unit :=
  if negb (enablePerformanceMonitoring config) then retL tt
  else
    let metric :=
      spreadInto [("operation", JString operation); ("duration", duration)]
        context in
    (trackEvent "response_time" metric [] ;;
     info "Performance Metric" metric)%logging.

(** [trackChatEvent], [trackAIEvent] and [trackProductEvent], lines
    242-258. *)
Definition trackChatEvent (eventType : string) (data : list (string * JSON))
  : Logging unit :=
  trackEvent eventType data [("module", JString "chat")].

Definition trackAIEvent (eventType : string) (data : list (string * JSON))
  : Logging unit :=
  trackEvent eventType data [("module", JString "ai")].

Definition trackProductEvent (eventType : string) (data : list (string * JSON))
  : Logging unit :=
  trackEvent eventType data [("module", JString "product")].

End Methods.
End StructuredLogger.

(* ===================================================================== *)
(** ** Health check endpoint (app/routes/health.jsx) *)
(* ===================================================================== *)

(** The response [json(data, init)] makes: the status (200 unless given),
    the headers and the data it serializes. *)
Record Response : Type := {
  resp_status : Z;
  resp_headers : list (string * string);
  resp_body : list (string * JSON)
}.

Definition json (data : list (string * JSON)) (status : option Z)
    (headers : list (string * string)) : Response :=
  {| resp_status := default 200%Z status;
     resp_headers := headers;
     resp_body := data |}.

Section HealthCheck.

Variable clock : nat -> Z.
Variable toISOString : Z -> string.
Variable toUpperCase : string -> string.
Variable stack : Exception -> string.

(** The configuration of the imported [logger], and the one
    [getEnvConfig()] returns when the check runs. *)
Variable logger : EnvConfig.
Variable config : EnvConfig.

(** The outcome of the query sent to the database. *)
Variable queryRaw : string -> result unit.

(** [process.env.npm_package_version] and [process.uptime()]. *)
Variable npm_package_version : option string.
Variable uptime : JSON.

Local Abbreviation logger_debug :=
  (StructuredLogger.debug clock toISOString toUpperCase logger).
Local Abbreviation logger_error :=
  (StructuredLogger.error clock toISOString toUpperCase stack logger).
Local Abbreviation Date_now := (StructuredLogger.now clock).

(** [loader()], lines 11-75. *)
Definition loader : Logging Response :=
  (startTime <- Date_now ;;
   tryCatch
     (perform (QueryRaw "SELECT 1") ;;
      await (queryRaw "SELECT 1") ;;
      timestamp <- Date_now ;;
      let version :=
        match npm_package_version with
        | Some v => if negb (v =? "") then v else "unknown"
        | None => "unknown"
        end in
      finished <- Date_now ;;
      let healthData :=
        [("status", JString "healthy");
         ("timestamp", JString (toISOString timestamp));
         ("environment", JString (nodeEnv config));
         ("service", JString "harmony-assistant");
         ("version", JString version);
         ("uptime", uptime);
         ("database", JString "connected");
         ("responseTime", JNumber (finished - startTime) 0);
         ("checks", JObject [("database", JBool true);
                             ("environment", JBool true)])] in
      logger_debug "Health check passed"
        [("responseTime", JNumber (finished - startTime) 0);
         ("environment", JString (nodeEnv config))] ;;
      retL (json healthData None
              [("Cache-Control", "no-cache");
               ("Content-Type", "application/json")]))
     (fun error =>
        logged <- Date_now ;;
        logger_error "Health check failed"
          [("error", JString (errorMessage error));
           ("responseTime", JNumber (logged - startTime) 0)]
          (Some error) ;;
        timestamp <- Date_now ;;
        finished <- Date_now ;;
        let errorData :=
          [("status", JString "unhealthy");
           ("timestamp", JString (toISOString timestamp));
           ("error", JString (errorMessage error));
           ("responseTime", JNumber (finished - startTime) 0);
           ("checks", JObject [("database", JBool false);
                               ("environment", JBool true)])] in
        retL (json errorData (Some 503%Z)
                [("Cache-Control", "no-cache");
                 ("Content-Type", "application/json")])))%logging.

End HealthCheck.

(* ===================================================================== *)
(** ** Vocabulary of the statements *)
(* ===================================================================== *)

(** [key] names a property somewhere in [v], at any nesting level. *)
Fixpoint hasKey (key : string) (v : JSON) : bool :=
  match v with
  | JArray items => existsb (hasKey key) items
  | JObject props =>
      existsb (fun kv => (fst kv =? key) || hasKey key (snd kv)) props
  | _ => false
  end.

(** The own properties of an object, none for any other value. *)
Definition ownProps (v : JSON) : list (string * JSON) :=
  match v with JObject props => props | _ => [] end.

(** A free-form string format: the value of a [format] key of a schema
    object whose [type] is ["string"], other than ["enum"] and
    ["date-time"]. *)
Definition freeFormFormat (props : list (string * JSON)) (v : JSON) : Prop :=
  getProp props "type" = Some (JString "string")
  /\ v <> JString "enum" /\ v <> JString "date-time".

(** No schema object anywhere in [v] carries a free-form string format. *)
Fixpoint noFreeFormFormat (v : JSON) : bool :=
  match v with
  | JArray items => forallb noFreeFormFormat items
  | JObject props =>
      forallb
        (fun kv =>
           negb ((fst kv =? "format")
                 && strictEqString (getProp props "type") "string"
                 && negb (includes ["enum"; "date-time"] (snd kv)))
           && noFreeFormFormat (snd kv))
        props
  | _ => true
  end.

(** The properties of a schema object that cleaning keeps: all but
    [additional_properties], a free-form string [format], and a
    [__proto__] key, which an assignment cannot create. *)
Definition keptProperty (props : list (string * JSON)) (kv : string * JSON)
  : bool :=
  negb ((fst kv =? "format")
        && strictEqString (getProp props "type") "string"
        && negb (includes ["enum"; "date-time"] (snd kv)))
  && negb (fst kv =? "additional_properties")
  && negb (fst kv =? "__proto__").

Definition isLeaf (v : JSON) : bool :=
  match v with JArray _ | JObject _ => false | _ => true end.

(** A place inside a value: property names and array indices, from the
    outside in. *)
Inductive PathStep : Type :=
| AtKey (key : string)
| AtIndex (i : nat).

(** The value at a place of [v], if [v] has that place. *)
Fixpoint valueAt (path : list PathStep) (v : JSON) : option JSON :=
  match path, v with
  | [], _ => Some v
  | AtKey key :: rest, JObject props => getProp props key ≫= valueAt rest
  | AtIndex i :: rest, JArray items => items !! i ≫= valueAt rest
  | _, _ => None
  end.

(** The property names the cleaning loop has no test for, and the places
    reached through such names only. *)
Definition plainKey (key : string) : bool :=
  negb (key =? "format") && negb (key =? "additional_properties")
  && negb (key =? "__proto__").

Definition plainPath (path : list PathStep) : bool :=
  forallb (fun step => match step with
                       | AtKey key => plainKey key
                       | AtIndex _ => true
                       end) path.

(** The texts of the [text] blocks of a block list, in order. *)
Fixpoint textsOf (blocks : list ContentBlock) : list string :=
  match blocks with
  | [] => []
  | TextBlock t :: rest => t :: textsOf rest
  | _ :: rest => textsOf rest
  end.

(** [c.id] of a block. *)
Definition block_id (c : ContentBlock) : option string :=
  match c with
  | ToolUseBlock id _ _ => Some id
  | _ => None
  end.

(** The function-response turn carrying [v] under the name [name]. *)
Definition functionResponseTurn (name : option string) (v : JSON) : Content :=
  {| role := "function";
     parts := [FunctionResponsePart
                 {| fr_name := name; fr_response := PayloadJSON v |}] |}.

(** The text turn of role [r]. *)
Definition textTurn (r : string) (text : string) : Content :=
  {| role := r; parts := [TextPart text] |}.

(** The payloads the translator has to parse in [msg] are there and are
    valid JSON: the text of the first content element of a user turn's
    leading tool_result block, and the string content of a [tool] turn. *)
Definition payloadsParse (JSON_parse : string -> result JSON) (msg : Message)
  : Prop :=
  if msg_role msg =? "user" then
    match msg_content msg with
    | ContentBlocks (ToolResultBlock _ content :: _) =>
        exists v, parseToolResult JSON_parse content = Ok v
    | _ => True
    end
  else if msg_role msg =? "tool" then
    match msg_content msg with
    | ContentString s => exists v, JSON_parse s = Ok v
    | _ => True
    end
  else True.

(** A turn the translator has a rule for. *)
Definition knownRole (msg : Message) : bool :=
  (msg_role msg =? "user") || (msg_role msg =? "assistant")
  || (msg_role msg =? "tool").

(** The arguments [onText] was called with, in call order. *)
Fixpoint onTextCalls (trace : list Event) : list string :=
  match trace with
  | [] => []
  | OnText chunkText :: rest => chunkText :: onTextCalls rest
  | _ :: rest => onTextCalls rest
  end.

(** The requests made to the provider, in order. *)
Fixpoint providerCalls (trace : list Event) : list (ModelParams * list Content) :=
  match trace with
  | [] => []
  | GenerateContentStream params contents :: rest =>
      (params, contents) :: providerCalls rest
  | _ :: rest => providerCalls rest
  end.

(** The callbacks made to the caller, in order. *)
Definition isCallback (ev : Event) : bool :=
  match ev with
  | OnText _ | OnToolUse _ | OnMessage _ => true
  | _ => false
  end.

Definition nonEmpty (s : string) : bool := negb (s =? "").

(** The concatenation of a list of strings, in order. *)
Definition concatStrings (l : list string) : string :=
  fold_right String.append "" l.

(** A call whose request reaches the provider: the prompt lookup and the
    history translation returned [sys] and [contents]. *)
Definition reaches (JSON_parse : string -> result JSON)
    (systemPrompts : string -> option string)
    (req : Request) (sys : string) (contents : list Content) : Prop :=
  getSystemPrompt systemPrompts (default defaultPromptType (promptType req))
    = Ok sys
  /\ formatHistoryForGemini JSON_parse (messages req) = Ok contents.

Definition isFunctionCall (part : Part) : bool :=
  match part with FunctionCallPart _ => true | _ => false end.

(** The shapes a translated turn can have: a [model] turn is one text
    fragment or one or more function calls, a [user] turn is one text
    fragment, a [function] turn is one function response. *)
Definition wellFormedTurn (turn : Content) : bool :=
  if role turn =? "model" then
    match parts turn with
    | [TextPart _] => true
    | _ :: _ => forallb isFunctionCall (parts turn)
    | [] => false
    end
  else if role turn =? "user" then
    match parts turn with [TextPart _] => true | _ => false end
  else if role turn =? "function" then
    match parts turn with [FunctionResponsePart _] => true | _ => false end
  else false.

(** The function-call fragment of a tool call. *)
Definition functionCallPartOf (tool_call : ToolCall) : Part :=
  FunctionCallPart {| fc_name := fn_name (tc_function tool_call);
                      fc_args := fn_arguments (tc_function tool_call) |}.

(** The blocks [onToolUse] was called with, in call order. *)
Fixpoint onToolUseCalls (trace : list Event) : list ContentBlock :=
  match trace with
  | [] => []
  | OnToolUse block :: rest => block :: onToolUseCalls rest
  | _ :: rest => onToolUseCalls rest
  end.

(** The messages [onMessage] was called with, in call order. *)
Fixpoint onMessageCalls (trace : list Event) : list FinalMessage :=
  match trace with
  | [] => []
  | OnMessage finalMessage :: rest => finalMessage :: onMessageCalls rest
  | _ :: rest => onMessageCalls rest
  end.

(** A property of a declaration other than the two the rename touches. *)
Definition otherProperty (kv : string * JSON) : bool :=
  negb (fst kv =? "input_schema") && negb (fst kv =? "parameters").

(** [if (object.key)]: the property is there and truthy. *)
Definition truthyProp (props : list (string * JSON)) (key : string) : bool :=
  match getProp props key with Some v => truthy v | None => false end.

(** The variables [validateEnvironment] asks for under [env], in the
    order it asks. *)
Definition requiredFor (env : string) : list string :=
  default [] (getProp REQUIRED_ENV_VARS "all")
  ++ default [] (getProp REQUIRED_ENV_VARS env).

(** The events, the clock reads and the outcome of a run. *)
Definition eventsOf {A : Type} (run : list ServerEvent * nat * result A)
  : list ServerEvent := fst (fst run).
Definition clockReads {A : Type} (run : list ServerEvent * nat * result A)
  : nat := snd (fst run).
Definition outcomeOf {A : Type} (run : list ServerEvent * nat * result A)
  : result A := snd run.

(** The line an entry is printed as when its level is the string
    [level]. *)
Definition lineOf (toUpperCase : string -> string) (config : EnvConfig)
    (logEntry : list (string * JSON)) (level : string) : ConsoleLine :=
  if enableStructuredLogging config then Stringified logEntry
  else Formatted (getProp logEntry "timestamp") (toUpperCase level)
         (getProp logEntry "message").

(** The lines written to the console, in order. *)
Fixpoint consoleLines (trace : list ServerEvent) : list ConsoleLine :=
  match trace with
  | [] => []
  | ConsoleLog line :: rest => line :: consoleLines rest
  | _ :: rest => consoleLines rest
  end.

(** The queries sent to the database, in order. *)
Fixpoint queries (trace : list ServerEvent) : list string :=
  match trace with
  | [] => []
  | QueryRaw sql :: rest => sql :: queries rest
  | _ :: rest => queries rest
  end.

(* ===================================================================== *)
(** ** Sample inputs *)
(* ===================================================================== *)

Module Samples.

Definition mkMessage (r : string) (c : MessageContent) : Message :=
  {| msg_role := r; msg_content := c; msg_tool_calls := []; msg_name := None |}.

(** A catalog-search declaration with the schema shapes the cleaner
    looks at. *)
Definition emailSchema : JSON :=
  JObject [("type", JString "string"); ("format", JString "email");
           ("additional_properties", JObject [("strict", JBool true)])].

Definition searchSchema : JSON :=
  JObject
    [("type", JString "object");
     ("properties",
      JObject [("email", emailSchema);
               ("when", JObject [("type", JString "string");
                                 ("format", JString "date-time")]);
               ("size", JObject [("type", JString "number");
                                 ("format", JString "float")])]);
     ("required", JArray [JString "email"]);
     ("additional_properties", JBool false)].

Definition searchTool : Tool :=
  [("name", JString "search_shop_catalog");
   ("description", JString "Search the shop catalog");
   ("input_schema", searchSchema)].

(** [text:"a", tool_result:..., text:"b"]. *)
Definition mixedBlocks : list ContentBlock :=
  [TextBlock "a"; ToolResultBlock "call_1" [TextBlock "{}"]; TextBlock "b"].

Definition assistantTurn : Message := mkMessage "assistant" (ContentBlocks mixedBlocks).

Definition searchCall (id : string) : ToolCall :=
  {| tc_id := id;
     tc_function :=
       {| fn_name := "search_shop_catalog";
          fn_arguments := JObject [("query", JString "shoes")] |} |}.

Definition callingTurn (id : string) : Message :=
  {| msg_role := "assistant"; msg_content := ContentString "";
     msg_tool_calls := [searchCall id]; msg_name := None |}.

Definition resultTurn (id payload : string) : Message :=
  mkMessage "user"
    (ContentBlocks [ToolResultBlock id [TextBlock payload; TextBlock "second"];
                    TextBlock "trailing text"]).

(** A call identified as a client would ([call_1]), and one identified
    by the tool's name, as this adapter's own tool-use blocks are. *)
Definition linkageHistory (id : string) : list Message :=
  [mkMessage "user" (ContentString "find shoes");
   callingTurn id;
   resultTurn id ("{" ++ JSONText.quoted "products" ++ ":[]}")].

(** A tool that answered in plain words. *)
Definition plainToolTurn : Message :=
  {| msg_role := "tool"; msg_content := ContentString "Product not found";
     msg_tool_calls := []; msg_name := Some "search_shop_catalog" |}.

Definition unparsableHistory : list Message :=
  [mkMessage "user" (ContentString "hi"); plainToolTurn].

Definition mixedRoleHistory : list Message :=
  [mkMessage "system" (ContentString "be brief");
   mkMessage "user" (ContentString "hi");
   mkMessage "developer" (ContentString "debug");
   assistantTurn;
   {| msg_role := "tool";
      msg_content := ContentString ("{" ++ JSONText.quoted "ok" ++ ":true}");
      msg_tool_calls := []; msg_name := Some "search_shop_catalog" |}].

Definition laterToolResultTurn : Message :=
  mkMessage "user"
    (ContentBlocks [TextBlock "see below";
                    ToolResultBlock "call_1" [TextBlock "{}"]]).

Definition prompts (key : string) : option string :=
  if key =? "standardAssistant" then Some "You are a helpful assistant."
  else None.

Definition handlers : StreamHandlers :=
  {| onText := true; onToolUse := true; onMessage := true |}.

Definition hiRequest : Request :=
  {| messages := [mkMessage "user" (ContentString "hi")];
     promptType := None; req_tools := [searchTool] |}.

(** The provider streams ["Hel"], an empty fragment and ["lo!"], and
    ends with ['STOP'] and no function call. *)
Definition helloResult : StreamResult :=
  {| stream := ["Hel"; ""; "lo!"];
     candidates :=
       [{| content := Some {| role := "model"; parts := [TextPart "Hello!"] |};
           finishReason := Some "STOP" |}] |}.

(** The provider streams some text and ends with two function calls. *)
Definition searchingResult : StreamResult :=
  {| stream := ["Let me look."];
     candidates :=
       [{| content :=
             Some {| role := "model";
                     parts :=
                       [TextPart "Let me look.";
                        FunctionCallPart
                          {| fc_name := "search_shop_catalog";
                             fc_args := JObject [("query", JString "shoes")] |};
                        FunctionCallPart
                          {| fc_name := "get_cart"; fc_args := JObject [] |}] |};
           finishReason := Some "TOOL_USE" |}] |}.

Definition resolving (sr : StreamResult)
  : ModelParams -> list Content -> result StreamResult :=
  fun _ _ => Ok sr.

Definition rejecting (e : Exception)
  : ModelParams -> list Content -> result StreamResult :=
  fun _ _ => Throw e.

Definition polyfillError : Exception :=
  TypeError "Failed to construct 'TextDecoderStream': First parameter has member 'readable' that is not a ReadableStream.".

Definition quotaError : Exception := Error "429 Too Many Requests".

(** A store holding [searchTool]-like declaration: the declaration, its
    schema, the schema's [properties] and the [email] property. *)
Definition toolStore : Heap :=
  [HObj [("name", HString "search_shop_catalog"); ("input_schema", HRef 1)];
   HObj [("type", HString "object"); ("properties", HRef 2);
         ("required", HRef 4); ("additional_properties", HBool false)];
   HObj [("email", HRef 3)];
   HObj [("type", HString "string"); ("format", HString "email")];
   HArr [HString "email"]].

(** The declaration the store holds at address 0. *)
Definition storedTool : Tool :=
  [("name", JString "search_shop_catalog");
   ("input_schema",
    JObject
      [("type", JString "object");
       ("properties",
        JObject [("email", JObject [("type", JString "string");
                                    ("format", JString "email")])]);
       ("required", JArray [JString "email"]);
       ("additional_properties", JBool false)])].

(** A tool turn whose content is JSON text. *)
Definition jsonToolTurn : Message :=
  {| msg_role := "tool";
     msg_content := ContentString ("{" ++ JSONText.quoted "ok" ++ ":true}");
     msg_tool_calls := []; msg_name := Some "search_shop_catalog" |}.

(** The provider streams two fragments and ends without a candidate. *)
Definition emptyResult : StreamResult :=
  {| stream := ["Hel"; "lo"]; candidates := [] |}.

(** [helloResult] with a second candidate after the first. *)
Definition twoCandidates : StreamResult :=
  {| stream := ["Hel"; ""; "lo!"];
     candidates :=
       [{| content := Some {| role := "model"; parts := [TextPart "Hello!"] |};
           finishReason := Some "STOP" |};
        {| content := None; finishReason := Some "MAX_TOKENS" |}] |}.

(** A schema object that is its own [items]. *)
Definition cyclicStore : Heap :=
  [HObj [("type", HString "array"); ("items", HRef 0)]].

(** A schema that forbids extra properties in both spellings. *)
Definition strictSchema : list (string * JSON) :=
  [("type", JString "object");
   ("additionalProperties", JBool false);
   ("additional_properties", JBool false)].

(** A production environment with every required variable set. *)
Definition productionEnv : Env :=
  [("NODE_ENV", "production");
   ("SHOPIFY_API_KEY", "key");
   ("SHOPIFY_API_SECRET", "secret");
   ("SHOPIFY_APP_URL", "https://shop.example");
   ("CLAUDE_API_KEY", "sk-claude");
   ("DATABASE_URL", "file:dev.sqlite");
   ("REDIRECT_URL", "https://shop.example/auth/callback");
   ("SESSION_SECRET", "s3cret");
   ("RENDER_SERVICE_NAME", "harmony-assistant");
   ("LOG_LEVEL", "")].

(** A production environment set up for the Gemini provider only. *)
Definition geminiOnlyEnv : Env :=
  [("NODE_ENV", "production");
   ("AI_PROVIDER", "gemini");
   ("GEMINI_API_KEY", "g-key");
   ("SHOPIFY_API_KEY", "key");
   ("SHOPIFY_API_SECRET", "secret");
   ("SHOPIFY_APP_URL", "https://shop.example");
   ("DATABASE_URL", "file:dev.sqlite");
   ("REDIRECT_URL", "https://shop.example/auth/callback");
   ("RENDER_SERVICE_NAME", "harmony-assistant")].

(** What a chat route logs with a message. *)
Definition chatLogData : list (string * JSON) :=
  [("conversationId", JString "conv-1");
   ("sessionId", JString "sess-9");
   ("level", JString "debug")].

(** The platform for the examples: a clock that ticks once per reading,
    a fixed date text, ASCII upper case and no stack text. *)
Definition clock (n : nat) : Z := 1000 + Z.of_nat n.

Definition toISOString (t : Z) : string := "2025-01-01T00:00:00.000Z".

Fixpoint toUpperCase (s : string) : string :=
  match s with
  | EmptyString => EmptyString
  | String c rest =>
      let n := nat_of_ascii c in
      String (if (97 <=? n)%nat && (n <=? 122)%nat then ascii_of_nat (n - 32) else c)
             (toUpperCase rest)
  end.

Definition stack (e : Exception) : string := "".

(** A logger at level [warn], with analytics on. *)
Definition warnLogger : EnvConfig :=
  {| nodeEnv := "production";
     enableStructuredLogging := true;
     logLevel := "warn";
     enableChatAnalytics := true;
     enablePerformanceMonitoring := false;
     analyticsEnabled := true;
     googleAnalyticsId := Some "G-1";
     mixpanelToken := None |}.

(** A database that cannot be reached. *)
Definition databaseDown (sql : string) : result unit :=
  Throw (Error "Can't reach database server").

End Samples.

(* ===================================================================== *)
(** * Properties *)
(* ===================================================================== *)

(** ** Property lists *)

Section PropertyLists.
Context {V : Type}.
Implicit Types (props : list (string * V)) (key k : string) (v : V).

Lemma getProp_setProp_eq props key v :
  getProp (setProp props key v) key = Some v.
Proof.
  induction props as [|[k w] rest IH]; simpl.
  - now rewrite String.eqb_refl.
  - destruct (k =? key) eqn:E; simpl; rewrite E; auto.
Qed.

Lemma getProp_setProp_ne props key k v :
  key <> k -> getProp (setProp props key v) k = getProp props k.
Proof.
  intros Hne. induction props as [|[k' w] rest IH]; simpl.
  - apply String.eqb_neq in Hne. now rewrite Hne.
  - destruct (k' =? key) eqn:E; simpl.
    + apply String.eqb_eq in E. subst k'.
      apply String.eqb_neq in Hne. now rewrite Hne.
    + now rewrite IH.
Qed.

Lemma getProp_deleteProp_eq props key :
  getProp (deleteProp props key) key = None.
Proof.
  unfold deleteProp.
  induction props as [|[k w] rest IH]; simpl; auto.
  destruct (k =? key) eqn:E; simpl; auto. now rewrite E.
Qed.

Lemma getProp_deleteProp_ne props key k :
  key <> k -> getProp (deleteProp props key) k = getProp props k.
Proof.
  intros Hne. unfold deleteProp.
  induction props as [|[k' w] rest IH]; simpl; auto.
  destruct (k' =? key) eqn:E; simpl.
  - apply String.eqb_eq in E. subst k'.
    apply String.eqb_neq in Hne. now rewrite Hne.
  - now rewrite IH.
Qed.

Lemma getProp_In props key v : getProp props key = Some v -> In (key, v) props.
Proof.
  induction props as [|[k w] rest IH]; simpl; [discriminate|].
  destruct (k =? key) eqn:E.
  - apply String.eqb_eq in E. intros [= ->]. subst. now left.
  - intros H. right. auto.
Qed.
End PropertyLists.

(** ** Stop reasons *)

(** C7.  [mapFinishReason] is a total table: ['STOP'] gives ['end_turn'],
    ['TOOL_USE'] gives ['tool_use'], ['MAX_TOKENS'] gives ['max_tokens'],
    and every other finish reason, an absent one included, gives
    ['end_turn']; whatever the input, the value is one of the three
    canonical stop reasons and nothing is thrown. *)
Theorem mapFinishReason_total (reason : option string) :
  mapFinishReason (Some "STOP") = "end_turn"
  /\ mapFinishReason (Some "TOOL_USE") = "tool_use"
  /\ mapFinishReason (Some "MAX_TOKENS") = "max_tokens"
  /\ mapFinishReason None = "end_turn"
  /\ mapFinishReason reason =
       (if bool_decide (reason = Some "TOOL_USE") then "tool_use"
        else if bool_decide (reason = Some "MAX_TOKENS") then "max_tokens"
        else "end_turn")
  /\ In (mapFinishReason reason) ["end_turn"; "tool_use"; "max_tokens"].
Proof.
  repeat split; try reflexivity.
  - destruct reason as [r|]; [|reflexivity]. unfold mapFinishReason.
    destruct (r =? "STOP") eqn:E1.
    { apply String.eqb_eq in E1. now subst. }
    destruct (r =? "TOOL_USE") eqn:E2.
    { apply String.eqb_eq in E2. now subst. }
    destruct (r =? "MAX_TOKENS") eqn:E3.
    { apply String.eqb_eq in E3. now subst. }
    apply String.eqb_neq in E2, E3.
    rewrite !bool_decide_eq_false_2; congruence.
  - destruct reason as [r|]; [|simpl; auto]. unfold mapFinishReason.
    destruct (r =? "STOP"); [simpl; auto|].
    destruct (r =? "TOOL_USE"); [simpl; auto|].
    destruct (r =? "MAX_TOKENS"); simpl; auto.
Qed.

(** ** Schema cleaning *)

(** The loop of [cleanParameters] keeps the properties [keptProperty]
    selects, in their order, each with its value cleaned. *)
Lemma cleanParameters_object props :
  cleanParameters (JObject props) =
  JObject (List.map (fun kv => (fst kv, cleanParameters (snd kv)))
             (List.filter (keptProperty props) props)).
Proof.
  cbn [cleanParameters]. f_equal.
  match goal with
  | |- ?loop props = _ =>
      enough (forall keys,
                 loop keys =
                 List.map (fun kv => (fst kv, cleanParameters (snd kv)))
                   (List.filter (keptProperty props) keys)) as H by apply H
  end.
  induction keys as [|[key v] rest IH]; [reflexivity|].
  unfold keptProperty at 1. cbn [List.filter fst snd].
  destruct ((key =? "format")
            && strictEqString (getProp props "type") "string"
            && negb (includes ["enum"; "date-time"] v)) eqn:Hfmt;
    cbn [negb andb]; [exact IH|].
  destruct (key =? "additional_properties"); cbn [negb andb]; [exact IH|].
  destruct (key =? "__proto__"); cbn [negb]; [exact IH|].
  cbn [List.map fst snd]. now rewrite IH.
Qed.

Lemma cleanParameters_array items :
  cleanParameters (JArray items) = JArray (List.map cleanParameters items).
Proof. reflexivity. Qed.

Lemma cleanParameters_leaf v : isLeaf v = true -> cleanParameters v = v.
Proof. destruct v; simpl; congruence. Qed.

(** Cleaning neither makes nor unmakes one of the strings the loop tests
    for. *)
Lemma cleanParameters_string v s :
  cleanParameters v = JString s <-> v = JString s.
Proof.
  destruct v; try rewrite cleanParameters_object; simpl; split; congruence.
Qed.

Lemma includes_cleanParameters lits v :
  includes lits (cleanParameters v) = includes lits v.
Proof. destruct v; try rewrite cleanParameters_object; reflexivity. Qed.

Lemma getProp_filter_kept props key :
  key <> "format" -> key <> "additional_properties" -> key <> "__proto__" ->
  forall keys,
    getProp (List.map (fun kv => (fst kv, cleanParameters (snd kv)))
               (List.filter (keptProperty props) keys)) key
    = cleanParameters <$> getProp keys key.
Proof.
  intros H1 H2 H3. induction keys as [|[k v] rest IH]; [reflexivity|].
  cbn [List.filter getProp]. destruct (k =? key) eqn:E.
  - apply String.eqb_eq in E. subst k.
    apply String.eqb_neq in H1, H2, H3.
    unfold keptProperty. cbn [fst snd]. rewrite H1, H2, H3. simpl.
    now rewrite String.eqb_refl.
  - destruct (keptProperty props (k, v)); [|exact IH].
    cbn [List.map getProp fst snd]. now rewrite E.
Qed.

Lemma hasKey_additional_properties v :
  hasKey "additional_properties" (cleanParameters v) = false.
Proof.
  induction v as [| | | |items IH|props IH] using JSON_deep_ind;
    try reflexivity.
  - rewrite cleanParameters_array. cbn [hasKey].
    induction IH as [|x rest Hx _ IHrest]; [reflexivity|].
    cbn [List.map existsb]. now rewrite Hx, IHrest.
  - rewrite cleanParameters_object. cbn [hasKey].
    assert (Hkeep : forall kv, keptProperty props kv = true ->
                           (fst kv =? "additional_properties") = false).
    { intros kv. unfold keptProperty.
      destruct (fst kv =? "additional_properties"); [|reflexivity].
      rewrite andb_false_r. discriminate. }
    revert Hkeep. generalize (keptProperty props) as keep. intros keep Hkeep.
    induction IH as [|[k x] rest Hx _ IHrest]; [reflexivity|].
    cbn [List.filter].
    destruct (keep (k, x)) eqn:Hk; [|exact IHrest].
    cbn [List.map existsb fst snd]. cbn [snd] in Hx.
    specialize (Hkeep _ Hk). cbn [fst] in Hkeep.
    now rewrite Hx, IHrest, Hkeep.
Qed.

Lemma strictEqString_true v lit :
  strictEqString v lit = true <-> v = Some (JString lit).
Proof.
  destruct v as [[]|]; simpl; try (split; [discriminate|congruence]).
  rewrite String.eqb_eq. split; congruence.
Qed.

Lemma includes_formats v :
  includes ["enum"; "date-time"] v = true
  <-> v = JString "enum" \/ v = JString "date-time".
Proof.
  destruct v; simpl; try (split; [discriminate|intros [|]; congruence]).
  rewrite orb_false_r, orb_true_iff, !String.eqb_eq.
  split; (intros [|]; [left|right]; congruence).
Qed.

Lemma keptProperty_format props v :
  keptProperty props ("format", v) = true <-> ~ freeFormFormat props v.
Proof.
  unfold keptProperty, freeFormFormat. cbn [fst snd].
  change ("format" =? "format") with true.
  change ("format" =? "additional_properties") with false.
  change ("format" =? "__proto__") with false.
  cbn [andb negb]. rewrite !andb_true_r.
  destruct (strictEqString (getProp props "type") "string") eqn:Ht.
  - apply strictEqString_true in Ht.
    destruct (includes ["enum"; "date-time"] v) eqn:Hi; cbn [negb andb].
    + apply includes_formats in Hi. split; [|reflexivity].
      intros _ (_ & H1 & H2). destruct Hi; contradiction.
    + split; [discriminate|]. intros H. exfalso. apply H.
      split; [exact Ht|].
      split; intros ->; discriminate Hi.
  - cbn [negb andb]. split; [|reflexivity]. intros _ (H & _).
    apply strictEqString_true in H. congruence.
Qed.

(** A [format] property is in the cleaned object exactly when it was in
    the object and is not a free-form string format there. *)
Lemma cleanParameters_format props v' :
  In ("format", v') (ownProps (cleanParameters (JObject props)))
  <-> exists v, In ("format", v) props /\ v' = cleanParameters v
                /\ ~ freeFormFormat props v.
Proof.
  rewrite cleanParameters_object. cbn [ownProps]. rewrite in_map_iff. split.
  - intros ([k v] & Heq & Hin). cbn [fst snd] in Heq.
    injection Heq as -> <-. apply filter_In in Hin as [Hin Hk].
    exists v. split; [exact Hin|]. split; [reflexivity|].
    now apply keptProperty_format.
  - intros (v & Hin & -> & Hfree). exists ("format", v).
    split; [reflexivity|]. apply filter_In. split; [exact Hin|].
    now apply keptProperty_format.
Qed.

Lemma type_kept props :
  strictEqString
    (getProp (List.map (fun kv => (fst kv, cleanParameters (snd kv)))
                (List.filter (keptProperty props) props)) "type") "string"
  = strictEqString (getProp props "type") "string".
Proof.
  rewrite getProp_filter_kept by discriminate.
  destruct (getProp props "type") as [t|]; [|reflexivity].
  cbn [fmap option_fmap option_map strictEqString].
  destruct t; try rewrite cleanParameters_object; reflexivity.
Qed.

Lemma noFreeFormFormat_cleanParameters v :
  noFreeFormFormat (cleanParameters v) = true.
Proof.
  induction v as [| | | |items IH|props IH] using JSON_deep_ind;
    try reflexivity.
  - rewrite cleanParameters_array. cbn [noFreeFormFormat].
    induction IH as [|x rest Hx _ IHrest]; [reflexivity|].
    cbn [List.map forallb]. now rewrite Hx, IHrest.
  - rewrite cleanParameters_object. cbn [noFreeFormFormat].
    rewrite type_kept.
    assert (Hkeep : forall k x, keptProperty props (k, x) = true ->
              negb ((k =? "format")
                    && strictEqString (getProp props "type") "string"
                    && negb (includes ["enum"; "date-time"] x)) = true).
    { intros k x. unfold keptProperty. cbn [fst snd].
      now intros [[H _]%andb_true_iff _]%andb_true_iff. }
    revert Hkeep. generalize (keptProperty props) as keep.
    generalize (strictEqString (getProp props "type") "string") as isString.
    intros isString keep Hkeep.
    induction IH as [|[k x] rest Hx _ IHrest]; [reflexivity|].
    cbn [List.filter].
    destruct (keep (k, x)) eqn:Hk; [|exact IHrest].
    cbn [List.map forallb fst snd]. cbn [snd] in Hx.
    rewrite includes_cleanParameters, (Hkeep _ _ Hk), Hx, IHrest.
    reflexivity.
Qed.

(** The rename of one declaration. *)
Lemma transformTool_rename tool schema :
  getProp tool "input_schema" = Some schema ->
  truthy schema = true ->
  transformTool tool =
  deleteProp (setProp tool "parameters" (cleanParameters schema)) "input_schema".
Proof. intros H1 H2. unfold transformTool. now rewrite H1, H2. Qed.

(** Cleaning reaches every place that only plain names lead to, and
    leaves there the cleaned value of what was there. *)
Lemma valueAt_cleanParameters path :
  plainPath path = true ->
  forall v, valueAt path (cleanParameters v) = cleanParameters <$> valueAt path v.
Proof.
  induction path as [|step rest IH]; [reflexivity|].
  cbn [plainPath forallb]. intros [Hstep Hrest]%andb_true_iff v.
  specialize (IH Hrest).
  destruct step as [key|i], v as [| | | |items|props];
    try rewrite cleanParameters_object; try reflexivity.
  - cbn [valueAt].
    unfold plainKey in Hstep.
    apply andb_true_iff in Hstep as [[H1 H2]%andb_true_iff H3].
    apply negb_true_iff, String.eqb_neq in H1, H2, H3.
    rewrite (getProp_filter_kept props key H1 H2 H3 props).
    destruct (getProp props key) as [x|]; [apply IH|reflexivity].
  - rewrite cleanParameters_array. cbn [valueAt].
    rewrite list_lookup_fmap.
    destruct (items !! i) as [x|]; [apply IH|reflexivity].
Qed.

(** C5.  Schema cleaning.  A declaration whose [input_schema] is present
    and truthy (every schema object is) comes out, at the same place of the
    list, with [input_schema] gone, [parameters] holding the cleaned schema
    and every other property as it was.  In a cleaned value no
    [additional_properties] key remains at any nesting level and no schema
    object carries a free-form string format; a [format] property is kept
    exactly when it is not one (so ["enum"], ["date-time"] and any format
    under a non-string [type] stay).  Nothing else is lost: an array
    stays an array of the cleaned elements; an object stays an object,
    holding in their order the properties [keptProperty] selects, each
    with its value cleaned; so at every place that is reached without
    going through a [format], [additional_properties] or [__proto__]
    property the cleaned schema has the cleaned value of what the schema
    had there, a leaf as it was; and every value that is neither an
    object nor an array is returned unchanged. *)
Theorem transformToolsForGemini_cleans
    (tools : list Tool) (i : nat) (tool : Tool) (schema : JSON) :
  tools !! i = Some tool ->
  getProp tool "input_schema" = Some schema ->
  truthy schema = true ->
  exists newTool,
    transformToolsForGemini tools !! i = Some newTool
    /\ length (transformToolsForGemini tools) = length tools
    /\ getProp newTool "input_schema" = None
    /\ getProp newTool "parameters" = Some (cleanParameters schema)
    /\ (forall k, k <> "input_schema" -> k <> "parameters" ->
                  getProp newTool k = getProp tool k)
    /\ hasKey "additional_properties" (cleanParameters schema) = false
    /\ noFreeFormFormat (cleanParameters schema) = true
    /\ (forall props v',
           In ("format", v') (ownProps (cleanParameters (JObject props)))
           <-> exists v, In ("format", v) props /\ v' = cleanParameters v
                         /\ ~ freeFormFormat props v)
    /\ (forall items,
           cleanParameters (JArray items) = JArray (List.map cleanParameters items))
    /\ (forall props,
           cleanParameters (JObject props)
           = JObject (List.map (fun kv => (fst kv, cleanParameters (snd kv)))
                        (List.filter (keptProperty props) props)))
    /\ (forall path v,
           plainPath path = true ->
           valueAt path (cleanParameters v)
           = cleanParameters <$> valueAt path v)
    /\ (forall path leaf,
           plainPath path = true ->
           valueAt path schema = Some leaf -> isLeaf leaf = true ->
           valueAt path (cleanParameters schema) = Some leaf)
    /\ (forall v, isLeaf v = true -> cleanParameters v = v).
Proof.
  intros Hi Hschema Htruthy. exists (transformTool tool).
  split.
  { unfold transformToolsForGemini. rewrite list_lookup_fmap.
    change (transformTool <$> tools !! i = Some (transformTool tool)).
    now rewrite Hi. }
  split; [apply length_map|].
  rewrite (transformTool_rename _ _ Hschema Htruthy).
  split; [apply getProp_deleteProp_eq|].
  split.
  { rewrite getProp_deleteProp_ne by discriminate. apply getProp_setProp_eq. }
  split.
  { intros k Hk1 Hk2.
    rewrite getProp_deleteProp_ne by congruence.
    apply getProp_setProp_ne. congruence. }
  split; [apply hasKey_additional_properties|].
  split; [apply noFreeFormFormat_cleanParameters|].
  split; [apply cleanParameters_format|].
  split; [apply cleanParameters_array|].
  split; [apply cleanParameters_object|].
  split; [intros path v Hpath; now apply valueAt_cleanParameters|].
  split; [|apply cleanParameters_leaf].
  intros path leaf Hpath Hat Hleaf.
  rewrite (valueAt_cleanParameters path Hpath), Hat.
  cbn [fmap option_fmap option_map]. f_equal.
  now apply cleanParameters_leaf.
Qed.

(** ** Schema cleaning: fixed points *)

(** A key that [keptProperty] never lets through is nowhere in a cleaned
    value. *)
Lemma hasKey_cleanParameters key v :
  (forall props kv, keptProperty props kv = true -> (fst kv =? key) = false) ->
  hasKey key (cleanParameters v) = false.
Proof.
  intros Hkeep.
  induction v as [| | | |items IH|props IH] using JSON_deep_ind;
    try reflexivity.
  - rewrite cleanParameters_array. cbn [hasKey].
    induction IH as [|x rest Hx _ IHrest]; [reflexivity|].
    cbn [List.map existsb]. now rewrite Hx, IHrest.
  - rewrite cleanParameters_object. cbn [hasKey].
    specialize (Hkeep props).
    revert Hkeep. generalize (keptProperty props) as keep. intros keep Hkeep.
    induction IH as [|[k x] rest Hx _ IHrest]; [reflexivity|].
    cbn [List.filter].
    destruct (keep (k, x)) eqn:Hk; [|exact IHrest].
    cbn [List.map existsb fst snd]. cbn [snd] in Hx.
    specialize (Hkeep _ Hk). cbn [fst] in Hkeep.
    now rewrite Hx, IHrest, Hkeep.
Qed.

Lemma hasKey_proto v : hasKey "__proto__" (cleanParameters v) = false.
Proof.
  apply hasKey_cleanParameters. intros props kv. unfold keptProperty.
  destruct (fst kv =? "__proto__"); [|reflexivity].
  rewrite andb_false_r. discriminate.
Qed.

(** A value with nothing to remove is returned as it is. *)
Lemma cleanParameters_clean v :
  hasKey "additional_properties" v = false ->
  noFreeFormFormat v = true ->
  hasKey "__proto__" v = false ->
  cleanParameters v = v.
Proof.
  induction v as [| | | |items IH|props IH] using JSON_deep_ind;
    try reflexivity.
  - cbn [hasKey noFreeFormFormat]. intros H1 H2 H3.
    rewrite cleanParameters_array. f_equal.
    induction IH as [|x rest Hx _ IHrest]; [reflexivity|].
    cbn [existsb forallb] in H1, H2, H3.
    apply orb_false_iff in H1 as [H1 H1'], H3 as [H3 H3'].
    apply andb_true_iff in H2 as [H2 H2'].
    cbn [List.map]. f_equal; auto.
  - cbn [hasKey noFreeFormFormat]. intros H1 H2 H3.
    rewrite cleanParameters_object. f_equal.
    unfold keptProperty.
    revert H2.
    generalize (strictEqString (getProp props "type") "string") as isString.
    intros isString H2.
    induction IH as [|[k x] rest Hx _ IHrest]; [reflexivity|].
    cbn [existsb forallb fst snd] in H1, H2, H3. cbn [snd] in Hx.
    apply orb_false_iff in H1 as [[H1 H1x]%orb_false_iff H1'].
    apply orb_false_iff in H3 as [[H3 H3x]%orb_false_iff H3'].
    apply andb_true_iff in H2 as [[H2 H2x]%andb_true_iff H2'].
    cbn [List.filter fst snd]. rewrite H2, H1, H3.
    cbn [negb andb List.map fst snd].
    rewrite Hx by assumption. f_equal. auto.
Qed.

(** X1.  The values [cleanParameters] returns unchanged are exactly those
    with nothing to remove: no [additional_properties] key and no
    [__proto__] key at any nesting level, and no schema object carrying a
    free-form string format.  On every other value the result differs
    from the argument. *)
Theorem cleanParameters_fixed_point (v : JSON) :
  cleanParameters v = v
  <-> hasKey "additional_properties" v = false
      /\ noFreeFormFormat v = true
      /\ hasKey "__proto__" v = false.
Proof.
  split.
  - intros H. rewrite <- H.
    auto using hasKey_additional_properties, noFreeFormFormat_cleanParameters,
      hasKey_proto.
  - intros (H1 & H2 & H3). now apply cleanParameters_clean.
Qed.

(** X2.  Cleaning is idempotent: cleaning a cleaned schema changes
    nothing, so a declaration can go through the normalizer any number of
    times.  This is for a schema without a [__proto__] key: assigning
    one gives the cleaned object a prototype of the caller's making, and
    a second pass would read [type] through it. *)
Theorem cleanParameters_idempotent (v : JSON) :
  hasKey "__proto__" v = false ->
  cleanParameters (cleanParameters v) = cleanParameters v.
Proof.
  intros _. apply cleanParameters_clean.
  - apply hasKey_additional_properties.
  - apply noFreeFormFormat_cleanParameters.
  - apply hasKey_proto.
Qed.

(** Cleaning makes no key. *)
Lemma hasKey_cleanParameters_inv key v :
  hasKey key (cleanParameters v) = true -> hasKey key v = true.
Proof.
  induction v as [| | | |items IH|props IH] using JSON_deep_ind;
    try (intros H; exact H).
  - rewrite cleanParameters_array. cbn [hasKey].
    induction IH as [|x rest Hx _ IHrest]; [intros H; exact H|].
    cbn [List.map existsb]. rewrite !orb_true_iff. intuition.
  - rewrite cleanParameters_object. cbn [hasKey].
    generalize (keptProperty props) as keep. intros keep.
    induction IH as [|[k x] rest Hx _ IHrest]; [intros H; exact H|].
    cbn [List.filter existsb fst snd]. cbn [snd] in Hx.
    destruct (keep (k, x)).
    + cbn [List.map existsb fst snd]. rewrite !orb_true_iff. intuition.
    + rewrite !orb_true_iff. intuition.
Qed.

(** X3.  What cleaning keeps.  A property of a schema object whose name
    is none of [format], [additional_properties] and [__proto__] is in
    the cleaned object, with its value cleaned; so the JSON Schema
    keyword [additionalProperties], spelled in camel case, stays where
    it is.  And cleaning adds nothing: a key found anywhere in a cleaned
    value was already in the value. *)
Theorem cleanParameters_other_keys (props : list (string * JSON)) (key : string) :
  key <> "format" -> key <> "additional_properties" -> key <> "__proto__" ->
  getProp (ownProps (cleanParameters (JObject props))) key
  = cleanParameters <$> getProp props key
  /\ (forall k v, hasKey k (cleanParameters v) = true -> hasKey k v = true).
Proof.
  intros H1 H2 H3. split.
  - rewrite cleanParameters_object. cbn [ownProps].
    now apply getProp_filter_kept.
  - intros k v. apply hasKey_cleanParameters_inv.
Qed.

Lemma filter_other_setProp tool v :
  List.filter otherProperty (setProp tool "parameters" v)
  = List.filter otherProperty tool.
Proof.
  induction tool as [|[k w] rest IH]; [reflexivity|].
  cbn [setProp]. destruct (k =? "parameters") eqn:E.
  - assert (Hk : forall x, otherProperty (k, x) = false).
    { intros x. unfold otherProperty. cbn [fst]. now rewrite E, andb_false_r. }
    cbn [List.filter]. now rewrite !Hk.
  - cbn [List.filter]. now rewrite IH.
Qed.

Lemma filter_other_deleteProp tool :
  List.filter otherProperty (deleteProp tool "input_schema")
  = List.filter otherProperty tool.
Proof.
  unfold deleteProp.
  induction tool as [|[k w] rest IH]; [reflexivity|].
  cbn [List.filter fst]. destruct (k =? "input_schema") eqn:E; cbn [negb].
  - assert (Hk : otherProperty (k, w) = false).
    { unfold otherProperty. cbn [fst]. now rewrite E. }
    rewrite Hk. exact IH.
  - cbn [List.filter]. now rewrite IH.
Qed.

(** A declaration without a truthy [input_schema] is copied as it is. *)
Lemma transformTool_falsy tool :
  truthyProp tool "input_schema" = false -> transformTool tool = tool.
Proof.
  unfold truthyProp, transformTool.
  destruct (getProp tool "input_schema") as [schema|]; [|reflexivity].
  now intros ->.
Qed.

(** No declaration comes out with a truthy [input_schema]. *)
Lemma truthyProp_transformTool tool :
  truthyProp (transformTool tool) "input_schema" = false.
Proof.
  destruct (truthyProp tool "input_schema") eqn:E.
  - unfold truthyProp in *. unfold transformTool.
    destruct (getProp tool "input_schema") as [schema|]; [|discriminate].
    rewrite E. now rewrite getProp_deleteProp_eq.
  - now rewrite transformTool_falsy.
Qed.

(** X4.  The rename touches [input_schema] and [parameters] only: the
    other properties of a declaration come out with their values, in
    their order, whatever the declaration holds.  The declaration comes
    out as it went in exactly when it has no truthy [input_schema] (the
    property is missing, or [null], [false], [0] or the empty string). *)
Theorem transformTool_other_properties (tool : Tool) :
  List.filter otherProperty (transformTool tool) = List.filter otherProperty tool
  /\ (transformTool tool = tool <-> truthyProp tool "input_schema" = false).
Proof.
  split.
  - unfold transformTool.
    destruct (getProp tool "input_schema") as [schema|]; [|reflexivity].
    destruct (truthy schema); [|reflexivity].
    now rewrite filter_other_deleteProp, filter_other_setProp.
  - split; [|apply transformTool_falsy].
    intros H. rewrite <- H at 1. apply truthyProp_transformTool.
Qed.

(** X5.  [transformToolsForGemini] is idempotent and keeps the number of
    declarations: normalizing an already normalized list returns it as it
    is, and no declaration of a normalized list has a truthy
    [input_schema]. *)
Theorem transformToolsForGemini_idempotent (tools : list Tool) :
  transformToolsForGemini (transformToolsForGemini tools)
  = transformToolsForGemini tools
  /\ Forall (fun newTool => truthyProp newTool "input_schema" = false)
            (transformToolsForGemini tools)
  /\ length (transformToolsForGemini tools) = length tools.
Proof.
  unfold transformToolsForGemini. split; [|split].
  - rewrite List.map_map. apply List.map_ext. intros tool.
    apply transformTool_falsy, truthyProp_transformTool.
  - apply List.Forall_forall. intros newTool [tool [<- _]]%in_map_iff.
    apply truthyProp_transformTool.
  - apply length_map.
Qed.

(** ** History translation *)

Lemma bind_Ok {A B : Type} (r : result A) (k : A -> result B) (b : B) :
  bind r k = Ok b <-> exists a, r = Ok a /\ k a = Ok b.
Proof.
  destruct r as [a|e]; simpl.
  - split; [eauto|]. now intros (a' & [= <-] & H).
  - split; [discriminate|]. now intros (a' & [=] & _).
Qed.

Lemma mapR_app {A B : Type} (f : A -> result B) (l1 l2 : list A) :
  mapR f (l1 ++ l2) =
  (ys1 <- mapR f l1 ;; ys2 <- mapR f l2 ;; Ok (ys1 ++ ys2))%result.
Proof.
  induction l1 as [|x rest IH]; simpl.
  - now destruct (mapR f l2).
  - destruct (f x); simpl; [|reflexivity].
    rewrite IH. destruct (mapR f rest); simpl; [|reflexivity].
    now destruct (mapR f l2).
Qed.

Lemma filterBoolean_app {A : Type} (l1 l2 : list (option A)) :
  filterBoolean (l1 ++ l2) = filterBoolean l1 ++ filterBoolean l2.
Proof. unfold filterBoolean. apply flat_map_app. Qed.

Lemma textsOf_filter_map blocks :
  List.map (fun x : option string => match x with Some s => s | None => "" end)
    (List.map (fun c => block_text c)
       (List.filter
          (fun c => (block_type c =? "text") && typeofString (block_text c))
          blocks))
  = textsOf blocks.
Proof.
  induction blocks as [|[t|id name input|id content] rest IH]; simpl;
    congruence.
Qed.

(** The text of a block list is the texts of its [text] blocks, in order,
    with one newline between neighbours. *)
Lemma textContent_blocks blocks :
  textContent (ContentBlocks blocks) = String.concat newline (textsOf blocks).
Proof. unfold textContent, join. now rewrite textsOf_filter_map. Qed.

Section TranslatorProperties.

Variable JSON_parse : string -> result JSON.


Lemma formatHistoryForGemini_nil : formatHistoryForGemini JSON_parse [] = Ok [].
Proof. reflexivity. Qed.

Lemma formatHistoryForGemini_cons msg rest :
  formatHistoryForGemini JSON_parse (msg :: rest) =
  (turn <- formatMessage JSON_parse msg ;;
   turns <- formatHistoryForGemini JSON_parse rest ;;
   Ok (filterBoolean [turn] ++ turns))%result.
Proof.
  unfold formatHistoryForGemini. simpl.
  destruct (formatMessage JSON_parse msg) as [turn|e]; simpl; [|reflexivity].
  destruct (mapR (formatMessage JSON_parse) rest) as [turns|e]; simpl; [|reflexivity].
  now destruct turn.
Qed.

Lemma formatHistoryForGemini_app l1 l2 :
  formatHistoryForGemini JSON_parse (l1 ++ l2) =
  (out1 <- formatHistoryForGemini JSON_parse l1 ;;
   out2 <- formatHistoryForGemini JSON_parse l2 ;;
   Ok (out1 ++ out2))%result.
Proof.
  unfold formatHistoryForGemini. rewrite mapR_app.
  destruct (mapR (formatMessage JSON_parse) l1); simpl; [|reflexivity].
  destruct (mapR (formatMessage JSON_parse) l2); simpl; [|reflexivity].
  now rewrite filterBoolean_app.
Qed.

(** A turn of any other role maps to [null], without an exception. *)
Lemma formatMessage_unknown msg :
  knownRole msg = false -> formatMessage JSON_parse msg = Ok None.
Proof.
  unfold knownRole, formatMessage.
  destruct (msg_role msg =? "assistant"); [now rewrite orb_true_r|].
  destruct (msg_role msg =? "user"); [discriminate|].
  destruct (msg_role msg =? "tool"); [discriminate|reflexivity].
Qed.

(** A turn of a known role never maps to [null]. *)
Lemma formatMessage_known msg o :
  knownRole msg = true -> formatMessage JSON_parse msg = Ok o -> exists turn, o = Some turn.
Proof.
  unfold knownRole, formatMessage.
  destruct (msg_role msg =? "assistant").
  { intros _. destruct (msg_tool_calls msg); intros [= <-]; eauto. }
  destruct (msg_role msg =? "user").
  { intros _.
    destruct (msg_content msg) as [s|[|[t|i n a|id content] rest]|v];
      try (intros [= <-]; eauto).
    destruct (parseToolResult JSON_parse content); simpl;
      [intros [= <-]; eauto|discriminate]. }
  destruct (msg_role msg =? "tool"); [|discriminate].
  intros _.
  destruct (msg_content msg) as [s|blocks|v]; simpl;
    try (intros [= <-]; eauto).
  destruct (JSON_parse s); simpl; [intros [= <-]; eauto|discriminate].
Qed.

(** What the translator returns, turn by turn. *)
Lemma formatHistoryForGemini_Ok history out :
  formatHistoryForGemini JSON_parse history = Ok out
  <-> Forall (fun msg => exists o, formatMessage JSON_parse msg = Ok o) history
      /\ Forall2 (fun msg turn => formatMessage JSON_parse msg = Ok (Some turn))
                 (List.filter knownRole history) out.
Proof.
  revert out. induction history as [|msg rest IH]; intros out.
  - rewrite formatHistoryForGemini_nil. simpl. split.
    + intros [= <-]. split; constructor.
    + intros [_ H]. inversion H. reflexivity.
  - rewrite formatHistoryForGemini_cons. cbn [List.filter]. split.
    + intros (o & Ho & (turns & Hrest & [= <-])%bind_Ok)%bind_Ok.
      apply IH in Hrest as [Hall Hrest].
      split; [constructor; eauto|].
      destruct (knownRole msg) eqn:Hk.
      * destruct (formatMessage_known _ _ Hk Ho) as [turn ->].
        simpl. now constructor.
      * rewrite (formatMessage_unknown _ Hk) in Ho.
        injection Ho as <-. exact Hrest.
    + intros [Hall H]. apply Forall_cons in Hall as [[o Ho] Hall].
      destruct (knownRole msg) eqn:Hk.
      * inversion H as [|? turn ? turns Hturn Hrest]; subst.
        rewrite Hturn. simpl.
        assert (formatHistoryForGemini JSON_parse rest = Ok turns) as ->
            by (apply IH; auto).
        reflexivity.
      * rewrite (formatMessage_unknown _ Hk). simpl.
        assert (formatHistoryForGemini JSON_parse rest = Ok out) as ->
            by (apply IH; auto).
        reflexivity.
Qed.

(** Turns of other roles do not show in the outcome, be it a sequence
    or an exception. *)
Lemma formatHistoryForGemini_filter history :
  formatHistoryForGemini JSON_parse history
  = formatHistoryForGemini JSON_parse (List.filter knownRole history).
Proof.
  induction history as [|msg rest IH]; [reflexivity|].
  cbn [List.filter]. destruct (knownRole msg) eqn:Hk.
  - rewrite !formatHistoryForGemini_cons. now rewrite IH.
  - rewrite formatHistoryForGemini_cons, (formatMessage_unknown _ Hk).
    rewrite <- IH. cbn [bind].
    now destruct (formatHistoryForGemini JSON_parse rest).
Qed.

(** C4.  Assistant text concatenation.  An assistant turn without tool
    calls whose content is a list of blocks translates, without an
    exception, to one turn of role [model] with exactly one text
    fragment: the texts of the [text] blocks, in their order, with one
    newline between neighbours; every other block is skipped. *)
Theorem assistant_text_concatenation (msg : Message) (blocks : list ContentBlock) :
  msg_role msg = "assistant" ->
  msg_tool_calls msg = [] ->
  msg_content msg = ContentBlocks blocks ->
  formatMessage JSON_parse msg =
    Ok (Some (textTurn "model" (String.concat newline (textsOf blocks))))
  /\ formatHistoryForGemini JSON_parse [msg] =
       Ok [textTurn "model" (String.concat newline (textsOf blocks))].
Proof.
  intros Hrole Hcalls Hcontent.
  assert (formatMessage JSON_parse msg =
          Ok (Some (textTurn "model" (String.concat newline (textsOf blocks)))))
    as Hmsg.
  { unfold formatMessage.
    rewrite Hrole, Hcalls, Hcontent, textContent_blocks. reflexivity. }
  split; [exact Hmsg|].
  rewrite formatHistoryForGemini_cons, Hmsg. reflexivity.
Qed.

(** A turn's translation returns exactly when its payloads parse. *)
Lemma formatMessage_returns msg :
  (exists o, formatMessage JSON_parse msg = Ok o) <-> payloadsParse JSON_parse msg.
Proof.
  unfold formatMessage, payloadsParse.
  destruct (msg_role msg =? "assistant") eqn:Ha.
  { apply String.eqb_eq in Ha. rewrite Ha.
    change ("assistant" =? "user") with false.
    change ("assistant" =? "tool") with false.
    split; [trivial|]. intros _. destruct (msg_tool_calls msg); eauto. }
  destruct (msg_role msg =? "user").
  { destruct (msg_content msg) as [s|[|[t|i n a|id content] rest]|v];
      try solve [split; [trivial|eauto]].
    destruct (parseToolResult JSON_parse content) as [v|e]; simpl.
    - split; eauto.
    - split; [intros [o [=]]|intros [v [=]]]. }
  destruct (msg_role msg =? "tool"); [|solve [split; eauto]].
  destruct (msg_content msg) as [s|blocks|v]; simpl;
    try solve [split; [trivial|eauto]].
  destruct (JSON_parse s) as [v|e]; simpl.
  - split; eauto.
  - split; [intros [o [=]]|intros [v [=]]].
Qed.

(** The translation of a history returns when the payloads of its turns
    parse. *)
Lemma formatHistoryForGemini_returns history :
  Forall (payloadsParse JSON_parse) history ->
  exists out,
    formatHistoryForGemini JSON_parse history = Ok out
    /\ Forall2 (fun msg turn => formatMessage JSON_parse msg = Ok (Some turn))
               (List.filter knownRole history) out.
Proof.
  intros Hparse.
  assert (Forall (fun msg => exists o, formatMessage JSON_parse msg = Ok o)
                 history) as Hall.
  { eapply Forall_impl; [exact Hparse|].
    intros msg. apply formatMessage_returns. }
  assert (exists out,
             Forall2 (fun msg turn => formatMessage JSON_parse msg = Ok (Some turn))
                     (List.filter knownRole history) out) as [out Hout].
  { clear -Hall. induction Hall as [|msg rest [o Ho] _ [out IH]].
    - exists []. constructor.
    - cbn [List.filter]. destruct (knownRole msg) eqn:Hk.
      + destruct (formatMessage_known _ _ Hk Ho) as [turn ->].
        exists (turn :: out). now constructor.
      + exists out. exact IH. }
  exists out. split; [|exact Hout].
  apply formatHistoryForGemini_Ok; auto.
Qed.

(** C8, as amended.  Unknown-role filtering.  For every history whose
    payloads parse, so that no turn's translation throws, the translator
    returns a sequence with exactly one turn per input turn of role
    [user], [assistant] or [tool], in the input order, each being that
    turn's translation; the turns of any other role map to [null] without
    an exception and leave no entry, so the result is that of the history
    without them. *)
Theorem unknown_role_filtering (history : list Message) :
  Forall (payloadsParse JSON_parse) history ->
  exists out,
    formatHistoryForGemini JSON_parse history = Ok out
    /\ Forall2 (fun msg turn => formatMessage JSON_parse msg = Ok (Some turn))
               (List.filter knownRole history) out
    /\ length out = length (List.filter knownRole history)
    /\ (forall msg, In msg history -> knownRole msg = false ->
                    formatMessage JSON_parse msg = Ok None)
    /\ formatHistoryForGemini JSON_parse (List.filter knownRole history) = Ok out.
Proof.
  intros Hparse.
  destruct (formatHistoryForGemini_returns history Hparse)
    as (out & Hresult & Hout).
  exists out. split; [exact Hresult|]. split; [exact Hout|].
  split; [symmetry; eapply Forall2_length; exact Hout|].
  split; [intros msg _; apply formatMessage_unknown|].
  now rewrite <- formatHistoryForGemini_filter.
Qed.

(** C10, as amended.  Only the first tool_result block of a user turn is
    translated.  When the first block of a user turn is a tool_result,
    the turn's translation is decided by that block alone: if the JSON
    parse of the text of the first element of the block's own content
    list gives a value, the result is one [function] turn with exactly
    one function-response fragment, named by the block's [tool_use_id]
    and carrying that value; if that parse throws, or the content list
    is empty, the translation throws the same exception.  The other
    blocks of the turn, and the other elements of the content list, have
    no part in it.  Conversely a user turn whose first block is not a
    tool_result is translated as plain text, wherever else a tool_result
    may stand in its list. *)
Theorem first_tool_result_only (msg : Message) (blocks : list ContentBlock) :
  msg_role msg = "user" ->
  msg_content msg = ContentBlocks blocks ->
  (forall id content rest v,
      blocks = ToolResultBlock id content :: rest ->
      parseToolResult JSON_parse content = Ok v ->
      formatMessage JSON_parse msg = Ok (Some (functionResponseTurn (Some id) v)))
  /\ (forall id content rest e,
         blocks = ToolResultBlock id content :: rest ->
         parseToolResult JSON_parse content = Throw e ->
         formatMessage JSON_parse msg = Throw e)
  /\ (forall first others,
         parseToolResult JSON_parse (first :: others)
         = JSON_parse (toStringOpt (block_text first)))
  /\ ((forall id content rest, blocks <> ToolResultBlock id content :: rest) ->
      formatMessage JSON_parse msg =
        Ok (Some (textTurn "user" (String.concat newline (textsOf blocks))))).
Proof.
  intros Hrole Hcontent. unfold formatMessage.
  rewrite Hrole, Hcontent. change ("user" =? "assistant") with false.
  change ("user" =? "user") with true. cbn match.
  split; [|split; [|split]].
  - intros id content rest v -> Hv. now rewrite Hv.
  - intros id content rest e -> He. now rewrite He.
  - reflexivity.
  - intros Hfirst. rewrite textContent_blocks.
    destruct blocks as [|[t|i n a|id content] rest]; try reflexivity.
    now destruct (Hfirst id content rest).
Qed.

Lemma functionCalls_map (calls : list ToolCall) :
  functionCalls
    (List.map (fun tool_call =>
                 FunctionCallPart
                   {| fc_name := fn_name (tc_function tool_call);
                      fc_args := fn_arguments (tc_function tool_call) |})
              calls)
  = List.map (fun tool_call =>
                {| fc_name := fn_name (tc_function tool_call);
                   fc_args := fn_arguments (tc_function tool_call) |})
             calls.
Proof. induction calls as [|c rest IH]; simpl; congruence. Qed.

Lemma functionCalls_In (functionCall : FunctionCall) (l : list Part) :
  In (FunctionCallPart functionCall) l -> In functionCall (functionCalls l).
Proof.
  induction l as [|[t|fc|fr] rest IH]; simpl; [tauto| | |].
  - intros [[=]|H]; auto.
  - intros [[= ->]|H]; [now left|right; auto].
  - intros [[=]|H]; auto.
Qed.

(** Re-encoding a response whose parts include a function call gives the
    tool-use block of that call. *)
Lemma finalMessageOf_call (functionCall : FunctionCall) (turn : Content)
    (reason : option string) (text : string) :
  In (FunctionCallPart functionCall) (parts turn) ->
  In (toolUseOf functionCall)
     (fm_content
        (finalMessageOf {| content := Some turn; finishReason := reason |} text)).
Proof.
  intros Hin%functionCalls_In. unfold finalMessageOf, geminiToolCallsOf.
  cbn [content fm_content].
  destruct (functionCalls (parts turn)) as [|c0 calls] eqn:Hcalls;
    [destruct Hin|].
  rewrite <- Hcalls in *. now apply in_map.
Qed.

(** An assistant turn with tool calls: one function-call fragment per
    call, in order, with the call's tool name and arguments. *)
Lemma formatMessage_tool_calls (msg : Message) (call : ToolCall) :
  msg_role msg = "assistant" ->
  In call (msg_tool_calls msg) ->
  formatMessage JSON_parse msg =
    Ok (Some {| role := "model";
                parts := List.map
                  (fun tool_call =>
                     FunctionCallPart
                       {| fc_name := fn_name (tc_function tool_call);
                          fc_args := fn_arguments (tc_function tool_call) |})
                  (msg_tool_calls msg) |}).
Proof.
  intros Hrole Hcall. unfold formatMessage. rewrite Hrole.
  change ("assistant" =? "assistant") with true. cbn match.
  destruct (msg_tool_calls msg); [destruct Hcall|reflexivity].
Qed.

(** C1, as amended.  Round-trip tool linkage.  Take a history in which an
    assistant turn carries a tool call with identifier [X] and a later
    user turn's first block is a tool_result referencing [X].  When the
    payloads of the history parse, its translation returns, and the
    translated sequence holds the [model] turn of that assistant turn
    and, after it, a function-response fragment named [X] that carries
    the parsed payload.  Re-encoding a
    response made of that [model] turn gives, for the call, a tool-use
    block whose [id] and [name] are both the call's tool name: it carries
    [X] exactly when the call's identifier is its tool name. *)
Theorem round_trip_tool_linkage
    (before middle after : list Message) (a u : Message) (call : ToolCall)
    (X : string) (resultBlocks rest : list ContentBlock) :
  msg_role a = "assistant" ->
  In call (msg_tool_calls a) ->
  tc_id call = X ->
  msg_role u = "user" ->
  msg_content u = ContentBlocks (ToolResultBlock X resultBlocks :: rest) ->
  Forall (payloadsParse JSON_parse) (before ++ a :: middle ++ u :: after) ->
  let functionCall :=
    {| fc_name := fn_name (tc_function call);
       fc_args := fn_arguments (tc_function call) |} in
  exists o1 modelTurn o2 v o3,
    formatHistoryForGemini JSON_parse (before ++ a :: middle ++ u :: after)
    = Ok (o1 ++ modelTurn :: o2 ++ functionResponseTurn (Some X) v :: o3)
    /\ parseToolResult JSON_parse resultBlocks = Ok v
    /\ role modelTurn = "model"
    /\ In (FunctionCallPart functionCall) (parts modelTurn)
    /\ (forall reason text,
           In (toolUseOf functionCall)
              (fm_content
                 (finalMessageOf
                    {| content := Some modelTurn; finishReason := reason |}
                    text)))
    /\ toolUseOf functionCall =
         ToolUseBlock (fn_name (tc_function call)) (fn_name (tc_function call))
                      (fn_arguments (tc_function call))
    /\ (block_id (toolUseOf functionCall) = Some X
        <-> fn_name (tc_function call) = X).
Proof.
  intros Ha Hcall Hid Hu Hcontent Hparse functionCall.
  destruct (formatHistoryForGemini_returns _ Hparse) as (out & Hout & _).
  rewrite Hout.
  rewrite formatHistoryForGemini_app in Hout.
  apply bind_Ok in Hout as (o1 & _ & (out' & Hout & [= <-])%bind_Ok).
  rewrite formatHistoryForGemini_cons in Hout.
  apply bind_Ok in Hout as (ta & Hta & (out'' & Hout & [= <-])%bind_Ok).
  rewrite formatHistoryForGemini_app in Hout.
  apply bind_Ok in Hout as (o2 & _ & (out3 & Hout & [= <-])%bind_Ok).
  rewrite formatHistoryForGemini_cons in Hout.
  apply bind_Ok in Hout as (tu & Htu & (o3 & _ & [= <-])%bind_Ok).
  rewrite (formatMessage_tool_calls a call Ha Hcall) in Hta.
  injection Hta as <-.
  unfold formatMessage in Htu. rewrite Hu, Hcontent in Htu.
  change ("user" =? "assistant") with false in Htu.
  change ("user" =? "user") with true in Htu. cbn match in Htu.
  apply bind_Ok in Htu as (v & Hv & [= <-]).
  eexists o1, _, o2, v, o3.
  split; [reflexivity|]. split; [exact Hv|]. split; [reflexivity|].
  cbn [parts]. split.
  { apply in_map_iff. exists call. split; [reflexivity|exact Hcall]. }
  split.
  { intros reason text. apply finalMessageOf_call. cbn [parts].
    apply in_map_iff. exists call. split; [reflexivity|exact Hcall]. }
  split; [reflexivity|].
  unfold toolUseOf, functionCall. cbn [block_id fc_name].
  split; congruence.
Qed.

End TranslatorProperties.

(** ** History translation: the other branches *)

Section TranslatorBranches.

Variable JSON_parse : string -> result JSON.

(** X6.  An assistant turn with tool calls is translated from the calls
    alone (lines 43-52): one [model] turn with one function-call fragment
    per call, in order, each carrying the call's function name and
    arguments, and no text fragment.  The turn's content and the calls'
    identifiers play no part: any assistant turn whose calls name the
    same functions with the same arguments translates to the same
    turn. *)
Theorem tool_calls_override_content (msg : Message) :
  msg_role msg = "assistant" ->
  msg_tool_calls msg <> [] ->
  exists turn,
    formatMessage JSON_parse msg = Ok (Some turn)
    /\ role turn = "model"
    /\ parts turn = List.map functionCallPartOf (msg_tool_calls msg)
    /\ functionCalls (parts turn)
       = List.map (fun tool_call =>
                     {| fc_name := fn_name (tc_function tool_call);
                        fc_args := fn_arguments (tc_function tool_call) |})
                  (msg_tool_calls msg)
    /\ (forall other,
           msg_role other = "assistant" ->
           List.map tc_function (msg_tool_calls other)
           = List.map tc_function (msg_tool_calls msg) ->
           formatMessage JSON_parse other = Ok (Some turn)).
Proof.
  intros Hrole Hcalls.
  assert (Hfmt : forall m, msg_role m = "assistant" -> msg_tool_calls m <> [] ->
            formatMessage JSON_parse m
            = Ok (Some {| role := "model";
                          parts := List.map functionCallPartOf (msg_tool_calls m) |})).
  { intros m Hm Hc. unfold formatMessage. rewrite Hm.
    change ("assistant" =? "assistant") with true. cbv iota.
    destruct (msg_tool_calls m); [contradiction|reflexivity]. }
  eexists. split; [apply Hfmt; assumption|].
  split; [reflexivity|]. split; [reflexivity|]. cbn [parts]. split.
  - apply functionCalls_map.
  - intros other Hother Hsame. rewrite Hfmt; [|exact Hother|].
    + do 3 f_equal.
      assert (Hvia : forall calls,
                 List.map functionCallPartOf calls
                 = List.map (fun f => FunctionCallPart
                                        {| fc_name := fn_name f;
                                           fc_args := fn_arguments f |})
                     (List.map tc_function calls))
        by (intros calls; now rewrite List.map_map).
      now rewrite !Hvia, Hsame.
    + intros Hnil. rewrite Hnil in Hsame.
      destruct (msg_tool_calls msg); [contradiction|discriminate].
Qed.

(** X7.  A [tool] turn (lines 94-104) becomes one [function] turn with one
    function-response fragment named by the turn's [name].  String
    content is parsed as JSON: the fragment carries the parsed value, and
    when the parse throws the translation throws the same exception.
    Content that is not a string (a list of blocks, an object, [null])
    is passed through as it is, without being parsed. *)
Theorem tool_turn_translation (msg : Message) :
  msg_role msg = "tool" ->
  (forall s v,
      msg_content msg = ContentString s -> JSON_parse s = Ok v ->
      formatMessage JSON_parse msg
      = Ok (Some (functionResponseTurn (msg_name msg) v)))
  /\ (forall s e,
         msg_content msg = ContentString s -> JSON_parse s = Throw e ->
         formatMessage JSON_parse msg = Throw e)
  /\ (forall blocks,
         msg_content msg = ContentBlocks blocks ->
         formatMessage JSON_parse msg
         = Ok (Some {| role := "function";
                       parts := [FunctionResponsePart
                                   {| fr_name := msg_name msg;
                                      fr_response := PayloadBlocks blocks |}] |}))
  /\ (forall v,
         (forall s, v <> JString s) ->
         msg_content msg = ContentData v ->
         formatMessage JSON_parse msg
         = Ok (Some (functionResponseTurn (msg_name msg) v))).
Proof.
  intros Hrole. unfold formatMessage. rewrite Hrole.
  change ("tool" =? "assistant") with false.
  change ("tool" =? "user") with false.
  change ("tool" =? "tool") with true. cbv iota.
  repeat split.
  - intros s v -> Hs. now rewrite Hs.
  - intros s e -> Hs. now rewrite Hs.
  - now intros blocks ->.
  - now intros v _ ->.
Qed.

(** X8.  Plain text turns (lines 54-64 and 81-91).  For a user turn, or
    an assistant turn without tool calls, string content and the
    one-text-block list with the same text translate alike, to one text
    fragment with that text under role [user], respectively [model];
    content that is neither a string nor a list ([null], an object), and
    the empty list, give one empty text fragment. *)
Theorem plain_text_turns (msg : Message) :
  msg_role msg = "user"
  \/ msg_role msg = "assistant" /\ msg_tool_calls msg = [] ->
  let r := if msg_role msg =? "user" then "user" else "model" in
  (forall s,
      msg_content msg = ContentString s
      \/ msg_content msg = ContentBlocks [TextBlock s] ->
      formatMessage JSON_parse msg = Ok (Some (textTurn r s)))
  /\ (forall v,
         (forall s, v <> JString s) -> (forall items, v <> JArray items) ->
         msg_content msg = ContentData v ->
         formatMessage JSON_parse msg = Ok (Some (textTurn r "")))
  /\ (msg_content msg = ContentBlocks [] ->
      formatMessage JSON_parse msg = Ok (Some (textTurn r ""))).
Proof.
  intros Hrole. cbv zeta. unfold formatMessage.
  destruct Hrole as [->|[-> ->]].
  - change ("user" =? "assistant") with false.
    change ("user" =? "user") with true. cbv iota.
    repeat split.
    + now intros s [->| ->].
    + now intros v _ _ ->.
    + now intros ->.
  - change ("assistant" =? "assistant") with true.
    change ("assistant" =? "user") with false. cbv iota.
    repeat split.
    + now intros s [->| ->].
    + now intros v _ _ ->.
    + now intros ->.
Qed.

(** Every turn the arrow function returns has one of the three shapes. *)
Lemma formatMessage_shape msg turn :
  formatMessage JSON_parse msg = Ok (Some turn) -> wellFormedTurn turn = true.
Proof.
  unfold formatMessage.
  destruct (msg_role msg =? "assistant").
  { destruct (msg_tool_calls msg) as [|c calls]; intros [= <-]; [reflexivity|].
    unfold wellFormedTurn. cbn [role parts List.map].
    change ("model" =? "model") with true. cbv iota.
    assert (forallb isFunctionCall
              (List.map (fun tool_call =>
                 FunctionCallPart
                   {| fc_name := fn_name (tc_function tool_call);
                      fc_args := fn_arguments (tc_function tool_call) |}) calls)
            = true) as Hall
      by (clear; induction calls; simpl; auto).
    cbn [forallb isFunctionCall andb]. rewrite Hall. now destruct calls. }
  destruct (msg_role msg =? "user").
  { destruct (msg_content msg) as [s|[|[t|i n a|id content] rest]|v];
      try (intros [= <-]; reflexivity).
    destruct (parseToolResult JSON_parse content); simpl;
      [intros [= <-]; reflexivity|discriminate]. }
  destruct (msg_role msg =? "tool"); [|discriminate].
  destruct (msg_content msg) as [s|blocks|v]; simpl;
    try (intros [= <-]; reflexivity).
  destruct (JSON_parse s); simpl; [intros [= <-]; reflexivity|discriminate].
Qed.

(** X9.  Whatever the history, what the translator returns is a list of
    well-formed turns, no longer than the history: each has role [model],
    [user] or [function] and at least one fragment; a [user] turn is one
    text fragment, a [function] turn is one function response, a [model]
    turn is one text fragment or function calls only.  No turn comes out
    with an empty fragment list or with text and function calls mixed. *)
Theorem translated_turn_shapes (history : list Message) (out : list Content) :
  formatHistoryForGemini JSON_parse history = Ok out ->
  Forall (fun turn => wellFormedTurn turn = true) out
  /\ length out <= length history.
Proof.
  intros [_ H]%formatHistoryForGemini_Ok. split.
  - induction H as [|msg turn msgs turns Hturn _ IH]; constructor; [|exact IH].
    eapply formatMessage_shape, Hturn.
  - rewrite <- (Forall2_length _ _ _ H). apply filter_length_le.
Qed.

(** X10.  The translator throws exactly what its first failing turn
    throws: [formatHistoryForGemini] ends with the exception [e] if and
    only if the history splits into turns whose payloads all parse, a
    turn whose translation throws [e], and a rest that is never looked
    at.  No partial list is returned. *)
Theorem formatHistoryForGemini_throws (history : list Message) (e : Exception) :
  formatHistoryForGemini JSON_parse history = Throw e
  <-> exists before msg after,
        history = before ++ msg :: after
        /\ Forall (payloadsParse JSON_parse) before
        /\ formatMessage JSON_parse msg = Throw e.
Proof.
  split.
  - induction history as [|msg rest IH]; [discriminate|].
    rewrite formatHistoryForGemini_cons.
    destruct (formatMessage JSON_parse msg) as [o|e'] eqn:Hmsg; cbn [bind].
    + destruct (formatHistoryForGemini JSON_parse rest) as [turns|e'] eqn:Hrest;
        cbn [bind]; [discriminate|].
      intros [= ->]. destruct (IH eq_refl) as (before & m & after & -> & Hb & Hm).
      exists (msg :: before), m, after. split; [reflexivity|].
      split; [|exact Hm]. constructor; [|exact Hb].
      apply formatMessage_returns. eauto.
    + intros [= ->]. exists [], msg, rest. repeat split; [constructor|exact Hmsg].
  - intros (before & msg & after & -> & Hb & Hm).
    rewrite formatHistoryForGemini_app.
    destruct (formatHistoryForGemini_returns JSON_parse before Hb) as (out & -> & _).
    cbn [bind]. rewrite formatHistoryForGemini_cons, Hm. reflexivity.
Qed.

(** X11.  The translation goes turn by turn.  The translation of two
    histories put end to end is the two translations put end to end:
    when both return, so does the whole, with the concatenated turns;
    when the whole returns, both parts do; and when the first part
    throws, the whole throws the same exception, whatever follows.  A
    turn's translation does not depend on the turns around it. *)
Theorem formatHistoryForGemini_concat (l1 l2 : list Message) :
  (forall out1 out2,
      formatHistoryForGemini JSON_parse l1 = Ok out1 ->
      formatHistoryForGemini JSON_parse l2 = Ok out2 ->
      formatHistoryForGemini JSON_parse (l1 ++ l2) = Ok (out1 ++ out2))
  /\ (forall out,
         formatHistoryForGemini JSON_parse (l1 ++ l2) = Ok out ->
         exists out1 out2,
           formatHistoryForGemini JSON_parse l1 = Ok out1
           /\ formatHistoryForGemini JSON_parse l2 = Ok out2
           /\ out = out1 ++ out2)
  /\ (forall e,
         formatHistoryForGemini JSON_parse l1 = Throw e ->
         formatHistoryForGemini JSON_parse (l1 ++ l2) = Throw e).
Proof.
  rewrite formatHistoryForGemini_app.
  destruct (formatHistoryForGemini JSON_parse l1) as [o1|e1]; cbn [bind];
    [destruct (formatHistoryForGemini JSON_parse l2) as [o2|e2]; cbn [bind]|];
    (split; [|split]); try discriminate.
  - now intros out1 out2 [= <-] [= <-].
  - intros out [= <-]. eauto.
  - now intros e [= <-].
Qed.

End TranslatorBranches.

(** ** Streaming *)

Lemma append_cons (c : ascii) (a b : string) :
  (String c a ++ b)%string = String c (a ++ b)%string.
Proof. reflexivity. Qed.

Lemma append_nil_l (s : string) : ("" ++ s)%string = s.
Proof. reflexivity. Qed.

Lemma append_nil_r (s : string) : (s ++ "")%string = s.
Proof.
  induction s as [|c s IH]; [reflexivity|]. now rewrite append_cons, IH.
Qed.

Lemma append_assoc (a b c : string) :
  ((a ++ b) ++ c)%string = (a ++ (b ++ c))%string.
Proof.
  induction a as [|x a IH]; [reflexivity|]. now rewrite !append_cons, IH.
Qed.

Lemma prefix_spec (sub s : string) :
  String.prefix sub s = true <-> exists post, s = (sub ++ post)%string.
Proof.
  revert s. induction sub as [|c sub IH]; intros s.
  - destruct s; simpl; (split; [intros _; eexists; reflexivity|reflexivity]).
  - destruct s as [|d s]; simpl.
    + split; [discriminate|]. intros [post H].
      rewrite append_cons in H. discriminate.
    + destruct (ascii_dec c d) as [->|Hne].
      * rewrite IH. split; intros [post H]; exists post.
        -- rewrite append_cons. congruence.
        -- rewrite append_cons in H. congruence.
      * split; [discriminate|]. intros [post H].
        rewrite append_cons in H. congruence.
Qed.

(** [str_includes s sub] holds exactly when [sub] occurs in [s]. *)
Lemma str_includes_spec (s sub : string) :
  str_includes s sub = true
  <-> exists pre post, s = (pre ++ sub ++ post)%string.
Proof.
  induction s as [|c s IH]; cbn [str_includes].
  - rewrite orb_false_r, prefix_spec. split.
    + intros [post H]. exists "", post. exact H.
    + intros ([|x pre] & post & H).
      * eauto.
      * rewrite append_cons in H. discriminate.
  - rewrite orb_true_iff, prefix_spec, IH. split.
    + intros [[post H]|(pre & post & H)].
      * exists "", post. exact H.
      * exists (String c pre), post. rewrite append_cons. congruence.
    + intros ([|x pre] & post & H).
      * left. eauto.
      * right. rewrite append_cons in H. injection H as _ H. eauto.
Qed.

Lemma concatStrings_nonEmpty (chunks : list string) :
  concatStrings (List.filter nonEmpty chunks) = concatStrings chunks.
Proof.
  induction chunks as [|c rest IH]; [reflexivity|].
  cbn [List.filter]. unfold nonEmpty at 1.
  destruct (String.eqb_spec c "") as [->|_]; cbn [negb concatStrings fold_right].
  - exact IH.
  - fold (concatStrings (List.filter nonEmpty rest)).
    fold (concatStrings rest). now rewrite IH.
Qed.

Lemma functionCalls_filter (l : list Part) :
  List.map FunctionCallPart (functionCalls l) = List.filter isFunctionCall l.
Proof. induction l as [|[t|fc|fr] rest IH]; simpl; congruence. Qed.

(** The streaming loop: one [onText] call per non-empty fragment, in
    order, and the fragments appended to the accumulator. *)
Lemma consumeStream_spec (h : StreamHandlers) (chunks : list string) (acc : string) :
  consumeStream h chunks acc =
  (if onText h then List.map OnText (List.filter nonEmpty chunks) else [],
   Ok (acc ++ concatStrings (List.filter nonEmpty chunks))%string).
Proof.
  revert acc. induction chunks as [|c rest IH]; intros acc.
  - simpl. rewrite append_nil_r. now destruct (onText h).
  - cbn [consumeStream List.filter].
    change (negb (c =? "")) with (nonEmpty c).
    destruct (nonEmpty c); [|apply IH].
    rewrite IH. unfold call, emit, ret, bindE.
    cbn [List.map concatStrings fold_right].
    fold (concatStrings (List.filter nonEmpty rest)).
    rewrite append_assoc. now destruct (onText h).
Qed.

Lemma bindE_lift_Ok {A B : Type} (a : A) (k : A -> Eff B) :
  bindE (lift (Ok a)) k = k a.
Proof. unfold lift, bindE. now destruct (k a). Qed.

Lemma bindE_emit_ret {A B : Type} (ev : Event) (a : A) (k : A -> Eff B) :
  bindE (bindE (emit ev) (fun _ => ret a)) k = (ev :: fst (k a), snd (k a)).
Proof. reflexivity. Qed.

Lemma forEach_emit {A : Type} (f : A -> Event) (l : list A) :
  forEach (fun x => emit (f x)) l = (List.map f l, Ok tt).
Proof.
  induction l as [|x rest IH]; [reflexivity|].
  cbn [forEach]. rewrite IH. reflexivity.
Qed.

Section ServiceProperties.

Variable JSON_parse : string -> result JSON.
Variable systemPrompts : string -> option string.
Variable generateContentStream :
  ModelParams -> list Content -> result StreamResult.

Local Abbreviation conversation :=
  (streamConversation JSON_parse systemPrompts generateContentStream).
Local Abbreviation reached := (reaches JSON_parse systemPrompts).



(** The whole run when the provider resolves. *)
Lemma streamConversation_resolved req h sys contents sr :
  reached req sys contents ->
  generateContentStream (modelParams sys (req_tools req)) contents = Ok sr ->
  conversation req h =
  let request := GenerateContentStream (modelParams sys (req_tools req)) contents in
  let fragments := List.filter nonEmpty (stream sr) in
  let texts := if onText h then List.map OnText fragments else [] in
  match candidates sr with
  | [] => (request :: texts, Throw noCandidate)
  | candidate :: _ =>
      let finalMessage := finalMessageOf candidate (concatStrings fragments) in
      (request :: texts
         ++ (if onToolUse h
             then List.map (fun geminiCall => OnToolUse (toolUseOf geminiCall))
                           (geminiToolCallsOf candidate)
             else [])
         ++ (if onMessage h then [OnMessage finalMessage] else []),
       Ok finalMessage)
  end.
Proof.
  intros [Hsys Hcontents] Hsr. unfold streamConversation.
  rewrite Hsys, bindE_lift_Ok, Hcontents, bindE_lift_Ok.
  unfold callProvider. rewrite Hsr, bindE_emit_ret.
  rewrite consumeStream_spec, append_nil_l. cbn [bindE fst snd].
  destruct (candidates sr) as [|candidate others].
  - unfold throw. cbn [fst snd]. now rewrite app_nil_r.
  - rewrite forEach_emit. unfold call, emit, ret.
    destruct (onToolUse h), (onMessage h),
      (geminiToolCallsOf candidate) as [|c calls];
      cbn [andb length Nat.eqb negb List.map bindE fst snd app];
      rewrite ?app_nil_r; reflexivity.
Qed.

(** The whole run when the provider rejects. *)
Lemma streamConversation_rejected req h sys contents e :
  reached req sys contents ->
  generateContentStream (modelParams sys (req_tools req)) contents = Throw e ->
  conversation req h =
  let request := GenerateContentStream (modelParams sys (req_tools req)) contents in
  if str_includes (message e) readableStreamSignature
  then ([request; ConsoleError polyfillNotice],
        Throw streamingUnavailable)
  else ([request], Throw e).
Proof.
  intros [Hsys Hcontents] He. unfold streamConversation.
  rewrite Hsys, bindE_lift_Ok, Hcontents, bindE_lift_Ok.
  unfold callProvider. rewrite He.
  assert (negb (message e =? "")
          && str_includes (message e) readableStreamSignature
          = str_includes (message e) readableStreamSignature) as ->.
  { destruct (String.eqb_spec (message e) "") as [->|_]; reflexivity. }
  destruct (str_includes (message e) readableStreamSignature); reflexivity.
Qed.

(** C2.  Tool-call exclusivity and identifier construction.  Let the
    provider resolve with a terminal response that has a candidate.  The
    call returns a final message.  If the candidate's parts include one
    or more function calls, the message's content is exactly one
    tool-use block per function call, in the provider's order, each with
    [id] and [name] equal to the call's tool name and [input] equal to
    its arguments, and it holds no text block, whatever was streamed;
    if there are none, the content is the one text block carrying all the
    accumulated text. *)
Theorem tool_call_exclusivity
    (req : Request) (h : StreamHandlers) (sys : string)
    (contents : list Content) (sr : StreamResult)
    (candidate : Candidate) (others : list Candidate) :
  reached req sys contents ->
  generateContentStream (modelParams sys (req_tools req)) contents = Ok sr ->
  candidates sr = candidate :: others ->
  let calls := geminiToolCallsOf candidate in
  exists finalMessage,
    snd (conversation req h) = Ok finalMessage
    /\ List.map FunctionCallPart calls =
         match content candidate with
         | Some c => List.filter isFunctionCall (parts c)
         | None => []
         end
    /\ (calls <> [] ->
        fm_content finalMessage =
          List.map (fun geminiCall =>
                      ToolUseBlock (fc_name geminiCall) (fc_name geminiCall)
                                   (fc_args geminiCall)) calls
        /\ Forall (fun block => block_type block = "tool_use")
                  (fm_content finalMessage)
        /\ textsOf (fm_content finalMessage) = [])
    /\ (calls = [] ->
        fm_content finalMessage = [TextBlock (concatStrings (stream sr))]).
Proof.
  intros Hreach Hsr Hcand calls.
  rewrite (streamConversation_resolved req h sys contents sr Hreach Hsr), Hcand.
  cbn [snd]. eexists. split; [reflexivity|]. split.
  { unfold calls, geminiToolCallsOf.
    destruct (content candidate); [apply functionCalls_filter|reflexivity]. }
  unfold finalMessageOf. fold calls. cbn [fm_content]. split.
  - intros Hcalls. destruct calls as [|c rest] eqn:E; [congruence|].
    rewrite <- E. clear. split; [reflexivity|].
    induction calls as [|c rest [IH1 IH2]]; split;
      try constructor; auto.
  - intros ->. now rewrite concatStrings_nonEmpty.
Qed.

Lemma onTextCalls_app (l1 l2 : list Event) :
  onTextCalls (l1 ++ l2) = onTextCalls l1 ++ onTextCalls l2.
Proof.
  induction l1 as [|[] l1 IH]; simpl; rewrite ?IH; reflexivity.
Qed.

Lemma onTextCalls_OnText (l : list string) :
  onTextCalls (List.map OnText l) = l.
Proof. induction l as [|x l IH]; simpl; congruence. Qed.

Lemma onTextCalls_OnToolUse (l : list FunctionCall) :
  onTextCalls
    (List.map (fun geminiCall => OnToolUse (toolUseOf geminiCall)) l) = [].
Proof. induction l as [|x l IH]; simpl; congruence. Qed.

(** The [onText] calls of a run whose provider resolves. *)
Lemma streamConversation_onText req h sys contents sr :
  reached req sys contents ->
  generateContentStream (modelParams sys (req_tools req)) contents = Ok sr ->
  onTextCalls (fst (conversation req h)) =
    (if onText h then List.filter nonEmpty (stream sr) else []).
Proof.
  intros Hreach Hsr.
  rewrite (streamConversation_resolved req h sys contents sr Hreach Hsr).
  cbv zeta.
  destruct (candidates sr) as [|candidate others]; cbn [fst onTextCalls].
  - destruct (onText h); [apply onTextCalls_OnText|reflexivity].
  - rewrite !onTextCalls_app.
    replace (onTextCalls
               (if onToolUse h
                then List.map (fun geminiCall => OnToolUse (toolUseOf geminiCall))
                              (geminiToolCallsOf candidate)
                else [])) with (@nil string)
      by (destruct (onToolUse h); [now rewrite onTextCalls_OnToolUse|reflexivity]).
    replace (onTextCalls
               (if onMessage h
                then [OnMessage
                        (finalMessageOf candidate
                           (concatStrings (List.filter nonEmpty (stream sr))))]
                else [])) with (@nil string)
      by (destruct (onMessage h); reflexivity).
    rewrite !app_nil_r.
    destruct (onText h); [apply onTextCalls_OnText|reflexivity].
Qed.

(** C3.  Streaming fragment fidelity.  Let the provider resolve with a
    stream.  When [onText] is supplied it is called once per non-empty
    fragment, in arrival order, with that fragment and nothing else: the
    arguments of its calls are the list of non-empty fragments, so there
    are as many calls as there are such fragments and an empty fragment
    causes none; when it is not supplied there is no call.  The loop's
    accumulator ends as the concatenation of those fragments, and that is
    the text of the final message when the response carries no function
    call. *)
Theorem streaming_fragment_fidelity
    (req : Request) (h : StreamHandlers) (sys : string)
    (contents : list Content) (sr : StreamResult) :
  reached req sys contents ->
  generateContentStream (modelParams sys (req_tools req)) contents = Ok sr ->
  let fragments := List.filter nonEmpty (stream sr) in
  onTextCalls (fst (conversation req h)) =
    (if onText h then fragments else [])
  /\ (onText h = true ->
      length (onTextCalls (fst (conversation req h)))
      = length fragments)
  /\ Forall (fun fragment => fragment <> "") fragments
  /\ snd (consumeStream h (stream sr) "") = Ok (concatStrings fragments)
  /\ (forall candidate others,
         candidates sr = candidate :: others ->
         geminiToolCallsOf candidate = [] ->
         exists finalMessage,
           snd (conversation req h) = Ok finalMessage
           /\ fm_content finalMessage = [TextBlock (concatStrings fragments)]).
Proof.
  intros Hreach Hsr fragments.
  pose proof (streamConversation_onText req h sys contents sr Hreach Hsr)
    as Hcalls.
  fold fragments in Hcalls.
  split; [exact Hcalls|].
  split; [intros Hon; rewrite Hcalls, Hon; reflexivity|].
  split.
  { apply List.Forall_forall. intros fragment [_ Hne]%filter_In.
    unfold nonEmpty in Hne. intros ->. discriminate Hne. }
  split; [rewrite consumeStream_spec; reflexivity|].
  intros candidate others Hcand Hnone.
  rewrite (streamConversation_resolved req h sys contents sr Hreach Hsr), Hcand.
  cbn [snd]. eexists. split; [reflexivity|].
  unfold finalMessageOf. now rewrite Hnone.
Qed.

(** C6.  Transport-compatibility error translation.  Let the provider's
    streaming call reject with [e].  If the message of [e] contains the
    stream-shape signature, the call fails with the single
    streaming-unavailable error in place of [e]; otherwise it fails with
    [e] itself.  Either way the provider was called once, with no second
    attempt, and no callback ran. *)
Theorem transport_compatibility_error
    (req : Request) (h : StreamHandlers) (sys : string)
    (contents : list Content) (e : Exception) :
  reached req sys contents ->
  generateContentStream (modelParams sys (req_tools req)) contents = Throw e ->
  ((exists pre post,
       message e = (pre ++ readableStreamSignature ++ post)%string) ->
   snd (conversation req h) = Throw streamingUnavailable)
  /\ ((~ exists pre post,
         message e = (pre ++ readableStreamSignature ++ post)%string) ->
      snd (conversation req h) = Throw e)
  /\ providerCalls (fst (conversation req h))
     = [(modelParams sys (req_tools req), contents)]
  /\ List.filter isCallback (fst (conversation req h)) = [].
Proof.
  intros Hreach He.
  rewrite (streamConversation_rejected req h sys contents e Hreach He).
  cbv zeta.
  destruct (str_includes (message e) readableStreamSignature) eqn:Hsig;
    cbn [fst snd providerCalls List.filter isCallback].
  - apply str_includes_spec in Hsig. repeat split; auto.
    intros Hno. contradiction.
  - repeat split; auto. intros Hyes%str_includes_spec. congruence.
Qed.

End ServiceProperties.

(** ** Streaming: the whole run *)

Lemma onToolUseCalls_app (l1 l2 : list Event) :
  onToolUseCalls (l1 ++ l2) = onToolUseCalls l1 ++ onToolUseCalls l2.
Proof. induction l1 as [|[] l1 IH]; simpl; rewrite ?IH; reflexivity. Qed.

Lemma onMessageCalls_app (l1 l2 : list Event) :
  onMessageCalls (l1 ++ l2) = onMessageCalls l1 ++ onMessageCalls l2.
Proof. induction l1 as [|[] l1 IH]; simpl; rewrite ?IH; reflexivity. Qed.

Lemma providerCalls_app (l1 l2 : list Event) :
  providerCalls (l1 ++ l2) = providerCalls l1 ++ providerCalls l2.
Proof. induction l1 as [|[] l1 IH]; simpl; rewrite ?IH; reflexivity. Qed.

Lemma calls_OnText (l : list string) :
  onToolUseCalls (List.map OnText l) = []
  /\ onMessageCalls (List.map OnText l) = []
  /\ providerCalls (List.map OnText l) = []
  /\ List.filter isCallback (List.map OnText l) = List.map OnText l.
Proof. induction l as [|x l (IH1 & IH2 & IH3 & IH4)]; simpl; repeat split; congruence. Qed.

Lemma calls_OnToolUse (l : list FunctionCall) :
  let uses := List.map (fun geminiCall => OnToolUse (toolUseOf geminiCall)) l in
  onToolUseCalls uses = List.map toolUseOf l
  /\ onMessageCalls uses = []
  /\ providerCalls uses = []
  /\ List.filter isCallback uses = uses.
Proof. induction l as [|x l (IH1 & IH2 & IH3 & IH4)]; simpl; repeat split; congruence. Qed.

(** What the trace of a run that got a candidate holds. *)
Lemma trace_shape (params : ModelParams) (contents : list Content)
    (fragments : list string) (calls : list FunctionCall)
    (finalMessages : list FinalMessage) :
  let callbacks :=
    List.map OnText fragments
    ++ List.map (fun geminiCall => OnToolUse (toolUseOf geminiCall)) calls
    ++ List.map OnMessage finalMessages in
  let trace := GenerateContentStream params contents :: callbacks in
  onTextCalls trace = fragments
  /\ onToolUseCalls trace = List.map toolUseOf calls
  /\ onMessageCalls trace = finalMessages
  /\ providerCalls trace = [(params, contents)]
  /\ List.filter isCallback trace = callbacks.
Proof.
  cbv zeta.
  cbn [onTextCalls onToolUseCalls onMessageCalls providerCalls List.filter
       isCallback].
  rewrite !onTextCalls_app, !onToolUseCalls_app, !onMessageCalls_app,
    !providerCalls_app, !List.filter_app.
  destruct (calls_OnText fragments) as (T1 & T2 & T3 & T4).
  destruct (calls_OnToolUse calls) as (U1 & U2 & U3 & U4). cbv zeta in *.
  rewrite onTextCalls_OnText, onTextCalls_OnToolUse, T1, T2, T3, T4,
    U1, U2, U3, U4.
  assert (M : onTextCalls (List.map OnMessage finalMessages) = []
              /\ onToolUseCalls (List.map OnMessage finalMessages) = []
              /\ onMessageCalls (List.map OnMessage finalMessages) = finalMessages
              /\ providerCalls (List.map OnMessage finalMessages) = []
              /\ List.filter isCallback (List.map OnMessage finalMessages)
                 = List.map OnMessage finalMessages).
  { induction finalMessages as [|x l (I1 & I2 & I3 & I4 & I5)]; simpl;
      repeat split; congruence. }
  destruct M as (M1 & M2 & M3 & M4 & M5). rewrite M1, M2, M3, M4, M5.
  rewrite ?app_nil_r. cbn [app]. auto.
Qed.

Section ServiceRuns.

Variable JSON_parse : string -> result JSON.
Variable systemPrompts : string -> option string.
Variable generateContentStream :
  ModelParams -> list Content -> result StreamResult.

Local Abbreviation conversation :=
  (streamConversation JSON_parse systemPrompts generateContentStream).
Local Abbreviation reached := (reaches JSON_parse systemPrompts).

(** A run that fails before the provider is called. *)
Lemma streamConversation_prompt_failure req h e :
  getSystemPrompt systemPrompts (default defaultPromptType (promptType req)) = Throw e ->
  conversation req h = ([], Throw e).
Proof. intros H. unfold streamConversation. now rewrite H. Qed.

Lemma streamConversation_history_failure req h sys e :
  getSystemPrompt systemPrompts (default defaultPromptType (promptType req)) = Ok sys ->
  formatHistoryForGemini JSON_parse (messages req) = Throw e ->
  conversation req h = ([], Throw e).
Proof.
  intros Hsys H. unfold streamConversation.
  now rewrite Hsys, bindE_lift_Ok, H.
Qed.

(** Every run, as a table: the prompt lookup, the translation, the
    provider call and the candidate decide it. *)
Lemma streamConversation_run req h :
  conversation req h =
  match getSystemPrompt systemPrompts
          (default defaultPromptType (promptType req)) with
  | Throw e => ([], Throw e)
  | Ok sys =>
      match formatHistoryForGemini JSON_parse (messages req) with
      | Throw e => ([], Throw e)
      | Ok contents =>
          let params := modelParams sys (req_tools req) in
          let request := GenerateContentStream params contents in
          match generateContentStream params contents with
          | Throw e =>
              if str_includes (message e) readableStreamSignature
              then ([request; ConsoleError polyfillNotice],
                    Throw streamingUnavailable)
              else ([request], Throw e)
          | Ok sr =>
              let fragments := List.filter nonEmpty (stream sr) in
              let texts :=
                List.map OnText (if onText h then fragments else []) in
              match candidates sr with
              | [] => (request :: texts, Throw noCandidate)
              | candidate :: _ =>
                  let finalMessage :=
                    finalMessageOf candidate (concatStrings fragments) in
                  (request :: texts
                     ++ List.map
                          (fun geminiCall => OnToolUse (toolUseOf geminiCall))
                          (if onToolUse h then geminiToolCallsOf candidate
                           else [])
                     ++ List.map OnMessage
                          (if onMessage h then [finalMessage] else []),
                   Ok finalMessage)
              end
          end
      end
  end.
Proof.
  destruct (getSystemPrompt systemPrompts
              (default defaultPromptType (promptType req))) as [sys|e] eqn:Hsys;
    [|now apply streamConversation_prompt_failure].
  destruct (formatHistoryForGemini JSON_parse (messages req))
    as [contents|e] eqn:Hh;
    [|now apply (streamConversation_history_failure req h sys)].
  assert (Hreach : reached req sys contents) by (split; assumption).
  cbv zeta.
  destruct (generateContentStream (modelParams sys (req_tools req)) contents)
    as [sr|e] eqn:Hsr.
  - rewrite (streamConversation_resolved _ _ _ req h sys contents sr Hreach Hsr).
    cbv zeta. destruct (candidates sr).
    + now destruct (onText h).
    + now destruct (onText h), (onToolUse h), (onMessage h).
  - apply (streamConversation_rejected _ _ _ req h sys contents e Hreach Hsr).
Qed.

(** The trace of a run that got a candidate, in the form of
    [trace_shape]. *)
Lemma streamConversation_trace req h sys contents sr candidate others :
  reached req sys contents ->
  generateContentStream (modelParams sys (req_tools req)) contents = Ok sr ->
  candidates sr = candidate :: others ->
  let fragments := List.filter nonEmpty (stream sr) in
  let finalMessage := finalMessageOf candidate (concatStrings fragments) in
  conversation req h =
  (GenerateContentStream (modelParams sys (req_tools req)) contents
     :: List.map OnText (if onText h then fragments else [])
     ++ List.map (fun geminiCall => OnToolUse (toolUseOf geminiCall))
          (if onToolUse h then geminiToolCallsOf candidate else [])
     ++ List.map OnMessage (if onMessage h then [finalMessage] else []),
   Ok finalMessage).
Proof.
  intros Hreach Hsr Hcand.
  rewrite (streamConversation_resolved _ _ _ req h sys contents sr Hreach Hsr).
  rewrite Hcand. cbv zeta.
  now destruct (onText h), (onToolUse h), (onMessage h).
Qed.

(** X12.  The system prompt falls back to the default entry (lines
    191-194).  When the prompt table has the default entry,
    [getSystemPrompt] returns for every prompt type: the content of the
    requested entry when there is one and it is not empty, and the
    default content otherwise, so an unknown prompt type gets the same
    instruction as the default one; with a non-empty default content the
    instruction is never empty. *)
Theorem getSystemPrompt_fallback (promptType d : string) :
  systemPrompts defaultPromptType = Some d ->
  exists c,
    getSystemPrompt systemPrompts promptType = Ok c
    /\ (systemPrompts promptType = Some c /\ c <> ""
        \/ c = d /\ (systemPrompts promptType = None
                     \/ systemPrompts promptType = Some ""))
    /\ (d <> "" -> c <> "")
    /\ (systemPrompts promptType = None ->
        getSystemPrompt systemPrompts promptType
        = getSystemPrompt systemPrompts defaultPromptType).
Proof.
  intros Hd. unfold getSystemPrompt. rewrite Hd.
  destruct (systemPrompts promptType) as [c|] eqn:Hc.
  - destruct (String.eqb_spec c "") as [->|Hne]; cbn [negb].
    + exists d. repeat split; auto. discriminate.
    + exists c. repeat split; auto. discriminate.
  - exists d. repeat split; auto. intros _. now destruct (negb (d =? "")).
Qed.

Lemma getSystemPrompt_throws promptType e :
  getSystemPrompt systemPrompts promptType = Throw e ->
  systemPrompts defaultPromptType = None.
Proof.
  unfold getSystemPrompt.
  destruct (systemPrompts promptType) as [c|];
    [destruct (negb (c =? "")); [discriminate|]|];
    now destruct (systemPrompts defaultPromptType).
Qed.

(** X13.  Failures before the provider call (lines 125-132).  The prompt
    lookup comes first and can fail only when the prompt table lacks the
    default entry: the run then rejects with that exception.  The history
    translation comes after the model is built, so after the tool
    declarations, if there are any, have been normalized.  When the
    translation throws, the run rejects having done nothing: no request
    was sent and no callback was called; for a request without tool
    declarations, where nothing is normalized, the exception is the
    translation's.  So a run that leaves any trace got both its system
    instruction and its translated history. *)
Theorem streamConversation_fails_early (req : Request) (h : StreamHandlers) :
  let prompt :=
    getSystemPrompt systemPrompts (default defaultPromptType (promptType req)) in
  (forall e, prompt = Throw e ->
     systemPrompts defaultPromptType = None
     /\ conversation req h = ([], Throw e))
  /\ (forall e,
         formatHistoryForGemini JSON_parse (messages req) = Throw e ->
         fst (conversation req h) = []
         /\ exists e', snd (conversation req h) = Throw e')
  /\ (forall sys e,
         prompt = Ok sys ->
         req_tools req = [] ->
         formatHistoryForGemini JSON_parse (messages req) = Throw e ->
         conversation req h = ([], Throw e))
  /\ (fst (conversation req h) <> [] ->
      exists sys contents, reached req sys contents).
Proof.
  cbv zeta. split.
  { intros e He. split; [eapply getSystemPrompt_throws, He|].
    now apply streamConversation_prompt_failure. }
  split.
  { intros e He. rewrite streamConversation_run, He.
    destruct (getSystemPrompt systemPrompts _); cbn [fst snd]; eauto. }
  split.
  { intros sys e Hsys _ He.
    now apply (streamConversation_history_failure req h sys). }
  rewrite streamConversation_run. unfold reaches.
  destruct (getSystemPrompt systemPrompts _) as [sys|e];
    [|intros Hne; now contradiction Hne].
  destruct (formatHistoryForGemini JSON_parse _) as [contents|e];
    [|intros Hne; now contradiction Hne].
  eauto.
Qed.

(** X14.  At most one provider call (lines 125-146).  Whatever the
    request, the handlers and the provider do, a run calls the provider
    at most once, and that call is the first thing it does: nothing is
    retried and no callback runs before it.  The call is made for the
    configured model, with the system instruction the prompt lookup
    returned, the translated history, and the normalized tool
    declarations, which are left out altogether when the request has
    none. *)
Theorem streamConversation_one_provider_call
    (req : Request) (h : StreamHandlers) :
  let trace := fst (conversation req h) in
  (trace = []
   \/ exists params contents rest,
        trace = GenerateContentStream params contents :: rest
        /\ providerCalls rest = []
        /\ model params = defaultModel
        /\ getSystemPrompt systemPrompts
             (default defaultPromptType (promptType req))
           = Ok (systemInstruction params)
        /\ tools params
           = (if (length (req_tools req) =? 0)%nat then None
              else Some (transformToolsForGemini (req_tools req)))
        /\ formatHistoryForGemini JSON_parse (messages req) = Ok contents)
  /\ length (providerCalls trace) <= 1.
Proof.
  cbv zeta. rewrite streamConversation_run.
  destruct (getSystemPrompt systemPrompts _) as [sys|e];
    [|split; [now left|cbn; lia]].
  destruct (formatHistoryForGemini JSON_parse _) as [contents|e];
    [|split; [now left|cbn; lia]].
  cbv zeta.
  assert (Htools : tools (modelParams sys (req_tools req))
                   = (if (length (req_tools req) =? 0)%nat then None
                      else Some (transformToolsForGemini (req_tools req))))
    by (unfold modelParams; cbn [tools]; now destruct (req_tools req)).
  assert (Hrest : forall texts uses finalMessages,
             providerCalls
               (List.map OnText texts
                  ++ List.map (fun geminiCall => OnToolUse (toolUseOf geminiCall))
                       uses
                  ++ List.map OnMessage finalMessages) = []).
  { intros texts uses finalMessages.
    destruct (trace_shape (modelParams sys []) [] texts uses finalMessages)
      as (_ & _ & _ & H & _).
    cbv zeta in H. cbn [providerCalls] in H. now injection H. }
  destruct (generateContentStream _ contents) as [sr|e].
  - destruct (candidates sr) as [|candidate others]; cbn [fst].
    + specialize (Hrest (if onText h then List.filter nonEmpty (stream sr) else [])
                        [] []).
      cbn [List.map] in Hrest. rewrite app_nil_r in Hrest.
      split; [|cbn [providerCalls length]; rewrite Hrest; cbn; lia].
      right. do 3 eexists. split; [reflexivity|]. auto.
    + split; [|cbn [providerCalls length]; rewrite Hrest; cbn; lia].
      right. do 3 eexists. split; [reflexivity|]. auto.
  - destruct (str_includes _ _); cbn [fst].
    + split; [|cbn; lia]. right. do 3 eexists. split; [reflexivity|]. auto.
    + split; [|cbn; lia]. right. do 3 eexists. split; [reflexivity|]. auto.
Qed.

(** X15.  A response without a candidate (lines 157-159).  When the
    provider resolves but its aggregated response has no candidate, the
    call fails with the no-candidate error; by then [onText] has been
    called for every non-empty fragment of the stream, and neither
    [onToolUse] nor [onMessage] is ever called. *)
Theorem streamConversation_no_candidate
    (req : Request) (h : StreamHandlers) (sys : string)
    (contents : list Content) (sr : StreamResult) :
  reached req sys contents ->
  generateContentStream (modelParams sys (req_tools req)) contents = Ok sr ->
  candidates sr = [] ->
  snd (conversation req h) = Throw noCandidate
  /\ List.filter isCallback (fst (conversation req h))
     = (if onText h then List.map OnText (List.filter nonEmpty (stream sr))
        else [])
  /\ onToolUseCalls (fst (conversation req h)) = []
  /\ onMessageCalls (fst (conversation req h)) = [].
Proof.
  intros Hreach Hsr Hnone.
  rewrite (streamConversation_resolved _ _ _ req h sys contents sr Hreach Hsr).
  rewrite Hnone. cbv zeta. cbn [fst snd List.filter isCallback
                                 onToolUseCalls onMessageCalls].
  destruct (calls_OnText (List.filter nonEmpty (stream sr)))
    as (H1 & H2 & _ & H4).
  destruct (onText h); auto.
Qed.

(** X16.  The callback protocol (lines 161-188).  When the provider
    resolves with a candidate, [onToolUse], if supplied, is called once
    per function call of the candidate, in the provider's order, each
    time with that call's tool-use block; these are the blocks of the
    final message's content whenever there is a function call.
    [onMessage], if supplied, is called exactly once, with the very
    message the call returns.  The callbacks come in this order: all
    [onText] calls, then all [onToolUse] calls, then [onMessage]. *)
Theorem streamConversation_callbacks
    (req : Request) (h : StreamHandlers) (sys : string)
    (contents : list Content) (sr : StreamResult)
    (candidate : Candidate) (others : list Candidate) :
  reached req sys contents ->
  generateContentStream (modelParams sys (req_tools req)) contents = Ok sr ->
  candidates sr = candidate :: others ->
  let trace := fst (conversation req h) in
  exists finalMessage,
    snd (conversation req h) = Ok finalMessage
    /\ onToolUseCalls trace
       = (if onToolUse h then List.map toolUseOf (geminiToolCallsOf candidate)
          else [])
    /\ (onToolUse h = true -> geminiToolCallsOf candidate <> [] ->
        onToolUseCalls trace = fm_content finalMessage)
    /\ onMessageCalls trace = (if onMessage h then [finalMessage] else [])
    /\ List.filter isCallback trace
       = List.map OnText (onTextCalls trace)
         ++ List.map OnToolUse (onToolUseCalls trace)
         ++ List.map OnMessage (onMessageCalls trace).
Proof.
  intros Hreach Hsr Hcand trace. unfold trace.
  rewrite (streamConversation_trace req h sys contents sr candidate others
             Hreach Hsr Hcand).
  cbv zeta. cbn [fst snd].
  match goal with
  | |- context [GenerateContentStream ?p ?c :: List.map OnText ?f
                  ++ List.map _ ?u ++ List.map OnMessage ?m] =>
      destruct (trace_shape p c f u m) as (T & U & M & _ & C)
  end.
  cbv zeta in T, U, M, C. rewrite T, U, M, C.
  eexists. split; [reflexivity|].
  split; [now destruct (onToolUse h)|].
  split.
  { intros -> Hcalls. unfold finalMessageOf. cbn [fm_content].
    destruct (geminiToolCallsOf candidate); [contradiction|reflexivity]. }
  split; [now destruct (onMessage h)|].
  now rewrite List.map_map.
Qed.

(** X17.  The handlers only listen.  Which of the three callbacks the
    caller supplies has no effect on what [streamConversation] returns or
    throws, or on what it does besides calling them: the request sent to
    the provider and the console output are the same for any two sets of
    handlers. *)
Theorem streamConversation_handlers_irrelevant
    (req : Request) (h h' : StreamHandlers) :
  snd (conversation req h) = snd (conversation req h')
  /\ List.filter (fun ev => negb (isCallback ev)) (fst (conversation req h))
     = List.filter (fun ev => negb (isCallback ev)) (fst (conversation req h')).
Proof.
  rewrite !streamConversation_run.
  destruct (getSystemPrompt systemPrompts _) as [sys|e]; [|split; reflexivity].
  destruct (formatHistoryForGemini JSON_parse _) as [contents|e];
    [|split; reflexivity].
  cbv zeta.
  destruct (generateContentStream _ contents) as [sr|e]; [|split; reflexivity].
  assert (Hnone : forall params texts uses finalMessages,
             List.filter (fun ev => negb (isCallback ev))
               (GenerateContentStream params contents
                  :: List.map OnText texts
                  ++ List.map (fun geminiCall => OnToolUse (toolUseOf geminiCall))
                       uses
                  ++ List.map OnMessage finalMessages)
             = [GenerateContentStream params contents]).
  { intros params texts uses finalMessages.
    cbn [List.filter isCallback negb]. f_equal.
    rewrite !List.filter_app.
    assert (forall A (f : A -> Event) l,
               (forall x, isCallback (f x) = true) ->
               List.filter (fun ev => negb (isCallback ev)) (List.map f l) = [])
      as Hmap.
    { intros A f l Hf. induction l as [|x l IH]; [reflexivity|].
      cbn [List.map List.filter]. now rewrite Hf. }
    rewrite !Hmap by reflexivity. reflexivity. }
  destruct (candidates sr) as [|candidate others]; cbn [fst snd].
  - split; [reflexivity|].
    rewrite <- (app_nil_r (List.map OnText (if onText h then _ else _))).
    rewrite <- (app_nil_r (List.map OnText (if onText h' then _ else _))).
    rewrite (Hnone _ _ [] []), (Hnone _ _ [] []). reflexivity.
  - split; [reflexivity|]. now rewrite !Hnone.
Qed.

(** X18.  Only the stream and the first candidate count (lines 148-163).
    Two provider responses with the same stream fragments and the same
    first candidate (or both without one) give the same run: the same
    callbacks in the same order and the same message or exception.
    Candidates after the first are never read. *)
Theorem first_candidate_only
    (other : ModelParams -> list Content -> result StreamResult)
    (req : Request) (h : StreamHandlers) (sys : string)
    (contents : list Content) (sr sr' : StreamResult) :
  reached req sys contents ->
  generateContentStream (modelParams sys (req_tools req)) contents = Ok sr ->
  other (modelParams sys (req_tools req)) contents = Ok sr' ->
  stream sr' = stream sr ->
  head (candidates sr') = head (candidates sr) ->
  streamConversation JSON_parse systemPrompts other req h = conversation req h.
Proof.
  intros Hreach Hsr Hsr' Hstream Hhead.
  rewrite (streamConversation_resolved _ _ _ req h sys contents sr Hreach Hsr).
  rewrite (streamConversation_resolved _ _ _ req h sys contents sr' Hreach Hsr').
  cbv zeta. rewrite Hstream.
  destruct (candidates sr) as [|c cs], (candidates sr') as [|c' cs'];
    try discriminate Hhead; [reflexivity|].
  now injection Hhead as ->.
Qed.

(** X19.  The envelope of the final message (lines 175-182).  The
    message a run returns has role [assistant], the configured model name
    and a non-empty content.  Its stop reason is read from the
    candidate's finish reason alone: it is ['tool_use'] exactly when the
    finish reason is ['TOOL_USE'], and ['max_tokens'] exactly when it is
    ['MAX_TOKENS'], whether or not the content holds tool-use blocks. *)
Theorem final_message_envelope
    (req : Request) (h : StreamHandlers) (sys : string)
    (contents : list Content) (sr : StreamResult)
    (candidate : Candidate) (others : list Candidate) :
  reached req sys contents ->
  generateContentStream (modelParams sys (req_tools req)) contents = Ok sr ->
  candidates sr = candidate :: others ->
  exists finalMessage,
    snd (conversation req h) = Ok finalMessage
    /\ fm_role finalMessage = "assistant"
    /\ fm_model finalMessage = "gemini-2.5-pro"
    /\ fm_content finalMessage <> []
    /\ (fm_stop_reason finalMessage = "tool_use"
        <-> finishReason candidate = Some "TOOL_USE")
    /\ (fm_stop_reason finalMessage = "max_tokens"
        <-> finishReason candidate = Some "MAX_TOKENS").
Proof.
  intros Hreach Hsr Hcand.
  rewrite (streamConversation_trace req h sys contents sr candidate others
             Hreach Hsr Hcand).
  cbv zeta. cbn [snd]. eexists. split; [reflexivity|].
  unfold finalMessageOf. cbn [fm_role fm_model fm_content fm_stop_reason].
  split; [reflexivity|]. split; [reflexivity|].
  split; [now destruct (geminiToolCallsOf candidate)|].
  unfold mapFinishReason.
  destruct (finishReason candidate) as [r|];
    [|split; split; discriminate].
  destruct (String.eqb_spec r "STOP") as [->|_];
    [split; split; discriminate|].
  destruct (String.eqb_spec r "TOOL_USE") as [->|Hr].
  { split; split; (reflexivity || discriminate). }
  destruct (String.eqb_spec r "MAX_TOKENS") as [->|Hr'].
  { split; split; (reflexivity || discriminate). }
  split; split; (discriminate || congruence).
Qed.

Lemma textsOf_toolUseOf (calls : list FunctionCall) :
  textsOf (List.map toolUseOf calls) = [].
Proof. induction calls as [|c rest IH]; [reflexivity|exact IH]. Qed.

(** X20.  The final message as the next history turn.  Put back into
    the history as an assistant turn with the message's content blocks
    and no [tool_calls], the final message of a run translates to one
    [model] turn with one text fragment: the accumulated text when the
    response had no function call, and the empty string when it had,
    since the translator reads an assistant turn's tool calls from
    [tool_calls] and skips tool-use blocks. *)
Theorem final_message_as_history
    (req : Request) (h : StreamHandlers) (sys : string)
    (contents : list Content) (sr : StreamResult)
    (candidate : Candidate) (others : list Candidate) :
  reached req sys contents ->
  generateContentStream (modelParams sys (req_tools req)) contents = Ok sr ->
  candidates sr = candidate :: others ->
  exists finalMessage,
    snd (conversation req h) = Ok finalMessage
    /\ forall turn : Message,
         msg_role turn = fm_role finalMessage ->
         msg_content turn = ContentBlocks (fm_content finalMessage) ->
         msg_tool_calls turn = [] ->
         formatHistoryForGemini JSON_parse [turn]
         = Ok [textTurn "model"
                 (match geminiToolCallsOf candidate with
                  | [] => concatStrings (stream sr)
                  | _ :: _ => ""
                  end)].
Proof.
  intros Hreach Hsr Hcand.
  rewrite (streamConversation_trace req h sys contents sr candidate others
             Hreach Hsr Hcand).
  cbv zeta. cbn [snd]. eexists. split; [reflexivity|].
  unfold finalMessageOf. cbn [fm_role fm_content].
  intros turn Hrole Hcontent Hcalls.
  rewrite formatHistoryForGemini_cons. unfold formatMessage.
  rewrite Hrole, Hcalls, Hcontent, textContent_blocks.
  change ("assistant" =? "assistant") with true. cbv iota.
  destruct (geminiToolCallsOf candidate) as [|c calls].
  - cbn [textsOf String.concat]. now rewrite concatStrings_nonEmpty.
  - now rewrite textsOf_toolUseOf.
Qed.

End ServiceRuns.

(** ** The normalizer leaves its arguments alone *)

Lemma unchanged_refl (h : Heap) : unchanged h h.
Proof. intros l o H. exact H. Qed.

Lemma unchanged_trans (h1 h2 h3 : Heap) :
  unchanged h1 h2 -> unchanged h2 h3 -> unchanged h1 h3.
Proof. intros H12 H23 l o H. auto. Qed.

Lemma unchanged_length (h h' : Heap) : unchanged h h' -> length h <= length h'.
Proof.
  intros H. destruct (decide (length h = 0)) as [->|Hne]; [lia|].
  destruct (lookup_lt_is_Some_2 h (length h - 1)) as [o Ho]; [lia|].
  apply H, lookup_lt_Some in Ho. lia.
Qed.

Lemma unchanged_alloc (h : Heap) (o : HObject) : unchanged h (h ++ [o]).
Proof. intros l o' H. now apply lookup_app_l_Some. Qed.

(** An update of an object allocated after [h0] does not reach [h0]. *)
Lemma unchanged_alter (h0 h : Heap) (f : HObject -> HObject) (l : nat) :
  length h0 <= l -> unchanged h0 h -> unchanged h0 (alter f l h).
Proof.
  intros Hl H l' o Ho. rewrite list_lookup_alter_ne; [auto|].
  apply lookup_lt_Some in Ho. lia.
Qed.

Section Loops.
Variable clean : HValue -> Heap -> option (HValue * Heap).
Hypothesis clean_unchanged :
  forall v h v' h', clean v h = Some (v', h') -> unchanged h h'.

Lemma cleanArrayLoop_unchanged params cleanedParams h0 :
  length h0 <= cleanedParams ->
  forall keys h v' h',
    unchanged h0 h ->
    cleanArrayLoop clean params cleanedParams keys h = Some (v', h') ->
    unchanged h0 h'.
Proof.
  intros Hfresh. induction keys as [|key rest IH]; intros h v' h' Hh; simpl.
  - now intros [= _ <-].
  - destruct (clean (hindex h params key) h) as [[v h1]|] eqn:Hclean;
      simpl; [|discriminate].
    apply IH. apply unchanged_alter; [exact Hfresh|].
    eapply unchanged_trans; eauto.
Qed.

Lemma cleanObjectLoop_unchanged params cleanedParams h0 :
  length h0 <= cleanedParams ->
  forall keys h v' h',
    unchanged h0 h ->
    cleanObjectLoop clean params cleanedParams keys h = Some (v', h') ->
    unchanged h0 h'.
Proof.
  intros Hfresh. induction keys as [|key rest IH]; intros h v' h' Hh; simpl.
  - now intros [= _ <-].
  - destruct ((key =? "format")
              && strictEqStringH (hget h params "type") "string"
              && negb (includesH ["enum"; "date-time"] (hget h params key)));
      [now apply IH|].
    destruct (negb (key =? "additional_properties")); [|now apply IH].
    destruct (clean (hget h params key) h) as [[v h1]|] eqn:Hclean;
      simpl; [|discriminate].
    assert (unchanged h0 h1) by (eapply unchanged_trans; eauto).
    apply IH. destruct (key =? "__proto__"); [assumption|].
    now apply unchanged_alter.
Qed.
End Loops.

(** Cleaning only allocates, and writes only to what it allocated. *)
Lemma cleanParametersH_unchanged fuel :
  forall params h v' h',
    cleanParametersH fuel params h = Some (v', h') -> unchanged h h'.
Proof.
  induction fuel as [|fuel IH]; intros params h v' h'; simpl; [discriminate|].
  destruct params as [| | | | |l]; try (intros [= _ <-]; apply unchanged_refl).
  destruct (h !! l) as [[props|items]|]; [| |discriminate].
  - apply (cleanObjectLoop_unchanged _ IH); [lia|apply unchanged_alloc].
  - apply (cleanArrayLoop_unchanged _ IH); [lia|apply unchanged_alloc].
Qed.

Lemma transformToolH_unchanged fuel tool h newTool h' :
  transformToolH fuel tool h = Some (newTool, h') ->
  unchanged h h' /\ exists l, newTool = HRef l /\ length h <= l.
Proof.
  unfold transformToolH.
  destruct (truthyH _).
  - destruct (cleanParametersH fuel _ _) as [[parameters h1]|] eqn:Hclean;
      simpl; [|discriminate].
    intros [= <- <-]. split; [|eauto].
    apply unchanged_alter; [lia|]. apply unchanged_alter; [lia|].
    eapply unchanged_trans; [apply unchanged_alloc|].
    eapply cleanParametersH_unchanged; eauto.
  - intros [= <- <-]. split; [apply unchanged_alloc|eauto].
Qed.

Lemma transformToolsForGeminiH_unchanged fuel tools :
  forall h newTools h',
    transformToolsForGeminiH fuel tools h = Some (newTools, h') ->
    unchanged h h'
    /\ Forall (fun newTool => exists l, newTool = HRef l /\ length h <= l) newTools
    /\ length newTools = length tools.
Proof.
  induction tools as [|tool rest IH]; intros h newTools h'; simpl.
  - intros [= <- <-]. split; [apply unchanged_refl|]. split; [constructor|reflexivity].
  - destruct (transformToolH fuel tool h) as [[newTool h1]|] eqn:Htool;
      simpl; [|discriminate].
    destruct (transformToolsForGeminiH fuel rest h1) as [[rest' h2]|] eqn:Hrest;
      simpl; [|discriminate].
    intros [= <- <-].
    apply transformToolH_unchanged in Htool as (H1 & l & -> & Hl).
    apply IH in Hrest as (H2 & Hfresh & Hlen).
    split; [eapply unchanged_trans; eauto|].
    split; [|simpl; congruence].
    constructor; [eauto|].
    eapply Forall_impl; [exact Hfresh|].
    intros v (l' & -> & Hl'). exists l'. split; [reflexivity|].
    apply unchanged_length in H1. lia.
Qed.

(** What a value stands for does not change while the objects it reaches
    do not. *)
Lemma reify_unchanged h h' :
  unchanged h h' ->
  forall fuel v j, reify fuel h v = Some j -> reify fuel h' v = Some j.
Proof.
  intros Hh. induction fuel as [|fuel IH]; intros v j; simpl; [discriminate|].
  destruct v as [| | | | |l]; try exact (fun H => H).
  destruct (h !! l) as [o|] eqn:Hl; [|discriminate].
  rewrite (Hh _ _ Hl). destruct o as [props|items].
  - intros (js & Hjs & ->)%fmap_Some. apply fmap_Some. exists js.
    split; [|reflexivity].
    apply mapM_Some in Hjs. apply mapM_Some.
    eapply Forall2_impl; [exact Hjs|].
    intros [k x] y (j & Hj & ->)%fmap_Some. apply fmap_Some.
    exists j. split; [apply IH; exact Hj|reflexivity].
  - intros (js & Hjs & ->)%fmap_Some. apply fmap_Some. exists js.
    split; [|reflexivity].
    apply mapM_Some in Hjs. apply mapM_Some.
    eapply Forall2_impl; [exact Hjs|]. intros x y Hx. now apply IH.
Qed.

(** *** The store version against the pure one *)

(** On a value that JavaScript objects can stand for, the store version of
    the normalizer returns, and returns what the pure version computes. *)

Lemma distinctKeysb_sound v : distinctKeysb v = true -> DistinctKeys v.
Proof.
  induction v as [| | | |items IH|props IH] using JSON_deep_ind;
    intros H; try constructor.
  - cbn [distinctKeysb] in H.
    pose proof (proj1 (forallb_forall _ _) H) as Hall.
    rewrite List.Forall_forall in IH. apply List.Forall_forall. auto.
  - cbn [distinctKeysb] in H. apply andb_true_iff in H as [H _].
    now apply bool_decide_eq_true in H.
  - cbn [distinctKeysb] in H. apply andb_true_iff in H as [_ H].
    pose proof (proj1 (forallb_forall _ _) H) as Hall.
    rewrite List.Forall_forall in IH. apply List.Forall_forall. auto.
Qed.

Lemma reify_leaf fuel h v j :
  reify fuel h v = Some j ->
  strictEqStringH v "string" = strictEqString (Some j) "string"
  /\ includesH ["enum"; "date-time"] v = includes ["enum"; "date-time"] j.
Proof.
  destruct fuel as [|fuel]; simpl; [discriminate|].
  destruct v as [| | | | |l]; try (intros [= <-]; split; reflexivity);
    try discriminate.
  destruct (h !! l) as [[props|items]|]; [| |discriminate].
  - intros (js & _ & ->)%fmap_Some. split; reflexivity.
  - intros (js & _ & ->)%fmap_Some. split; reflexivity.
Qed.

(** Reading a property of a stored object and of the value it stands for. *)
Lemma getProp_reify (r : HValue -> option JSON) props jprops key :
  mapM (fun kv => pair (fst kv) <$> r (snd kv)) props = Some jprops ->
  match getProp props key with
  | Some x => exists j, r x = Some j /\ getProp jprops key = Some j
  | None => getProp jprops key = None
  end.
Proof.
  revert jprops. induction props as [|[k x] rest IH]; intros jprops.
  - intros [= <-]. reflexivity.
  - intros H. apply mapM_Some in H.
    inversion H as [|? kj ? jrest Hkx Hrest]; subst.
    apply fmap_Some in Hkx as (j0 & Hj0 & ->). cbn [fst snd] in *.
    simpl. destruct (k =? key); [eauto|].
    apply IH. now apply mapM_Some.
Qed.

Lemma agreesFrom_unchanged k hc h1 h'' :
  unchanged hc h1 -> agreesFrom k h1 h'' -> agreesFrom k hc h''.
Proof.
  intros Hu Ha l Hk Hl.
  destruct (lookup_lt_is_Some_2 hc l Hl) as [o Ho].
  rewrite Ho. rewrite Ha; [now apply Hu|exact Hk|].
  apply Hu, lookup_lt_Some in Ho. exact Ho.
Qed.

Lemma agreesFrom_alter k (f : HObject -> HObject) c h1 h'' :
  c < k -> agreesFrom k (alter f c h1) h'' -> agreesFrom k h1 h''.
Proof.
  intros Hc Ha l Hk Hl. rewrite Ha; [|exact Hk|now rewrite length_alter].
  apply list_lookup_alter_ne. lia.
Qed.

Lemma agreesFrom_le k k' h' h'' :
  k <= k' -> agreesFrom k h' h'' -> agreesFrom k' h' h''.
Proof. intros Hk Ha l Hl. apply Ha. lia. Qed.

Lemma setProp_fresh {V : Type} (props : list (string * V)) key v :
  ~ In key (List.map fst props) -> setProp props key v = props ++ [(key, v)].
Proof.
  induction props as [|[k w] rest IH]; simpl; [reflexivity|].
  intros Hnot. destruct (String.eqb_spec k key) as [->|_].
  - exfalso. apply Hnot. now left.
  - rewrite IH; [reflexivity|]. intros Hin. apply Hnot. now right.
Qed.

Lemma getProp_middle {V : Type} (done rest : list (string * V)) key v :
  ~ In key (List.map fst done) ->
  getProp (done ++ (key, v) :: rest) key = Some v.
Proof.
  induction done as [|[k w] done IH]; simpl.
  - now rewrite String.eqb_refl.
  - intros Hnot. destruct (String.eqb_spec k key) as [->|_].
    + exfalso. apply Hnot. now left.
    + apply IH. intros Hin. apply Hnot. now right.
Qed.

Lemma type_reify (r : HValue -> option JSON) props jprops :
  (forall x j, r x = Some j ->
     strictEqStringH x "string" = strictEqString (Some j) "string") ->
  mapM (fun kv => pair (fst kv) <$> r (snd kv)) props = Some jprops ->
  strictEqStringH (default HUndefined (getProp props "type")) "string"
  = strictEqString (getProp jprops "type") "string".
Proof.
  intros Hr H. pose proof (getProp_reify r props jprops "type" H) as Hget.
  destruct (getProp props "type") as [x|].
  - destruct Hget as (j & Hj & ->). now apply Hr.
  - now rewrite Hget.
Qed.

(** The two loops, given that the recursive call at depth [m] agrees with
    the pure cleaner.  [h] is the store in which the object at [l] is
    cleaned and [c] the address of the copy being filled.  Throughout a
    loop the copy holds, in order, the cleaned properties (or elements)
    visited so far, and what they stand for depends only on objects
    allocated after the copy. *)
Section Refinement.
Variable m : nat.
Let clean := cleanParametersH m.

Hypothesis clean_refines :
  forall h x j,
    reify m h x = Some j -> DistinctKeys j ->
    exists v' h',
      clean x h = Some (v', h')
      /\ forall h'', agreesFrom (length h) h' h'' ->
                     reify m h'' v' = Some (cleanParameters j).

Variable h : Heap.
Variable l : nat.
Let c := length h.

Lemma cleanObjectLoop_refines props jprops :
  h !! l = Some (HObj props) ->
  mapM (fun kv => pair (fst kv) <$> reify m h (snd kv)) props = Some jprops ->
  NoDup (List.map fst props) ->
  forall todo jtodo done hc cprops cj,
    props = done ++ todo ->
    Forall2 (fun kv kj => pair (fst kv) <$> reify m h (snd kv) = Some kj)
            todo jtodo ->
    Forall (fun kj => DistinctKeys (snd kj)) jtodo ->
    unchanged h hc -> c < length hc ->
    hc !! c = Some (HObj cprops) ->
    (forall k, In k (List.map fst cprops) -> In k (List.map fst done)) ->
    Forall2 (fun kv kj =>
               fst kv = fst kj
               /\ forall h'', agreesFrom (S c) hc h'' ->
                              reify m h'' (snd kv) = Some (snd kj))
            cprops cj ->
    exists h' cprops',
      cleanObjectLoop clean (HRef l) c (List.map fst todo) hc
        = Some (HRef c, h')
      /\ unchanged h h' /\ c < length h'
      /\ h' !! c = Some (HObj cprops')
      /\ Forall2 (fun kv kj =>
                    fst kv = fst kj
                    /\ forall h'', agreesFrom (S c) h' h'' ->
                                   reify m h'' (snd kv) = Some (snd kj))
                 cprops'
                 (cj ++ List.map (fun kv => (fst kv, cleanParameters (snd kv)))
                          (List.filter (keptProperty jprops) jtodo)).
Proof.
  intros Hl Hprops Hnodup.
  intros todo. induction todo as [|[k x] rest IH];
    intros jtodo done hc cprops cj Hsplit Hrel Hwf Hu Hc Hcp Hkeys Hinv.
  - inversion Hrel; subst. simpl. exists hc, cprops.
    rewrite app_nil_r. auto.
  - inversion Hrel as [|? kj ? jrest Hkx Hrest]; subst jtodo.
    apply fmap_Some in Hkx as (j & Hj & ->). cbn [fst snd] in *.
    apply Forall_cons in Hwf as [Hwfj Hwfrest].
    assert (~ In k (List.map fst done)) as Hfresh.
    { rewrite Hsplit, map_app in Hnodup. cbn [List.map fst] in Hnodup.
      apply NoDup_app in Hnodup as (_ & Hdisj & _).
      intros Hin%list_elem_of_In. apply (Hdisj _ Hin). left. }
    assert (hc !! l = Some (HObj props)) as Hlc by (apply Hu; exact Hl).
    assert (hget hc (HRef l) k = x) as Hgetk.
    { unfold hget. rewrite Hlc, Hsplit, (getProp_middle _ _ _ _ Hfresh).
      reflexivity. }
    assert (strictEqStringH (hget hc (HRef l) "type") "string"
            = strictEqString (getProp jprops "type") "string") as Htype.
    { unfold hget. rewrite Hlc.
      apply (type_reify (reify m h)); [|exact Hprops].
      intros y jy Hy. now apply (reify_leaf _ _ _ _ Hy). }
    assert (includesH ["enum"; "date-time"] x = includes ["enum"; "date-time"] j)
      as Hincl by (apply (reify_leaf _ _ _ _ Hj)).
    assert (props = (done ++ [(k, x)]) ++ rest) as Hsplit'
        by (rewrite <- app_assoc; exact Hsplit).
    cbn [List.map fst cleanObjectLoop]. rewrite Hgetk, Htype, Hincl.
    cbn [List.filter]. unfold keptProperty at 1. cbn [fst snd].
    destruct ((k =? "format")
              && strictEqString (getProp jprops "type") "string"
              && negb (includes ["enum"; "date-time"] j)) eqn:Hfmt;
      cbn [negb andb].
    { eapply IH; eauto. intros k' Hk'. rewrite map_app. apply in_or_app.
      left. auto. }
    destruct (k =? "additional_properties") eqn:Hap; cbn [negb andb].
    { eapply IH; eauto. intros k' Hk'. rewrite map_app. apply in_or_app.
      left. auto. }
    destruct (clean_refines hc x j) as (v' & h1 & Hclean & Hreify);
      [eapply reify_unchanged; eauto|exact Hwfj|].
    assert (unchanged hc h1) as Hu1
        by (eapply cleanParametersH_unchanged; exact Hclean).
    pose proof (unchanged_length _ _ Hu1) as Hlen1.
    rewrite Hclean. cbn [mbind option_bind].
    destruct (k =? "__proto__") eqn:Hproto; cbn [negb].
    + eapply IH; eauto.
      * eapply unchanged_trans; eauto.
      * lia.
      * intros k' Hk'. rewrite map_app. apply in_or_app. left. auto.
      * eapply Forall2_impl; [exact Hinv|]. intros kv kj [Hk Hr].
        split; [exact Hk|]. intros h'' Ha. apply Hr.
        eapply agreesFrom_unchanged; eauto.
    + assert (hsetProp h1 c k v' !! c = Some (HObj (cprops ++ [(k, v')])))
        as Hset.
      { unfold hsetProp. rewrite list_lookup_alter_eq, (Hu1 _ _ Hcp).
        cbn [fmap option_fmap option_map].
        rewrite setProp_fresh; [reflexivity|]. intros Hin. auto. }
      destruct (IH jrest (done ++ [(k, x)]) (hsetProp h1 c k v')
                   (cprops ++ [(k, v')])
                   (cj ++ [(k, cleanParameters j)]))
        as (h' & cprops' & Hloop & Hu' & Hc' & Hcp' & Hinv'); auto.
      * apply unchanged_alter; [unfold c; lia|].
        eapply unchanged_trans; eauto.
      * unfold hsetProp. rewrite length_alter. lia.
      * intros k'. rewrite !map_app. cbn [List.map fst].
        intros [Hin|Hin]%in_app_or; apply in_or_app; auto.
      * apply Forall2_app.
        -- eapply Forall2_impl; [exact Hinv|]. intros kv kj [Hk Hr].
           split; [exact Hk|]. intros h'' Ha. apply Hr.
           eapply agreesFrom_unchanged; [exact Hu1|].
           eapply agreesFrom_alter; [|exact Ha]. lia.
        -- constructor; [|constructor]. split; [reflexivity|].
           intros h'' Ha. cbn [snd]. apply Hreify.
           eapply agreesFrom_le; [|eapply agreesFrom_alter; [|exact Ha]]; lia.
      * exists h', cprops'. split; [exact Hloop|].
        repeat (split; [assumption|]).
        cbn [List.map fst snd]. now rewrite <- app_assoc in Hinv'.
Qed.

Lemma cleanArrayLoop_refines items :
  h !! l = Some (HArr items) ->
  forall todo jtodo done hc citems cj,
    items = done ++ todo ->
    Forall2 (fun x j => reify m h x = Some j) todo jtodo ->
    Forall DistinctKeys jtodo ->
    unchanged h hc -> c < length hc ->
    hc !! c = Some (HArr citems) ->
    Forall2 (fun v j =>
               forall h'', agreesFrom (S c) hc h'' -> reify m h'' v = Some j)
            citems cj ->
    exists h' citems',
      cleanArrayLoop clean (HRef l) c (seq (length done) (length todo)) hc
        = Some (HRef c, h')
      /\ unchanged h h' /\ c < length h'
      /\ h' !! c = Some (HArr citems')
      /\ Forall2 (fun v j =>
                    forall h'', agreesFrom (S c) h' h'' ->
                                reify m h'' v = Some j)
                 citems' (cj ++ List.map cleanParameters jtodo).
Proof.
  intros Hl todo. induction todo as [|x rest IH];
    intros jtodo done hc citems cj Hsplit Hrel Hwf Hu Hc Hcp Hinv.
  - inversion Hrel; subst. simpl. exists hc, citems.
    rewrite app_nil_r. auto.
  - inversion Hrel as [|? j ? jrest Hj Hrest]; subst jtodo.
    apply Forall_cons in Hwf as [Hwfj Hwfrest].
    assert (hindex hc (HRef l) (length done) = x) as Hget.
    { unfold hindex. rewrite (Hu _ _ Hl), Hsplit, list_lookup_middle by reflexivity.
      reflexivity. }
    cbn [length seq cleanArrayLoop]. rewrite Hget.
    destruct (clean_refines hc x j) as (v' & h1 & Hclean & Hreify);
      [eapply reify_unchanged; eauto|exact Hwfj|].
    assert (unchanged hc h1) as Hu1
        by (eapply cleanParametersH_unchanged; exact Hclean).
    pose proof (unchanged_length _ _ Hu1) as Hlen1.
    rewrite Hclean. cbn [mbind option_bind].
    assert (hpush h1 c v' !! c = Some (HArr (citems ++ [v']))) as Hpush.
    { unfold hpush. rewrite list_lookup_alter_eq, (Hu1 _ _ Hcp). reflexivity. }
    destruct (IH jrest (done ++ [x]) (hpush h1 c v') (citems ++ [v'])
                 (cj ++ [cleanParameters j]))
      as (h' & citems' & Hloop & Hu' & Hc' & Hcp' & Hinv'); auto.
    + rewrite <- app_assoc. exact Hsplit.
    + apply unchanged_alter; [unfold c; lia|].
      eapply unchanged_trans; eauto.
    + unfold hpush. rewrite length_alter. lia.
    + apply Forall2_app.
      * eapply Forall2_impl; [exact Hinv|]. intros v jv Hr h'' Ha. apply Hr.
        eapply agreesFrom_unchanged; [exact Hu1|].
        eapply agreesFrom_alter; [|exact Ha]. lia.
      * constructor; [|constructor]. intros h'' Ha. apply Hreify.
        eapply agreesFrom_le; [|eapply agreesFrom_alter; [|exact Ha]]; lia.
    + exists h', citems'. rewrite length_app, Nat.add_1_r in Hloop.
      split; [exact Hloop|]. repeat (split; [assumption|]).
      cbn [List.map]. now rewrite <- app_assoc in Hinv'.
Qed.

End Refinement.

Lemma mapM_keys (r : HValue -> option JSON)
    (props : list (string * HValue)) (jprops : list (string * JSON)) :
  mapM (fun kv => pair (fst kv) <$> r (snd kv)) props = Some jprops ->
  List.map fst props = List.map fst jprops.
Proof.
  intros H%mapM_Some. induction H as [|[k x] kj props jprops Hkx _ IH];
    [reflexivity|].
  apply fmap_Some in Hkx as (j & _ & ->). simpl. now rewrite IH.
Qed.

(** The store version computes what the pure version does: when [params]
    stands for [j], cleaning it on the store returns a value that stands
    for [cleanParameters j], whatever is later done to the objects that
    were there before. *)
Theorem cleanParametersH_refines fuel :
  forall h params j,
    reify fuel h params = Some j -> DistinctKeys j ->
    exists v' h',
      cleanParametersH fuel params h = Some (v', h')
      /\ forall h'', agreesFrom (length h) h' h'' ->
                     reify fuel h'' v' = Some (cleanParameters j).
Proof.
  induction fuel as [|m IH]; intros h params j; [discriminate|].
  cbn [reify cleanParametersH].
  destruct params as [| | | | |l];
    try (intros [= <-] _; eexists _, _; split; [reflexivity|];
         intros h'' _; reflexivity);
    try discriminate.
  destruct (h !! l) as [[props|items]|] eqn:Hl; [| |discriminate].
  - intros (jprops & Hprops & ->)%fmap_Some Hwf.
    inversion Hwf as [| | | | |? Hnodup Hwfs]; subst.
    assert (NoDup (List.map fst props)) as Hnodup'
        by now rewrite (mapM_keys _ _ _ Hprops).
    assert ((h ++ [HObj []]) !! length h = Some (HObj [])) as Hnew
        by now rewrite list_lookup_middle.
    destruct (cleanObjectLoop_refines m IH h l props jprops Hl Hprops Hnodup'
                props jprops [] (h ++ [HObj []]) [] [])
      as (h' & cprops' & Hloop & Hu' & Hc' & Hcp' & Hinv');
      [reflexivity|now apply mapM_Some|exact Hwfs|apply unchanged_alloc
      |rewrite length_app; simpl; lia|exact Hnew|auto|constructor|].
    exists (HRef (length h)), h'. split; [exact Hloop|].
    intros h'' Ha. cbn [reify].
    rewrite (Ha (length h)), Hcp' by lia.
    rewrite cleanParameters_object. apply fmap_Some. eexists.
    split; [|reflexivity]. apply mapM_Some.
    eapply Forall2_impl; [exact Hinv'|].
    intros [k v] [k' jv] [Hk Hr]. cbn [fst snd] in *. subst k'.
    rewrite Hr; [reflexivity|].
    eapply agreesFrom_le; [|exact Ha]. lia.
  - intros (jitems & Hitems & ->)%fmap_Some Hwf.
    inversion Hwf as [| | | |? Hwfs|]; subst.
    assert ((h ++ [HArr []]) !! length h = Some (HArr [])) as Hnew
        by now rewrite list_lookup_middle.
    destruct (cleanArrayLoop_refines m IH h l items Hl
                items jitems [] (h ++ [HArr []]) [] [])
      as (h' & citems' & Hloop & Hu' & Hc' & Hcp' & Hinv');
      [reflexivity|now apply mapM_Some|exact Hwfs|apply unchanged_alloc
      |rewrite length_app; simpl; lia|exact Hnew|constructor|].
    exists (HRef (length h)), h'. split; [exact Hloop|].
    intros h'' Ha. cbn [reify].
    rewrite (Ha (length h)), Hcp' by lia.
    rewrite cleanParameters_array. apply fmap_Some. eexists.
    split; [|reflexivity]. apply mapM_Some.
    eapply Forall2_impl; [exact Hinv'|].
    intros v jv Hr. apply Hr.
    eapply agreesFrom_le; [|exact Ha]. lia.
Qed.

Lemma truthy_reify fuel h v j :
  reify fuel h v = Some j -> truthyH v = truthy j.
Proof.
  destruct fuel as [|fuel]; simpl; [discriminate|].
  destruct v as [| | | | |l]; try (intros [= <-]; reflexivity);
    try discriminate.
  destruct (h !! l) as [[props|items]|]; [| |discriminate];
    intros (js & _ & ->)%fmap_Some; reflexivity.
Qed.

Lemma agreesFrom_altered k (f : HObject -> HObject) c h' :
  c < k -> agreesFrom k h' (alter f c h').
Proof. intros Hc l Hk _. apply list_lookup_alter_ne. lia. Qed.

Lemma agreesFrom_trans k h1 h2 h3 :
  length h1 <= length h2 ->
  agreesFrom k h1 h2 -> agreesFrom k h2 h3 -> agreesFrom k h1 h3.
Proof.
  intros Hlen H12 H23 l Hk Hl. rewrite H23; [now apply H12|exact Hk|lia].
Qed.

Section PropertyRelation.
Context {V W : Type} (R : V -> W -> Prop).

Let related (kv : string * V) (kj : string * W) : Prop :=
  fst kv = fst kj /\ R (snd kv) (snd kj).

Lemma Forall2_setProp props jprops key v j :
  Forall2 related props jprops -> R v j ->
  Forall2 related (setProp props key v) (setProp jprops key j).
Proof.
  intros H Hvj. induction H as [|[k x] [k' y] props jprops [Hk Hxy] Hrest IH];
    simpl.
  - constructor; [split; [reflexivity|exact Hvj]|constructor].
  - cbn [fst snd] in *. subst k'. destruct (k =? key).
    + constructor; [split; [reflexivity|exact Hvj]|exact Hrest].
    + constructor; [split; [reflexivity|exact Hxy]|exact IH].
Qed.

Lemma Forall2_deleteProp props jprops key :
  Forall2 related props jprops ->
  Forall2 related (deleteProp props key) (deleteProp jprops key).
Proof.
  intros H. unfold deleteProp.
  induction H as [|[k x] [k' y] props jprops [Hk Hxy] _ IH]; simpl;
    [constructor|].
  cbn [fst snd] in *. subst k'. destruct (k =? key); simpl; [exact IH|].
  constructor; [split; [reflexivity|exact Hxy]|exact IH].
Qed.
End PropertyRelation.

Lemma mapM_related (r : HValue -> option JSON)
    (props : list (string * HValue)) (jprops : list (string * JSON)) :
  mapM (fun kv => pair (fst kv) <$> r (snd kv)) props = Some jprops
  <-> Forall2 (fun kv kj => fst kv = fst kj /\ r (snd kv) = Some (snd kj))
              props jprops.
Proof.
  rewrite mapM_Some. split; intros H; (eapply Forall2_impl; [exact H|]).
  - intros [k x] kj (j & Hj & ->)%fmap_Some. now split.
  - intros [k x] [k' j] [Hk Hj]. cbn [fst snd] in *. subst k'.
    now rewrite Hj.
Qed.

(** One declaration on the store and as a value. *)
Lemma transformToolH_refines fuel h tool jtool :
  reify (S fuel) h tool = Some (JObject jtool) ->
  DistinctKeys (JObject jtool) ->
  exists newTool h',
    transformToolH fuel tool h = Some (newTool, h')
    /\ reify (S fuel) h' newTool = Some (JObject (transformTool jtool)).
Proof.
  intros Htool Hwf. cbn [reify] in Htool.
  destruct tool as [| | | | |l]; try discriminate.
  destruct (h !! l) as [[props|items]|] eqn:Hl; [| |discriminate].
  2: { apply fmap_Some in Htool as (js & _ & [=]). }
  apply fmap_Some in Htool as (jprops0 & Hprops & [= <-]).
  inversion Hwf as [| | | | |? _ Hwfs]; subst.
  unfold transformToolH, transformTool. cbn [spread]. rewrite Hl.
  set (c := length h). set (h1 := h ++ [HObj props]).
  assert (h1 !! c = Some (HObj props)) as Hc
      by (unfold h1, c; now rewrite list_lookup_middle).
  assert (unchanged h h1) as Hu1 by apply unchanged_alloc.
  assert (reify (S fuel) h1 (HRef c) = Some (JObject jtool)) as Hcopy.
  { cbn [reify]. rewrite Hc. apply fmap_Some. exists jtool.
    split; [|reflexivity]. apply mapM_related.
    apply mapM_related in Hprops.
    eapply Forall2_impl; [exact Hprops|]. intros kv kj [Hk Hr].
    split; [exact Hk|]. eapply reify_unchanged; eauto. }
  unfold hget at 1 2. rewrite Hc.
  pose proof (getProp_reify _ _ _ "input_schema" Hprops) as Hget.
  destruct (getProp props "input_schema") as [x|]; cbn [default from_option id].
  2: { rewrite Hget. eexists _, _. split; [reflexivity|exact Hcopy]. }
  destruct Hget as (jx & Hjx & Hgetj).
  rewrite Hgetj, (truthy_reify _ _ _ _ Hjx).
  destruct (truthy jx).
  2: { eexists _, _. split; [reflexivity|exact Hcopy]. }
  assert (DistinctKeys jx) as Hwfx.
  { apply getProp_In in Hgetj. rewrite List.Forall_forall in Hwfs.
    apply (Hwfs _ Hgetj). }
  destruct (cleanParametersH_refines fuel h1 x jx) as (v' & h2 & Hclean & Hv');
    [eapply reify_unchanged; eauto|exact Hwfx|].
  rewrite Hclean. cbn [mbind option_bind]. eexists _, _.
  split; [reflexivity|].
  assert (unchanged h1 h2) as Hu2
      by (eapply cleanParametersH_unchanged; exact Hclean).
  set (h3 := hsetProp h2 c "parameters" v').
  set (h4 := hdeleteProp h3 c "input_schema").
  assert (length h1 = S c) as Hlen1
      by (unfold h1, c; rewrite length_app; simpl; lia).
  assert (unchanged h h4) as Hu4.
  { apply unchanged_alter; [unfold c; lia|].
    apply unchanged_alter; [unfold c; lia|].
    eapply unchanged_trans; eauto. }
  assert (reify fuel h4 v' = Some (cleanParameters jx)) as Hv4.
  { apply Hv'. pose proof (unchanged_length _ _ Hu2).
    eapply agreesFrom_trans; [|apply agreesFrom_altered|apply agreesFrom_altered];
      unfold hsetProp; rewrite ?length_alter; lia. }
  assert (h4 !! c
          = Some (HObj (deleteProp (setProp props "parameters" v') "input_schema")))
    as Hc4.
  { unfold h4, h3, hdeleteProp, hsetProp.
    rewrite !list_lookup_alter_eq, (Hu2 _ _ Hc). reflexivity. }
  cbn [reify]. rewrite Hc4. apply fmap_Some. eexists.
  split; [|reflexivity]. apply mapM_related.
  apply (Forall2_deleteProp (fun x j => reify fuel h4 x = Some j)).
  apply (Forall2_setProp (fun x j => reify fuel h4 x = Some j));
    [|exact Hv4].
  apply mapM_related in Hprops.
  eapply Forall2_impl; [exact Hprops|]. intros kv kj [Hk Hr].
  split; [exact Hk|]. eapply reify_unchanged; eauto.
Qed.

(** The store version of the normalizer returns, for declarations that
    stand for [jtools], declarations that stand for
    [transformToolsForGemini jtools]. *)
Theorem transformToolsForGeminiH_refines fuel tools :
  forall jtools h,
    Forall2 (fun tool jtool => reify (S fuel) h tool = Some (JObject jtool))
            tools jtools ->
    Forall (fun jtool => DistinctKeys (JObject jtool)) jtools ->
    exists newTools h',
      transformToolsForGeminiH fuel tools h = Some (newTools, h')
      /\ Forall2 (fun newTool jtool =>
                    reify (S fuel) h' newTool = Some (JObject jtool))
                 newTools (transformToolsForGemini jtools).
Proof.
  induction tools as [|tool rest IH]; intros jtools h Hrel Hwf.
  - inversion Hrel; subst. exists [], h. split; [reflexivity|constructor].
  - inversion Hrel as [|? jtool ? jrest Htool Hrest]; subst.
    apply Forall_cons in Hwf as [Hwf1 Hwfrest].
    destruct (transformToolH_refines fuel h tool jtool Htool Hwf1)
      as (newTool & h1 & Hrun1 & Hnew).
    pose proof (transformToolH_unchanged _ _ _ _ _ Hrun1) as [Hu1 _].
    destruct (IH jrest h1) as (newTools & h' & Hrun & Hnews);
      [|exact Hwfrest|].
    { eapply Forall2_impl; [exact Hrest|]. intros t jt Ht.
      eapply reify_unchanged; eauto. }
    pose proof (transformToolsForGeminiH_unchanged _ _ _ _ _ Hrun) as [Hu' _].
    exists (newTool :: newTools), h'. cbn [transformToolsForGeminiH].
    rewrite Hrun1. cbn [mbind option_bind]. rewrite Hrun.
    split; [reflexivity|]. cbn [transformToolsForGemini List.map].
    constructor; [|exact Hnews].
    eapply reify_unchanged; eauto.
Qed.

(** C9.  Normalization does not mutate its input.  After
    [transformToolsForGemini] returns, every object that was in the store
    before the call is in it unchanged; so each original declaration still
    has its [input_schema] property, pointing where it did, and the schema
    it points to stands for the same value as before.  The declarations
    returned are objects allocated by the call, one per input declaration
    ([tools] lists the elements of the argument array, which [map] only
    reads); when the originals stand for the declarations [jtools], they
    still do after the call, and the returned ones stand for the
    normalized [jtools]. *)
Theorem transformToolsForGemini_preserves_input
    (fuel : nat) (tools : list HValue) (h : Heap)
    (newTools : list HValue) (h' : Heap) :
  transformToolsForGeminiH fuel tools h = Some (newTools, h') ->
  unchanged h h'
  /\ (forall l object,
         In (HRef l) tools -> h !! l = Some object ->
         h' !! l = Some object
         /\ hget h' (HRef l) "input_schema" = hget h (HRef l) "input_schema")
  /\ (forall n v schema, reify n h v = Some schema -> reify n h' v = Some schema)
  /\ Forall (fun newTool => exists l, newTool = HRef l /\ length h <= l) newTools
  /\ length newTools = length tools
  /\ (forall jtools,
         Forall2 (fun tool jtool => reify (S fuel) h tool = Some (JObject jtool))
                 tools jtools ->
         Forall (fun jtool => DistinctKeys (JObject jtool)) jtools ->
         Forall2 (fun tool jtool => reify (S fuel) h' tool = Some (JObject jtool))
                 tools jtools
         /\ Forall2 (fun newTool jtool =>
                       reify (S fuel) h' newTool = Some (JObject jtool))
                    newTools (transformToolsForGemini jtools)).
Proof.
  intros Hrun.
  pose proof (transformToolsForGeminiH_unchanged _ _ _ _ _ Hrun)
    as (Hh & Hfresh & Hlen).
  split; [exact Hh|]. split.
  { intros l object _ Hl. split; [now apply Hh|].
    unfold hget. now rewrite Hl, (Hh _ _ Hl). }
  split; [intros n v schema; now apply reify_unchanged|].
  split; [assumption|]. split; [assumption|].
  intros jtools Hstand Hwf. split.
  - eapply Forall2_impl; [exact Hstand|]. intros tool jtool Htool.
    eapply reify_unchanged; eauto.
  - destruct (transformToolsForGeminiH_refines fuel tools jtools h Hstand Hwf)
      as (newTools0 & h0 & Hrun0 & Hnew).
    rewrite Hrun in Hrun0. now injection Hrun0 as <- <-.
Qed.


(** ** The normalizer on a cyclic schema *)

(** The loops, when the object at [l] is met again under one of its own
    keys. *)
Section Cycle.

Variable clean : HValue -> Heap -> option (HValue * Heap).
Variable l : nat.
Variable object : HObject.

Hypothesis clean_unchanged :
  forall v h v' h', clean v h = Some (v', h') -> unchanged h h'.
Hypothesis clean_cycle :
  forall h, h !! l = Some object -> clean (HRef l) h = None.

Lemma cleanObjectLoop_cycle props key c :
  object = HObj props ->
  getProp props key = Some (HRef l) ->
  key <> "format" -> key <> "additional_properties" ->
  l <> c ->
  forall keys h,
    In key keys -> h !! l = Some object ->
    cleanObjectLoop clean (HRef l) c keys h = None.
Proof.
  intros -> Hkey Hfmt Hadd Hc.
  induction keys as [|k rest IH]; intros h Hin Hl; [contradiction|].
  cbn [cleanObjectLoop].
  change ((fix loop (keys : list string) (h : Heap) := _) rest)
    with (cleanObjectLoop clean (HRef l) c rest).
  destruct (String.eqb_spec k key) as [->|Hk].
  - apply String.eqb_neq in Hfmt, Hadd. rewrite Hfmt, Hadd.
    cbn [andb negb]. unfold hget at 1. rewrite Hl, Hkey. cbn [default from_option id].
    now rewrite (clean_cycle h Hl).
  - assert (In key rest) as Hin' by (destruct Hin; [contradiction|assumption]).
    destruct ((k =? "format") && _ && _); [now apply IH|].
    destruct (negb (k =? "additional_properties")); [|now apply IH].
    destruct (clean (hget h (HRef l) k) h) as [[v h']|] eqn:Hv; [|reflexivity].
    cbn [mbind option_bind]. apply IH; [exact Hin'|].
    pose proof (clean_unchanged _ _ _ _ Hv l _ Hl) as Hl'.
    destruct (k =? "__proto__"); [exact Hl'|].
    unfold hsetProp. now rewrite list_lookup_alter_ne by congruence.
Qed.

Lemma cleanArrayLoop_cycle items i c :
  object = HArr items ->
  items !! i = Some (HRef l) ->
  l <> c ->
  forall keys h,
    In i keys -> h !! l = Some object ->
    cleanArrayLoop clean (HRef l) c keys h = None.
Proof.
  intros -> Hi Hc.
  induction keys as [|k rest IH]; intros h Hin Hl; [contradiction|].
  cbn [cleanArrayLoop].
  change ((fix loop (keys : list nat) (h : Heap) := _) rest)
    with (cleanArrayLoop clean (HRef l) c rest).
  destruct (Nat.eq_dec k i) as [->|Hk].
  - unfold hindex at 1. rewrite Hl, Hi. cbn [default from_option id].
    now rewrite (clean_cycle h Hl).
  - assert (In i rest) as Hin' by (destruct Hin; [contradiction|assumption]).
    destruct (clean (hindex h (HRef l) k) h) as [[v h']|] eqn:Hv; [|reflexivity].
    cbn [mbind option_bind]. apply IH; [exact Hin'|].
    pose proof (clean_unchanged _ _ _ _ Hv l _ Hl) as Hl'.
    unfold hpush. now rewrite list_lookup_alter_ne by congruence.
Qed.

End Cycle.

(** X21.  A schema that contains itself is never cleaned.  When an
    object has a property, other than [format] and
    [additional_properties], whose value is the object itself, or an
    array has itself as an element, the recursion of [cleanParameters]
    meets the same object again at every level and does not end: the
    call returns for no nesting bound (JavaScript gives up with a stack
    overflow). *)
Theorem cleanParametersH_cyclic (fuel : nat) (h : Heap) (l : nat) :
  (exists props key,
      h !! l = Some (HObj props)
      /\ getProp props key = Some (HRef l)
      /\ key <> "format" /\ key <> "additional_properties")
  \/ (exists items i, h !! l = Some (HArr items) /\ items !! i = Some (HRef l)) ->
  cleanParametersH fuel (HRef l) h = None.
Proof.
  intros Hcycle.
  assert (exists object, h !! l = Some object
            /\ ((exists props key,
                   object = HObj props
                   /\ getProp props key = Some (HRef l)
                   /\ key <> "format" /\ key <> "additional_properties")
                \/ exists items i,
                     object = HArr items /\ items !! i = Some (HRef l)))
    as (object & Hl & Hshape).
  { destruct Hcycle as [(props & key & H & ?)|(items & i & H & ?)];
      eexists; (split; [exact H|]); [left|right]; eauto 6. }
  clear Hcycle. revert h Hl.
  induction fuel as [|fuel IH]; intros h Hl; [reflexivity|].
  cbn [cleanParametersH]. rewrite Hl.
  pose proof (lookup_lt_Some _ _ _ Hl) as Hlt.
  assert (Hl' : (h ++ [match object with HObj _ => HObj [] | HArr _ => HArr [] end]) !! l
                = Some object) by now apply lookup_app_l_Some.
  destruct Hshape as [(props & key & -> & Hkey & Hfmt & Hadd)
                     |(items & i & -> & Hi)].
  - eapply (cleanObjectLoop_cycle (cleanParametersH fuel) l (HObj props));
      eauto using cleanParametersH_unchanged; [lia|].
    apply in_map_iff. exists (key, HRef l). split; [reflexivity|].
    now apply getProp_In.
  - eapply (cleanArrayLoop_cycle (cleanParametersH fuel) l (HArr items));
      eauto using cleanParametersH_unchanged; [lia|].
    apply in_seq. pose proof (lookup_lt_Some _ _ _ Hi). lia.
Qed.

(** ** The service factory *)

Section FactoryProperties.

Variable JSON_parse : string -> result JSON.
Variable systemPrompts : string -> option string.
Variable GoogleGenerativeAI :
  string -> ModelParams -> list Content -> result StreamResult.

Local Abbreviation factory :=
  (createGeminiService JSON_parse systemPrompts GoogleGenerativeAI).

(** X22.  The service factory and its key (lines 116-118).  A non-empty
    key given as argument makes a service, whatever the environment
    holds, and the service's [streamConversation] is the adapter's, run
    against the client made for that key.  An empty key given as
    argument is refused with the key-not-set error even when
    [GEMINI_API_KEY] is set: the environment is read only when the
    argument is omitted, and then the call behaves as if the variable's
    value had been passed, so an unset or empty variable is refused
    too. *)
Theorem createGeminiService_key (env : Env) :
  (forall key, key <> "" ->
     exists service,
       factory env (Some key) = Ok service
       /\ (forall req h,
              svc_streamConversation service req h
              = streamConversation JSON_parse systemPrompts
                  (GoogleGenerativeAI key) req h)
       /\ (forall promptType,
              svc_getSystemPrompt service promptType
              = getSystemPrompt systemPrompts promptType))
  /\ factory env (Some "") = Throw apiKeyNotSet
  /\ factory env None = factory [] (getProp env "GEMINI_API_KEY")
  /\ (unset env "GEMINI_API_KEY" = true -> factory env None = Throw apiKeyNotSet).
Proof.
  split; [|split; [reflexivity|split]].
  - intros key Hkey. unfold createGeminiService.
    destruct (String.eqb_spec key "") as [->|_]; [contradiction|].
    cbn [negb]. eexists. split; [reflexivity|]. split; reflexivity.
  - unfold createGeminiService. cbn [getProp].
    now destruct (getProp env "GEMINI_API_KEY").
  - unfold unset, createGeminiService.
    destruct (getProp env "GEMINI_API_KEY") as [key|]; [|reflexivity].
    now intros ->.
Qed.

End FactoryProperties.

(** ** Environment validation and defaults *)

Lemma filter_nil_Forall {A : Type} (f : A -> bool) (l : list A) :
  List.filter f l = [] <-> Forall (fun x => f x = false) l.
Proof.
  induction l as [|x l IH]; [split; constructor|].
  cbn [List.filter]. destruct (f x) eqn:E.
  - split; [discriminate|]. intros H. inversion H. congruence.
  - rewrite IH. split; [now constructor|]. intros H. now inversion H.
Qed.

Lemma ownKey_not_inherited (env : string) (names : list string) :
  getProp REQUIRED_ENV_VARS env = Some names -> ~ In env objectPrototypeKeys.
Proof.
  unfold REQUIRED_ENV_VARS. cbn [getProp].
  destruct (String.eqb_spec "all" env) as [<-|_].
  { intros _ H. cbn in H. intuition discriminate. }
  destruct (String.eqb_spec "production" env) as [<-|_].
  { intros _ H. cbn in H. intuition discriminate. }
  destruct (String.eqb_spec "development" env) as [<-|_]; [|discriminate].
  intros _ H. cbn in H. intuition discriminate.
Qed.

Lemma inherited_spec (env : string) :
  existsb (String.eqb env) objectPrototypeKeys = true
  <-> In env objectPrototypeKeys.
Proof.
  rewrite existsb_exists. split.
  - intros (x & Hin & ->%String.eqb_eq). exact Hin.
  - intros Hin. exists env. split; [exact Hin|apply String.eqb_refl].
Qed.

(** The outcome of the validation, by the unset required variables. *)
Lemma validateEnvironment_spec (processEnv : Env) :
  let env := nodeEnvOf processEnv in
  let missing := List.filter (unset processEnv) (requiredFor env) in
  validateEnvironment processEnv =
  if existsb (String.eqb env) objectPrototypeKeys
  then Throw (TypeError "REQUIRED_ENV_VARS[env].forEach is not a function")
  else match missing with
       | [] => Ok tt
       | _ :: _ => Throw (Error (missingMessage missing env))
       end.
Proof.
  cbv zeta. unfold validateEnvironment, requiredFor.
  rewrite List.filter_app.
  destruct (getProp REQUIRED_ENV_VARS (nodeEnvOf processEnv)) as [names|] eqn:Hown.
  - assert (existsb (String.eqb (nodeEnvOf processEnv)) objectPrototypeKeys = false)
      as ->.
    { apply not_true_iff_false. rewrite inherited_spec.
      eapply ownKey_not_inherited, Hown. }
    cbn [bind default from_option id].
    now destruct (List.filter _ _ ++ List.filter _ _).
  - cbn [default from_option id List.filter]. rewrite app_nil_r.
    destruct (existsb _ objectPrototypeKeys); [reflexivity|].
    cbn [bind]. now destruct (List.filter _ _).
Qed.

(** X23.  When the validation passes (lines 55-81).
    [validateEnvironment] returns exactly when every variable required
    for the environment named by [NODE_ENV] is set and not empty (the
    seven universal ones, [NODE_ENV] itself among them, then the ones of
    that environment) and [NODE_ENV] is not the name of a property
    objects inherit.  So it never passes without [CLAUDE_API_KEY],
    whichever provider is configured, and never asks for
    [GEMINI_API_KEY]. *)
Theorem validateEnvironment_returns (processEnv : Env) :
  (validateEnvironment processEnv = Ok tt
   <-> Forall (fun varName => unset processEnv varName = false)
              (requiredFor (nodeEnvOf processEnv))
       /\ ~ In (nodeEnvOf processEnv) objectPrototypeKeys)
  /\ (validateEnvironment processEnv = Ok tt ->
      unset processEnv "NODE_ENV" = false
      /\ unset processEnv "CLAUDE_API_KEY" = false)
  /\ (forall env, ~ In "GEMINI_API_KEY" (requiredFor env)).
Proof.
  assert (Hiff : validateEnvironment processEnv = Ok tt
                 <-> Forall (fun varName => unset processEnv varName = false)
                            (requiredFor (nodeEnvOf processEnv))
                     /\ ~ In (nodeEnvOf processEnv) objectPrototypeKeys).
  { rewrite validateEnvironment_spec. cbv zeta.
    rewrite <- filter_nil_Forall, <- inherited_spec.
    destruct (existsb _ objectPrototypeKeys).
    - split; [discriminate|]. intros [_ H]. now contradiction H.
    - destruct (List.filter _ _).
      + split; [|reflexivity]. intros _. split; [reflexivity|discriminate].
      + split; [discriminate|]. intros [H _]. discriminate H. }
  split; [exact Hiff|]. split.
  - intros [Hset _]%Hiff.
    pose proof (proj1 (List.Forall_forall _ _) Hset) as Hall.
    split; apply Hall; unfold requiredFor; apply in_or_app; left; cbn; auto 8.
  - intros env. unfold requiredFor, REQUIRED_ENV_VARS. cbn [getProp].
    destruct ("all" =? env); [cbn; intuition discriminate|].
    destruct ("production" =? env); [cbn; intuition discriminate|].
    destruct ("development" =? env); cbn; intuition discriminate.
Qed.

(** X24.  What the validation reports.  When [validateEnvironment]
    throws, either [NODE_ENV] names an inherited property and the
    exception is a TypeError, or it is the error whose message lists,
    joined by a comma and a space, exactly the required variables that
    are unset or empty, in the order they are declared (universal ones
    first), followed by the hint and the environment's name. *)
Theorem validateEnvironment_reports (processEnv : Env) (e : Exception) :
  validateEnvironment processEnv = Throw e ->
  let env := nodeEnvOf processEnv in
  (In env objectPrototypeKeys /\ exists m, e = TypeError m)
  \/ (~ In env objectPrototypeKeys
      /\ exists missing,
           e = Error (missingMessage missing env)
           /\ missing = List.filter (unset processEnv) (requiredFor env)
           /\ missing <> []
           /\ forall varName,
                In varName missing
                <-> In varName (requiredFor env)
                    /\ unset processEnv varName = true).
Proof.
  rewrite validateEnvironment_spec. cbv zeta.
  destruct (existsb _ objectPrototypeKeys) eqn:Hin.
  - intros [= <-]. left. split; [now apply inherited_spec|eauto].
  - destruct (List.filter _ _) as [|x missing] eqn:Hm; [discriminate|].
    intros [= <-]. right. split.
    { rewrite <- inherited_spec. congruence. }
    exists (x :: missing). split; [reflexivity|]. split; [reflexivity|].
    split; [discriminate|]. intros varName. rewrite <- Hm. apply filter_In.
Qed.

Lemma unset_false (env : Env) (k : string) :
  unset env k = false <-> exists v, getProp env k = Some v /\ v <> "".
Proof.
  unfold unset. destruct (getProp env k) as [v|].
  - destruct (String.eqb_spec v "") as [->|Hne].
    + split; [discriminate|]. intros (v & [= <-] & H). contradiction.
    + split; [eauto|reflexivity].
  - split; [discriminate|]. intros (v & [=] & _).
Qed.

Lemma applyDefaults_keeps defaults env k v :
  getProp env k = Some v -> v <> "" ->
  getProp (applyDefaults defaults env) k = Some v.
Proof.
  revert env. induction defaults as [|[k' d] rest IH]; intros env Hv Hne;
    [exact Hv|].
  cbn [applyDefaults fold_left fst snd]. apply IH; [|exact Hne].
  destruct (unset env k') eqn:Hu; [|exact Hv].
  destruct (String.eqb_spec k' k) as [->|Hk].
  - unfold unset in Hu. rewrite Hv in Hu.
    apply String.eqb_eq in Hu. contradiction.
  - now rewrite getProp_setProp_ne.
Qed.

Lemma applyDefaults_other defaults env k :
  ~ In k (List.map fst defaults) ->
  getProp (applyDefaults defaults env) k = getProp env k.
Proof.
  revert env. induction defaults as [|[k' d] rest IH]; intros env Hk;
    [reflexivity|].
  cbn [List.map fst In] in Hk.
  cbn [applyDefaults fold_left fst snd].
  change (fold_left _ rest ?e) with (applyDefaults rest e).
  rewrite IH by tauto.
  destruct (unset env k'); [|reflexivity].
  apply getProp_setProp_ne. tauto.
Qed.

Lemma applyDefaults_fills defaults env k d :
  unset env k = true -> getProp defaults k = Some d -> d <> "" ->
  getProp (applyDefaults defaults env) k = Some d.
Proof.
  revert env. induction defaults as [|[k' d'] rest IH]; intros env Hu Hd Hne;
    [discriminate|].
  cbn [getProp] in Hd.
  cbn [applyDefaults fold_left fst snd].
  change (fold_left _ rest ?e) with (applyDefaults rest e).
  destruct (String.eqb_spec k' k) as [->|Hk].
  - injection Hd as ->. rewrite Hu.
    apply applyDefaults_keeps; [apply getProp_setProp_eq|exact Hne].
  - apply IH; [|exact Hd|exact Hne].
    destruct (unset env k'); [|exact Hu].
    unfold unset in *. now rewrite getProp_setProp_ne.
Qed.

Lemma applyDefaults_set defaults env :
  Forall (fun entry => unset env (fst entry) = false) defaults ->
  applyDefaults defaults env = env.
Proof.
  induction 1 as [|[k d] rest Hk _ IH]; [reflexivity|].
  cbn [applyDefaults fold_left fst snd]. cbn [fst] in Hk. now rewrite Hk.
Qed.

Lemma getProp_Some_In {V : Type} (props : list (string * V)) (k : string) :
  In k (List.map fst props) -> exists v, getProp props k = Some v /\ In (k, v) props.
Proof.
  induction props as [|[k' v'] rest IH]; [contradiction|].
  cbn [List.map fst In getProp].
  destruct (String.eqb_spec k' k) as [->|Hk]; [eauto|].
  intros [H|H]; [contradiction|]. destruct (IH H) as (v & Hv & Hin). eauto.
Qed.

Lemma applyDefaults_all_set defaults env :
  Forall (fun entry => snd entry <> "") defaults ->
  Forall (fun entry => unset (applyDefaults defaults env) (fst entry) = false)
         defaults.
Proof.
  intros Hne. apply List.Forall_forall. intros [k d] Hin. cbn [fst].
  apply unset_false.
  destruct (unset env k) eqn:Hu.
  - destruct (getProp_Some_In defaults k) as (d' & Hd' & Hin').
    { apply in_map_iff. now exists (k, d). }
    exists d'. assert (d' <> "") as Hd'ne.
    { apply (proj1 (List.Forall_forall _ _) Hne (k, d') Hin'). }
    split; [|exact Hd'ne]. now apply applyDefaults_fills.
  - apply unset_false in Hu as (v & Hv & Hvne). exists v.
    split; [|exact Hvne]. now apply applyDefaults_keeps.
Qed.

Lemma DEFAULT_VALUES_nonempty :
  Forall (fun entry : string * string => snd entry <> "") DEFAULT_VALUES.
Proof.
  apply List.Forall_forall. intros entry Hin.
  assert (forallb (fun entry : string * string => negb (snd entry =? ""))
            DEFAULT_VALUES = true) as Hall by reflexivity.
  pose proof (proj1 (forallb_forall _ _) Hall entry Hin) as H.
  cbv beta in H. intros Heq. rewrite Heq in H. discriminate H.
Qed.

(** X25.  [setDefaults] fills gaps only (lines 86-92).  A variable that
    is set and not empty keeps its value; a variable that is unset or
    empty and has a default gets that default; a variable without a
    default is left as it is, set or not.  Applying the defaults twice is
    the same as applying them once. *)
Theorem setDefaults_fills_only_gaps (processEnv : Env) :
  (forall varName value,
      getProp processEnv varName = Some value -> value <> "" ->
      getProp (setDefaults processEnv) varName = Some value)
  /\ (forall varName value,
         unset processEnv varName = true ->
         getProp DEFAULT_VALUES varName = Some value ->
         getProp (setDefaults processEnv) varName = Some value)
  /\ (forall varName,
         getProp DEFAULT_VALUES varName = None ->
         getProp (setDefaults processEnv) varName = getProp processEnv varName)
  /\ setDefaults (setDefaults processEnv) = setDefaults processEnv.
Proof.
  unfold setDefaults. split; [|split; [|split]].
  - intros varName value. apply applyDefaults_keeps.
  - intros varName value Hu Hd. apply applyDefaults_fills; [exact Hu|exact Hd|].
    apply getProp_In in Hd.
    apply (proj1 (List.Forall_forall _ _) DEFAULT_VALUES_nonempty _ Hd).
  - intros varName Hnone. apply applyDefaults_other. intros Hin.
    destruct (getProp_Some_In DEFAULT_VALUES varName Hin) as (v & Hv & _).
    congruence.
  - apply applyDefaults_set, applyDefaults_all_set, DEFAULT_VALUES_nonempty.
Qed.

Lemma requiredFor_NODE_ENV env : In "NODE_ENV" (requiredFor env).
Proof. unfold requiredFor. apply in_or_app. left. cbn. auto. Qed.

(** What [getEnvVar] returns for a variable that is set and not empty. *)
Lemma getEnvVar_set (env : Env) (varName value : string)
    (defaultValue : option string) :
  getProp env varName = Some value -> value <> "" ->
  getEnvVar env varName defaultValue = Ok (EnvString value).
Proof.
  intros Hv Hne. unfold getEnvVar, envLookup. rewrite Hv.
  cbn [truthyEnv]. apply String.eqb_neq in Hne. rewrite Hne.
  now destruct defaultValue.
Qed.

Lemma DEFAULT_VALUES_not_inherited varName :
  In varName objectPrototypeKeys -> ~ In varName (List.map fst DEFAULT_VALUES).
Proof.
  intros Hin Hd. cbn in Hin, Hd.
  repeat (destruct Hin as [<-|Hin];
          [repeat (destruct Hd as [Hd|Hd]; [discriminate Hd|]); exact Hd|]).
  exact Hin.
Qed.

(** X26.  After construction (lines 46-49 and 202-210).  When
    [new EnvironmentConfig()] returns, it has only added defaults, and
    [NODE_ENV] is as it was: validation has already refused an unset
    [NODE_ENV], so its default is never applied.  Every variable that is
    required for the environment or has a default is then set and not
    empty, so [getEnvVar] returns its string without needing a default
    value.  For a name without a default that was unset or empty,
    [getEnvVar] without a default value throws the required-variable
    error, unless the name is one that [Object.prototype] answers to and
    no variable has it: then [process.env[varName]] is the inherited
    member, which is truthy, and [getEnvVar] returns that instead of a
    string. *)
Theorem EnvironmentConfig_constructed (processEnv env' : Env) :
  EnvironmentConfig processEnv = Ok env' ->
  env' = setDefaults processEnv
  /\ getProp env' "NODE_ENV" = getProp processEnv "NODE_ENV"
  /\ (forall varName,
         In varName (requiredFor (nodeEnvOf processEnv))
         \/ In varName (List.map fst DEFAULT_VALUES) ->
         exists value,
           getEnvVar env' varName None = Ok (EnvString value) /\ value <> "")
  /\ (forall varName,
         getProp DEFAULT_VALUES varName = None ->
         unset processEnv varName = true ->
         ~ In varName objectPrototypeKeys
         \/ getProp processEnv varName = Some "" ->
         getEnvVar env' varName None = Throw (requiredNotSet varName))
  /\ (forall varName,
         In varName objectPrototypeKeys ->
         getProp processEnv varName = None ->
         getEnvVar env' varName None = Ok (EnvInherited varName)).
Proof.
  unfold EnvironmentConfig. rewrite validateEnvironment_spec. cbv zeta.
  destruct (existsb _ objectPrototypeKeys); [discriminate|].
  destruct (List.filter _ _) eqn:Hmissing; [|discriminate].
  cbn [bind]. intros [= <-].
  apply filter_nil_Forall in Hmissing.
  pose proof (proj1 (List.Forall_forall _ _) Hmissing) as Hset.
  split; [reflexivity|].
  assert (Hkept : forall varName, unset processEnv varName = false ->
            getProp (setDefaults processEnv) varName = getProp processEnv varName
            /\ unset (setDefaults processEnv) varName = false).
  { intros varName Hu. pose proof Hu as Hu'.
    apply unset_false in Hu as (v & Hv & Hne).
    assert (getProp (setDefaults processEnv) varName = Some v) as Hv'
      by now apply applyDefaults_keeps.
    split; [congruence|]. apply unset_false. eauto. }
  split; [apply Hkept, Hset, requiredFor_NODE_ENV|].
  split; [|split].
  - intros varName Hin.
    assert (unset (setDefaults processEnv) varName = false) as Hu.
    { destruct Hin as [Hin|Hin]; [apply Hkept, Hset, Hin|].
      apply in_map_iff in Hin as (entry & <- & Hin).
      exact (proj1 (List.Forall_forall _ _)
               (applyDefaults_all_set DEFAULT_VALUES processEnv
                  DEFAULT_VALUES_nonempty) entry Hin). }
    apply unset_false in Hu as (v & Hv & Hne).
    exists v. split; [now apply getEnvVar_set|exact Hne].
  - intros varName Hnone Hu Hcase.
    assert (Hsame : getProp (setDefaults processEnv) varName
                    = getProp processEnv varName).
    { unfold setDefaults. apply applyDefaults_other. intros Hin.
      destruct (getProp_Some_In DEFAULT_VALUES varName Hin) as (v & Hv & _).
      congruence. }
    unfold getEnvVar, envLookup. rewrite Hsame.
    unfold unset in Hu.
    destruct (getProp processEnv varName) as [v|].
    + cbn [truthyEnv]. now rewrite Hu.
    + destruct Hcase as [Hno|Hempty]; [|discriminate Hempty].
      destruct (existsb (String.eqb varName) objectPrototypeKeys) eqn:Hex;
        [|reflexivity].
      exfalso. apply Hno. apply existsb_exists in Hex as (k & Hk & Heq).
      apply String.eqb_eq in Heq. now subst k.
  - intros varName Hin Hnone.
    unfold getEnvVar, envLookup, setDefaults.
    rewrite applyDefaults_other by now apply DEFAULT_VALUES_not_inherited.
    rewrite Hnone.
    assert (existsb (String.eqb varName) objectPrototypeKeys = true) as ->;
      [|reflexivity].
    apply existsb_exists. exists varName. split; [exact Hin|].
    apply String.eqb_refl.
Qed.

(** ** Log levels *)

Lemma indexOf_range (l : list string) (x : string) :
  (In x l -> 0 <= indexOf l x)%Z /\ (~ In x l -> indexOf l x = -1)%Z.
Proof.
  induction l as [|y rest [IH1 IH2]]; [split; [contradiction|reflexivity]|].
  cbn [indexOf In]. destruct (String.eqb_spec y x) as [->|Hne].
  - split; [lia|]. intros H. exfalso. auto.
  - split.
    + intros [H|H]; [contradiction|]. specialize (IH1 H).
      destruct (Z.ltb_spec (indexOf rest x) 0); lia.
    + intros H. rewrite IH2 by tauto. reflexivity.
Qed.

Lemma indexOf_lookup (l : list string) (i : nat) (x : string) :
  NoDup l -> l !! i = Some x -> indexOf l x = Z.of_nat i.
Proof.
  intros Hl. revert i. induction Hl as [|y rest Hy _ IH]; intros i Hi;
    [discriminate|].
  cbn [indexOf]. destruct i as [|i].
  - injection Hi as ->. now rewrite String.eqb_refl.
  - cbn in Hi. destruct (String.eqb_spec y x) as [->|_].
    + exfalso. apply Hy. eapply list_elem_of_lookup_2, Hi.
    + rewrite (IH i Hi). destruct (Z.ltb_spec (Z.of_nat i) 0); lia.
Qed.

(** X27.  Log level filtering (lines 72-77).  With the levels ordered
    [error], [warn], [info], [debug], a message is logged exactly when
    its level comes no later than the configured one.  A configured
    level that is none of the four silences all four, errors included
    (the lookup gives -1); a message level that is none of the four is
    always logged. *)
Theorem shouldLog_levels (logLevel level : string) :
  let levels := ["error"; "warn"; "info"; "debug"] in
  (forall i j : nat,
      levels !! i = Some level -> levels !! j = Some logLevel ->
      shouldLog logLevel level = bool_decide (i <= j))
  /\ (~ In logLevel levels -> In level levels ->
      shouldLog logLevel level = false)
  /\ (~ In level levels -> shouldLog logLevel level = true).
Proof.
  cbv zeta. split; [|split].
  - intros i j Hi Hj. unfold shouldLog. cbv zeta.
    assert (NoDup ["error"; "warn"; "info"; "debug"]) as Hnodup
      by (apply (bool_decide_eq_true_1 (NoDup ["error"; "warn"; "info"; "debug"]));
          reflexivity).
    rewrite (indexOf_lookup _ i level Hnodup Hi),
      (indexOf_lookup _ j logLevel Hnodup Hj).
    destruct (Z.leb_spec (Z.of_nat i) (Z.of_nat j)).
    + rewrite bool_decide_eq_true_2; [reflexivity|lia].
    + rewrite bool_decide_eq_false_2; [reflexivity|lia].
  - intros Hno Hyes. unfold shouldLog. cbv zeta.
    destruct (indexOf_range ["error"; "warn"; "info"; "debug"] logLevel) as [_ ->];
      [|exact Hno].
    destruct (indexOf_range ["error"; "warn"; "info"; "debug"] level) as [H _].
    specialize (H Hyes). apply Z.leb_gt. lia.
  - intros Hno. unfold shouldLog. cbv zeta.
    destruct (indexOf_range ["error"; "warn"; "info"; "debug"] level) as [_ ->];
      [|exact Hno].
    apply Z.leb_le.
    destruct (indexOf_range ["error"; "warn"; "info"; "debug"] logLevel) as [H1 H2].
    destruct (in_dec string_dec logLevel ["error"; "warn"; "info"; "debug"]) as [Hin|Hin].
    + specialize (H1 Hin). lia.
    + rewrite H2 by exact Hin. lia.
Qed.

(** ** Log entries *)

(** The spread: the last writer of a key wins. *)
Lemma spreadInto_lookup (data base : list (string * JSON)) (k : string) :
  NoDup (List.map fst data) ->
  getProp (spreadInto base data) k
  = match getProp data k with
    | Some v => Some v
    | None => getProp base k
    end.
Proof.
  unfold spreadInto. revert base.
  induction data as [|[k' v'] rest IH]; intros base Hnd; [reflexivity|].
  cbn [List.map fst] in Hnd. apply NoDup_cons in Hnd as [Hk' Hnd].
  cbn [fold_left fst snd getProp]. rewrite IH by exact Hnd.
  destruct (String.eqb_spec k' k) as [->|Hne].
  - assert (getProp rest k = None) as ->.
    { destruct (getProp rest k) eqn:E; [|reflexivity].
      exfalso. apply Hk'. apply list_elem_of_In, in_map_iff.
      eexists (k, _). split; [reflexivity|]. eapply getProp_In, E. }
    apply getProp_setProp_eq.
  - destruct (getProp rest k); [reflexivity|].
    now apply getProp_setProp_ne.
Qed.

(** X28.  The fields of a log entry (lines 86-103).  The caller's data
    wins over the standard fields: every property of [data] is in the
    entry with its value, [timestamp], [level] and [message] included,
    and a standard field keeps its value only when [data] has no property
    of that name.  [correlationId] is [data.conversationId] when that is
    truthy, else [data.sessionId] when that is truthy, else whatever
    [data] itself carries under that name. *)
Theorem createLogEntry_fields
    (timestamp nodeEnv level message : string) (data : list (string * JSON)) :
  NoDup (List.map fst data) ->
  let logEntry := createLogEntry timestamp nodeEnv level message data in
  let standard :=
    [("timestamp", JString timestamp); ("level", JString level);
     ("message", JString message); ("environment", JString nodeEnv);
     ("service", JString "harmony-assistant")] in
  (forall key, key <> "correlationId" ->
     getProp logEntry key
     = match getProp data key with
       | Some v => Some v
       | None => getProp standard key
       end)
  /\ getProp logEntry "correlationId"
     = match orElse (getProp data "conversationId") (getProp data "sessionId") with
       | Some v => if truthy v then Some v else getProp data "correlationId"
       | None => getProp data "correlationId"
       end.
Proof.
  intros Hnd. cbv zeta. unfold createLogEntry.
  set (standard := [("timestamp", JString timestamp); _; _; _; _]).
  split.
  - intros key Hkey.
    destruct (orElse _ _) as [v|]; [destruct (truthy v)|];
      rewrite ?getProp_setProp_ne by congruence;
      now apply spreadInto_lookup.
  - destruct (orElse _ _) as [v|]; [destruct (truthy v)|];
      rewrite ?getProp_setProp_eq; try reflexivity;
      rewrite spreadInto_lookup by exact Hnd;
      now destruct (getProp data "correlationId").
Qed.

(** ** The logger's methods *)

(** The standard fields of an entry whose data does not name them. *)
Lemma createLogEntry_standard timestamp env level message data key :
  NoDup (List.map fst data) ->
  key <> "correlationId" ->
  getProp data key = None ->
  getProp (createLogEntry timestamp env level message data) key
  = getProp [("timestamp", JString timestamp); ("level", JString level);
             ("message", JString message); ("environment", JString env);
             ("service", JString "harmony-assistant")] key.
Proof.
  intros Hnd Hkey Hnone. unfold createLogEntry.
  destruct (orElse _ _) as [v|]; [destruct (truthy v)|];
    rewrite ?getProp_setProp_ne by congruence;
    rewrite spreadInto_lookup by exact Hnd; now rewrite Hnone.
Qed.

(** What the caller's data holds is in the entry. *)
Lemma createLogEntry_data timestamp env level message data key v :
  NoDup (List.map fst data) ->
  key <> "correlationId" ->
  getProp data key = Some v ->
  getProp (createLogEntry timestamp env level message data) key = Some v.
Proof.
  intros Hnd Hkey Hv. unfold createLogEntry.
  destruct (orElse _ _) as [w|]; [destruct (truthy w)|];
    rewrite ?getProp_setProp_ne by congruence;
    rewrite spreadInto_lookup by exact Hnd; now rewrite Hv.
Qed.

Lemma shouldLog_debug_info logLevel :
  shouldLog logLevel "debug" = true -> shouldLog logLevel "info" = true.
Proof.
  unfold shouldLog. cbv zeta.
  change (indexOf ["error"; "warn"; "info"; "debug"] "debug") with 3%Z.
  change (indexOf ["error"; "warn"; "info"; "debug"] "info") with 2%Z.
  rewrite !Z.leb_le. lia.
Qed.

Section LoggerProperties.

Variable clock : nat -> Z.
Variable toISOString : Z -> string.
Variable toUpperCase : string -> string.
Variable stack : Exception -> string.
Variable config : EnvConfig.

Local Abbreviation logger_info :=
  (StructuredLogger.info clock toISOString toUpperCase config).
Local Abbreviation logger_debug :=
  (StructuredLogger.debug clock toISOString toUpperCase config).
Local Abbreviation logger_error :=
  (StructuredLogger.error clock toISOString toUpperCase stack config).
Local Abbreviation logger_output :=
  (StructuredLogger.output toUpperCase config).
Local Abbreviation logger_trackEvent :=
  (StructuredLogger.trackEvent clock toISOString toUpperCase config).
Local Abbreviation line := (lineOf toUpperCase config).

Lemma output_string logEntry level n :
  getProp logEntry "level" = Some (JString level) ->
  logger_output logEntry n = ([ConsoleLog (line logEntry level)], n, Ok tt).
Proof.
  intros Hlevel. unfold StructuredLogger.output, lineOf.
  destruct (enableStructuredLogging config); [reflexivity|].
  now rewrite Hlevel.
Qed.

(** A new entry, printed: one clock reading, one line. *)
Lemma newLogEntry_output level message data n :
  NoDup (List.map fst data) ->
  getProp data "level" = None ->
  bindL (StructuredLogger.newLogEntry clock toISOString config level message data)
        logger_output n
  = ([ConsoleLog
        (line (createLogEntry (toISOString (clock n)) (nodeEnv config)
                 level message data) level)],
     S n, Ok tt).
Proof.
  intros Hnd Hnone.
  unfold StructuredLogger.newLogEntry.
  unfold bindL, StructuredLogger.now, retL. cbn [fst snd app].
  rewrite (output_string _ level); [reflexivity|].
  rewrite createLogEntry_standard by (assumption || discriminate).
  reflexivity.
Qed.

(** A level method on data that does not name the level: it returns,
    having printed one line if the level is enabled. *)
Lemma info_run message data n :
  NoDup (List.map fst data) ->
  getProp data "level" = None ->
  logger_info message data n
  = (if shouldLog (logLevel config) "info"
     then [ConsoleLog
             (line (createLogEntry (toISOString (clock n)) (nodeEnv config)
                      "info" message data) "info")]
     else [],
     if shouldLog (logLevel config) "info" then S n else n,
     Ok tt).
Proof.
  intros Hnd Hnone. unfold StructuredLogger.info.
  destruct (shouldLog (logLevel config) "info"); cbn [negb]; [|reflexivity].
  now apply newLogEntry_output.
Qed.

Lemma debug_run message data n :
  NoDup (List.map fst data) ->
  getProp data "level" = None ->
  logger_debug message data n
  = (if shouldLog (logLevel config) "debug"
     then [ConsoleLog
             (line (createLogEntry (toISOString (clock n)) (nodeEnv config)
                      "debug" message data) "debug")]
     else [],
     if shouldLog (logLevel config) "debug" then S n else n,
     Ok tt).
Proof.
  intros Hnd Hnone. unfold StructuredLogger.debug.
  destruct (shouldLog (logLevel config) "debug"); cbn [negb]; [|reflexivity].
  now apply newLogEntry_output.
Qed.

Lemma error_run message data error n :
  let logData :=
    match error with
    | Some error =>
        setProp (spreadInto [] data) "error"
          (JObject [("name", JString (errorName error));
                    ("message", JString (errorMessage error));
                    ("stack", JString (stack error))])
    | None => spreadInto [] data
    end in
  NoDup (List.map fst logData) ->
  getProp logData "level" = None ->
  logger_error message data error n
  = (if shouldLog (logLevel config) "error"
     then [ConsoleLog
             (line (createLogEntry (toISOString (clock n)) (nodeEnv config)
                      "error" message logData) "error")]
     else [],
     if shouldLog (logLevel config) "error" then S n else n,
     Ok tt).
Proof.
  cbv zeta. intros Hnd Hnone. unfold StructuredLogger.error.
  destruct (shouldLog (logLevel config) "error"); cbn [negb]; [|reflexivity].
  now apply newLogEntry_output.
Qed.

(** Sequencing after a step that returned. *)
Lemma bindL_Ok {A B : Type} (m : Logging A) (k : A -> Logging B) n t n' a :
  m n = (t, n', Ok a) ->
  bindL m k n
  = (t ++ eventsOf (k a n'), clockReads (k a n'), outcomeOf (k a n')).
Proof. intros H. unfold bindL. now rewrite H. Qed.

Lemma bindL_now {B : Type} (k : Z -> Logging B) n :
  bindL (StructuredLogger.now clock) k n = k (clock n) (S n).
Proof.
  unfold bindL, StructuredLogger.now. cbn [app].
  now destruct (k (clock n) (S n)) as [[t n'] r].
Qed.

Lemma bindL_Throw {A B : Type} (m : Logging A) (k : A -> Logging B) n t n' e :
  m n = (t, n', Throw e) -> bindL m k n = (t, n', Throw e).
Proof. intros H. unfold bindL. now rewrite H. Qed.

Lemma tryCatch_Ok {A : Type} (body : Logging A) handler n t n' a :
  body n = (t, n', Ok a) -> tryCatch body handler n = (t, n', Ok a).
Proof. intros H. unfold tryCatch. now rewrite H. Qed.

Lemma tryCatch_Throw {A : Type} (body : Logging A) handler n t n' e :
  body n = (t, n', Throw e) ->
  tryCatch body handler n
  = (t ++ eventsOf (handler e n'), clockReads (handler e n'),
     outcomeOf (handler e n')).
Proof. intros H. unfold tryCatch. now rewrite H. Qed.

(** The notes for the analytics services: [debug] lines, two at most. *)
Lemma sendToAnalytics_run eventData n :
  exists lines n',
    StructuredLogger.sendToAnalytics clock toISOString toUpperCase config
      eventData n
    = (List.map ConsoleLog lines, n', Ok tt)
    /\ length lines <= 2
    /\ (shouldLog (logLevel config) "debug" = false -> lines = []).
Proof.
  unfold StructuredLogger.sendToAnalytics.
  assert (Hstep : forall (flag : bool) message m,
            exists lines m',
              (if flag
               then logger_debug message [("eventData", JObject eventData)]
               else retL tt) m
              = (List.map ConsoleLog lines, m', Ok tt)
              /\ length lines <= 1
              /\ (shouldLog (logLevel config) "debug" = false -> lines = [])).
  { intros flag message m. destruct flag.
    - rewrite debug_run; [|cbn; apply NoDup_singleton|reflexivity].
      destruct (shouldLog (logLevel config) "debug").
      + eexists [_], _. split; [reflexivity|]. split; [cbn; lia|discriminate].
      + exists [], m. repeat split. cbn. lia.
    - exists [], m. repeat split. cbn. lia. }
  destruct (Hstep (configured (analyticsEnabled config) (googleAnalyticsId config))
              "Would send to Google Analytics" n)
    as (lines1 & n1 & Hrun1 & Hlen1 & Hnone1).
  destruct (Hstep (configured (analyticsEnabled config) (mixpanelToken config))
              "Would send to Mixpanel" n1)
    as (lines2 & n2 & Hrun2 & Hlen2 & Hnone2).
  exists (lines1 ++ lines2), n2.
  rewrite (bindL_Ok _ _ _ _ _ _ Hrun1), Hrun2.
  unfold eventsOf, clockReads, outcomeOf. cbn [fst snd].
  rewrite List.map_app. split; [reflexivity|].
  split; [rewrite length_app; lia|].
  intros H. now rewrite Hnone1, Hnone2.
Qed.

(** X29.  Analytics events go through the log (lines 179-215).
    [trackEvent] never throws.  It writes to the console only when
    analytics are enabled and the configured level lets [info] through:
    at level [warn] or [error], or at a level that is none of the four,
    an event leaves no trace at all.  When it writes, the first line is
    the [info] entry with message [Analytics Event] that carries the
    event, its type and its properties; the lines for the analytics
    services follow at [debug] only, two at most. *)
Theorem trackEvent_outputs
    (eventType : string) (properties context : list (string * JSON)) (n : nat) :
  let run := logger_trackEvent eventType properties context n in
  outcomeOf run = Ok tt
  /\ (eventsOf run <> []
      <-> enableChatAnalytics config = true
          /\ shouldLog (logLevel config) "info" = true)
  /\ length (eventsOf run) <= 3
  /\ (shouldLog (logLevel config) "debug" = false -> length (eventsOf run) <= 1)
  /\ (enableChatAnalytics config = true ->
      shouldLog (logLevel config) "info" = true ->
      exists logEntry eventData rest,
        eventsOf run = ConsoleLog (line logEntry "info") :: rest
        /\ getProp logEntry "level" = Some (JString "info")
        /\ getProp logEntry "message" = Some (JString "Analytics Event")
        /\ getProp logEntry "analytics" = Some (JObject eventData)
        /\ getProp eventData "eventType" = Some (JString eventType)
        /\ getProp eventData "properties" = Some (JObject properties)).
Proof.
  cbv zeta. unfold StructuredLogger.trackEvent.
  destruct (enableChatAnalytics config); cbn [negb].
  2:{ unfold retL, eventsOf, outcomeOf. cbn [fst snd length].
      repeat split; try lia; try discriminate; try tauto. }
  rewrite bindL_now.
  set (eventData := [("eventType", JString eventType); _; _]).
  assert (Hsingle : NoDup (List.map fst [("analytics", JObject eventData)]))
    by (cbn; apply NoDup_singleton).
  erewrite bindL_Ok; [|apply info_run; [exact Hsingle|reflexivity]].
  match goal with
  | |- context [StructuredLogger.sendToAnalytics _ _ _ _ ?d ?m] =>
      destruct (sendToAnalytics_run d m) as (lines & n' & -> & Hlen & Hnone)
  end.
  unfold eventsOf, clockReads, outcomeOf. cbn [fst snd].
  split; [reflexivity|].
  destruct (shouldLog (logLevel config) "info") eqn:Hinfo.
  - split; [split; [auto|discriminate]|].
    cbn [app length]. rewrite length_map.
    split; [lia|]. split; [intros H; rewrite (Hnone H); cbn; lia|].
    intros _ _. do 3 eexists. split; [reflexivity|].
    split; [apply createLogEntry_standard; auto; discriminate|].
    split; [apply createLogEntry_standard; auto; discriminate|].
    split; [apply createLogEntry_data; auto; discriminate|].
    split; reflexivity.
  - assert (shouldLog (logLevel config) "debug" = false) as Hdbg.
    { destruct (shouldLog (logLevel config) "debug") eqn:E; [|reflexivity].
      apply shouldLog_debug_info in E. congruence. }
    rewrite (Hnone Hdbg). cbn [app List.map length].
    split; [split; [intros H; now contradiction H|intros [_ H]; discriminate H]|].
    split; [lia|]. split; [lia|]. discriminate.
Qed.

End LoggerProperties.

(** ** The health check *)

Section HealthProperties.

Variable clock : nat -> Z.
Variable toISOString : Z -> string.
Variable toUpperCase : string -> string.
Variable stack : Exception -> string.
Variable logger : EnvConfig.
Variable config : EnvConfig.
Variable queryRaw : string -> result unit.
Variable npm_package_version : option string.
Variable uptime : JSON.

Local Abbreviation health :=
  (loader clock toISOString toUpperCase stack logger config queryRaw
     npm_package_version uptime).

(** X30.  The health check always answers (lines 11-75).  [loader] never
    rejects.  It sends the database one query.  When the query succeeds
    the response has status 200 and reports [healthy], the database
    connected and both checks true; when the query fails with an error
    the response has status 503 and reports [unhealthy], the error's
    message and the database check false.  Both responses forbid caching.
    The check writes at most one line to the console: a [debug] line when
    it passes and the logger lets [debug] through, an [error] line when
    it fails and the logger lets [error] through. *)
Theorem loader_responds (n : nat) :
  let run := health n in
  exists response,
    outcomeOf run = Ok response
    /\ queries (eventsOf run) = ["SELECT 1"]
    /\ length (consoleLines (eventsOf run)) <= 1
    /\ getProp (resp_headers response) "Cache-Control" = Some "no-cache"
    /\ match queryRaw "SELECT 1" with
       | Ok _ =>
           resp_status response = 200%Z
           /\ getProp (resp_body response) "status" = Some (JString "healthy")
           /\ getProp (resp_body response) "database"
              = Some (JString "connected")
           /\ getProp (resp_body response) "checks"
              = Some (JObject [("database", JBool true);
                               ("environment", JBool true)])
           /\ (consoleLines (eventsOf run) <> []
               <-> shouldLog (logLevel logger) "debug" = true)
       | Throw e =>
           resp_status response = 503%Z
           /\ getProp (resp_body response) "status" = Some (JString "unhealthy")
           /\ getProp (resp_body response) "error" = Some (JString (message e))
           /\ getProp (resp_body response) "checks"
              = Some (JObject [("database", JBool false);
                               ("environment", JBool true)])
           /\ (consoleLines (eventsOf run) <> []
               <-> shouldLog (logLevel logger) "error" = true)
       end.
Proof.
  cbv zeta. unfold loader. rewrite bindL_now.
  destruct (queryRaw "SELECT 1") as [[]|e] eqn:Hquery.
  - erewrite tryCatch_Ok.
    2:{ erewrite bindL_Ok; [|reflexivity].
        erewrite bindL_Ok; [|reflexivity].
        rewrite !bindL_now.
        erewrite bindL_Ok;
          [|apply debug_run; [apply (bool_decide_eq_true_1 (NoDup _))|];
            reflexivity].
        unfold retL, eventsOf, clockReads, outcomeOf. cbn [fst snd app].
        reflexivity. }
    unfold eventsOf, outcomeOf. cbn [fst snd].
    eexists. split; [reflexivity|].
    destruct (shouldLog (logLevel logger) "debug");
      cbn [queries consoleLines app length];
      (split; [reflexivity|]); (split; [lia|]); (split; [reflexivity|]);
      (split; [reflexivity|]); (split; [reflexivity|]);
      (split; [reflexivity|]); (split; [reflexivity|]);
      split; try discriminate; try reflexivity.
    intros H. now contradiction H.
  - erewrite tryCatch_Throw.
    2:{ erewrite bindL_Ok; [|reflexivity].
        erewrite bindL_Throw; [|reflexivity].
        unfold eventsOf, clockReads, outcomeOf. cbn [fst snd app].
        reflexivity. }
    rewrite !bindL_now.
    erewrite bindL_Ok;
      [|apply error_run; [apply (bool_decide_eq_true_1 (NoDup _))|];
        reflexivity].
    rewrite !bindL_now.
    unfold retL, eventsOf, clockReads, outcomeOf. cbn [fst snd app].
    eexists. split; [reflexivity|].
    destruct (shouldLog (logLevel logger) "error");
      cbn [queries consoleLines app length];
      (split; [reflexivity|]); (split; [lia|]); (split; [reflexivity|]);
      (split; [reflexivity|]); (split; [reflexivity|]);
      (split; [reflexivity|]); (split; [reflexivity|]);
      split; try discriminate; try reflexivity.
    intros H. now contradiction H.
Qed.

End HealthProperties.

(* ===================================================================== *)
(** * The properties at work *)
(* ===================================================================== *)

(** Section 8 of the specification, schema cleaning: a free-form string
    format and [additional_properties] go, ["enum"] stays. *)
Example cleanParameters_email :
  cleanParameters Samples.emailSchema = JObject [("type", JString "string")].
Proof. reflexivity. Qed.

Example cleanParameters_enum :
  cleanParameters (JObject [("type", JString "string"); ("format", JString "enum")])
  = JObject [("type", JString "string"); ("format", JString "enum")].
Proof. reflexivity. Qed.

(** On the sample store the normalizer returns what the pure one does. *)
Example transformToolsForGeminiH_agrees :
  (match transformToolsForGeminiH 5 [HRef 0] Samples.toolStore with
   | Some (newTools, h') => List.map (reify 6 h') newTools
   | None => []
   end)
  = List.map (fun tool => JObject <$> Some (transformTool tool))
      (match reify 6 Samples.toolStore (HRef 0) with
       | Some (JObject tool) => [tool]
       | _ => []
       end).
Proof. reflexivity. Qed.

Lemma transformToolsForGemini_cleans_witness :
  exists newTool,
    transformToolsForGemini [Samples.searchTool] !! 0 = Some newTool
    /\ getProp newTool "input_schema" = None
    /\ getProp newTool "parameters" = Some (cleanParameters Samples.searchSchema)
    /\ hasKey "additional_properties" (cleanParameters Samples.searchSchema) = false
    /\ hasKey "additional_properties" Samples.searchSchema = true
    /\ valueAt [AtKey "properties"; AtKey "size"; AtKey "type"]
         (cleanParameters Samples.searchSchema)
       = Some (JString "number")
    /\ valueAt [AtKey "required"; AtIndex 0]
         (cleanParameters Samples.searchSchema)
       = Some (JString "email").
Proof.
  destruct (transformToolsForGemini_cleans
              [Samples.searchTool] 0 Samples.searchTool Samples.searchSchema
              eq_refl eq_refl eq_refl)
    as (newTool & H1 & _ & H2 & H3 & _ & H4 & _ & _ & _ & _ & _ & Hleaf & _).
  exists newTool.
  split; [exact H1|]. split; [exact H2|]. split; [exact H3|].
  split; [exact H4|]. split; [reflexivity|].
  split; apply Hleaf; reflexivity.
Defined.

Lemma assistant_text_concatenation_witness :
  formatHistoryForGemini json_parse [Samples.assistantTurn]
  = Ok [textTurn "model" ("a" ++ newline ++ "b")].
Proof.
  exact (proj2 (assistant_text_concatenation json_parse
                  Samples.assistantTurn Samples.mixedBlocks
                  eq_refl eq_refl eq_refl)).
Defined.

(** C8 as stated fails: a [tool] turn whose string content is not JSON
    makes the translator throw, so the two known-role turns of this
    history get no turn at all. *)
Lemma unknown_role_filtering_counterexample :
  List.filter knownRole Samples.unparsableHistory = Samples.unparsableHistory
  /\ formatHistoryForGemini json_parse Samples.unparsableHistory
     = Throw (SyntaxError "Unexpected token in JSON")
  /\ ~ exists out,
         formatHistoryForGemini json_parse Samples.unparsableHistory = Ok out
         /\ length out = length (List.filter knownRole Samples.unparsableHistory).
Proof.
  split; [reflexivity|]. split; [reflexivity|].
  intros (out & H & _). vm_compute in H. discriminate H.
Qed.

Lemma unknown_role_filtering_witness :
  exists out,
    formatHistoryForGemini json_parse Samples.mixedRoleHistory = Ok out
    /\ length Samples.mixedRoleHistory = 5
    /\ length out = 3.
Proof.
  destruct (unknown_role_filtering json_parse Samples.mixedRoleHistory)
    as (out & H1 & _ & H2 & _).
  { repeat apply List.Forall_cons; try apply List.Forall_nil;
      try exact I; eexists; vm_compute; reflexivity. }
  exists out. split; [exact H1|]. split; [reflexivity|exact H2].
Defined.

(** C10 as stated fails: with a payload that is not JSON, or with an empty
    content list, no function-response fragment is emitted. *)
Lemma first_tool_result_only_counterexample :
  formatMessage json_parse (Samples.resultTurn "call_1" "Product not found")
  = Throw (SyntaxError "Unexpected token in JSON")
  /\ formatMessage json_parse
       (Samples.mkMessage "user" (ContentBlocks [ToolResultBlock "call_1" []]))
     = Throw (TypeError "Cannot read properties of undefined (reading 'text')")
  /\ ~ exists turn,
         formatMessage json_parse
           (Samples.resultTurn "call_1" "Product not found") = Ok (Some turn).
Proof.
  split; [reflexivity|]. split; [reflexivity|].
  intros (turn & H). vm_compute in H. discriminate H.
Qed.

Lemma first_tool_result_only_witness :
  formatMessage json_parse (Samples.resultTurn "call_1" "[1, 2]")
  = Ok (Some (functionResponseTurn (Some "call_1")
                (JArray [JNumber 1 0; JNumber 2 0])))
  /\ formatMessage json_parse Samples.laterToolResultTurn
     = Ok (Some (textTurn "user" "see below")).
Proof.
  split.
  - refine (proj1 (first_tool_result_only json_parse
                     (Samples.resultTurn "call_1" "[1, 2]") _ eq_refl eq_refl)
                  "call_1" _ _ _ eq_refl _).
    vm_compute. reflexivity.
  - refine (proj2 (proj2 (proj2
              (first_tool_result_only json_parse Samples.laterToolResultTurn
                 _ eq_refl eq_refl))) _).
    intros id content rest. discriminate.
Defined.

(** C1 as stated fails: the call is identified as [call_1], the
    function-response fragment is named [call_1], but re-encoding the
    translated [model] turn gives a tool-use block identified by the
    tool's name; no block re-encoded from any translated turn carries
    [call_1]. *)
Lemma round_trip_tool_linkage_counterexample :
  exists out,
    formatHistoryForGemini json_parse (Samples.linkageHistory "call_1") = Ok out
    /\ In (functionResponseTurn (Some "call_1")
             (JObject [("products", JArray [])])) out
    /\ Exists (fun turn =>
                 fm_content
                   (finalMessageOf
                      {| content := Some turn; finishReason := Some "TOOL_USE" |}
                      "")
                 = [ToolUseBlock "search_shop_catalog" "search_shop_catalog"
                      (JObject [("query", JString "shoes")])]) out
    /\ Forall (fun turn =>
                 Forall (fun block => block_id block <> Some "call_1")
                        (fm_content
                           (finalMessageOf
                              {| content := Some turn;
                                 finishReason := Some "TOOL_USE" |}
                              ""))) out.
Proof.
  eexists. split; [vm_compute; reflexivity|].
  split; [right; right; left; reflexivity|].
  split; [right; left; reflexivity|].
  repeat constructor; discriminate.
Qed.

Lemma round_trip_tool_linkage_witness :
  exists out v modelTurn,
    formatHistoryForGemini json_parse
      (Samples.linkageHistory "search_shop_catalog") = Ok out
    /\ In (functionResponseTurn (Some "search_shop_catalog") v) out
    /\ In modelTurn out
    /\ Exists (fun block => block_id block = Some "search_shop_catalog")
              (fm_content
                 (finalMessageOf
                    {| content := Some modelTurn; finishReason := Some "TOOL_USE" |}
                    "")).
Proof.
  set (X := "search_shop_catalog").
  destruct (round_trip_tool_linkage json_parse
              [Samples.mkMessage "user" (ContentString "find shoes")] [] []
              (Samples.callingTurn X)
              (Samples.resultTurn X ("{" ++ JSONText.quoted "products" ++ ":[]}"))
              (Samples.searchCall X) X _ _
              eq_refl (or_introl eq_refl) eq_refl eq_refl eq_refl)
    as (o1 & modelTurn & o2 & v & o3 & Hout & _ & _ & _ & Hback & _ & Hid).
  { repeat apply List.Forall_cons; try apply List.Forall_nil;
      try exact I; eexists; vm_compute; reflexivity. }
  exists (o1 ++ modelTurn :: o2 ++ functionResponseTurn (Some X) v :: o3),
    v, modelTurn.
  split; [exact Hout|]. split; [|split].
  - apply in_or_app. right. right. apply in_or_app. right. left. reflexivity.
  - apply in_or_app. right. left. reflexivity.
  - apply List.Exists_exists. eexists. split; [apply Hback|].
    apply Hid. reflexivity.
Defined.

(** Section 8 of the specification, the scenario: history
    [[{role:"user", content:"hi"}]], fragments ["Hel"] and ["lo!"], no
    function call, finish reason ["STOP"]. *)
Example scenario_hello :
  streamConversation json_parse Samples.prompts
    (Samples.resolving Samples.helloResult) Samples.hiRequest Samples.handlers
  = let finalMessage :=
      {| fm_role := "assistant"; fm_content := [TextBlock "Hello!"];
         fm_model := "gemini-2.5-pro"; fm_stop_reason := "end_turn" |} in
    ([GenerateContentStream
        (modelParams "You are a helpful assistant." [Samples.searchTool])
        [textTurn "user" "hi"];
      OnText "Hel"; OnText "lo!"; OnMessage finalMessage],
     Ok finalMessage).
Proof. reflexivity. Qed.

Lemma tool_call_exclusivity_witness :
  exists finalMessage,
    snd (streamConversation json_parse Samples.prompts
           (Samples.resolving Samples.searchingResult)
           Samples.hiRequest Samples.handlers) = Ok finalMessage
    /\ fm_content finalMessage =
         [ToolUseBlock "search_shop_catalog" "search_shop_catalog"
            (JObject [("query", JString "shoes")]);
          ToolUseBlock "get_cart" "get_cart" (JObject [])]
    /\ textsOf (fm_content finalMessage) = [].
Proof.
  destruct (tool_call_exclusivity json_parse Samples.prompts
              (Samples.resolving Samples.searchingResult)
              Samples.hiRequest Samples.handlers
              "You are a helpful assistant." [textTurn "user" "hi"]
              Samples.searchingResult _ []
              (conj eq_refl eq_refl) eq_refl eq_refl)
    as (finalMessage & Hrun & _ & Hcalls & _).
  destruct Hcalls as (Hcontent & _ & Htexts); [discriminate|].
  exists finalMessage. split; [exact Hrun|]. split; [exact Hcontent|exact Htexts].
Defined.

Lemma streaming_fragment_fidelity_witness :
  onTextCalls
    (fst (streamConversation json_parse Samples.prompts
            (Samples.resolving Samples.helloResult)
            Samples.hiRequest Samples.handlers))
  = ["Hel"; "lo!"]
  /\ snd (consumeStream Samples.handlers ["Hel"; ""; "lo!"] "") = Ok "Hello!".
Proof.
  destruct (streaming_fragment_fidelity json_parse Samples.prompts
              (Samples.resolving Samples.helloResult)
              Samples.hiRequest Samples.handlers
              "You are a helpful assistant." [textTurn "user" "hi"]
              Samples.helloResult (conj eq_refl eq_refl) eq_refl)
    as (Hcalls & _ & _ & Hacc & _).
  split; [exact Hcalls|exact Hacc].
Defined.

Lemma transport_compatibility_error_witness :
  snd (streamConversation json_parse Samples.prompts
         (Samples.rejecting Samples.polyfillError)
         Samples.hiRequest Samples.handlers) = Throw streamingUnavailable
  /\ snd (streamConversation json_parse Samples.prompts
            (Samples.rejecting Samples.quotaError)
            Samples.hiRequest Samples.handlers) = Throw Samples.quotaError.
Proof.
  split.
  - refine (proj1 (transport_compatibility_error json_parse Samples.prompts
                     (Samples.rejecting Samples.polyfillError)
                     Samples.hiRequest Samples.handlers
                     "You are a helpful assistant." [textTurn "user" "hi"]
                     Samples.polyfillError (conj eq_refl eq_refl) eq_refl) _).
    exists "Failed to construct 'TextDecoderStream': ", ".". reflexivity.
  - refine (proj1 (proj2 (transport_compatibility_error json_parse Samples.prompts
                     (Samples.rejecting Samples.quotaError)
                     Samples.hiRequest Samples.handlers
                     "You are a helpful assistant." [textTurn "user" "hi"]
                     Samples.quotaError (conj eq_refl eq_refl) eq_refl)) _).
    intros Hsig%str_includes_spec. vm_compute in Hsig. discriminate Hsig.
Defined.

Lemma transformToolsForGemini_preserves_input_witness :
  exists newTools h',
    transformToolsForGeminiH 5 [HRef 0] Samples.toolStore = Some (newTools, h')
    /\ unchanged Samples.toolStore h'
    /\ hget h' (HRef 0) "input_schema" = HRef 1
    /\ reify 6 h' (HRef 0) = reify 6 Samples.toolStore (HRef 0)
    /\ List.map (reify 6 h') newTools
       = [Some (JObject (transformTool Samples.storedTool))].
Proof.
  destruct (transformToolsForGeminiH 5 [HRef 0] Samples.toolStore)
    as [[newTools h']|] eqn:Hrun; [|vm_compute in Hrun; discriminate Hrun].
  destruct (transformToolsForGemini_preserves_input
              5 [HRef 0] Samples.toolStore newTools h' Hrun)
    as (Hunchanged & Htools & Hreify & _ & _ & Hstand).
  exists newTools, h'. split; [reflexivity|]. split; [exact Hunchanged|].
  split; [|split].
  - destruct (Htools 0 _ (or_introl eq_refl) eq_refl) as [_ ->]. reflexivity.
  - destruct (reify 6 Samples.toolStore (HRef 0)) as [schema|] eqn:Hschema;
      [|vm_compute in Hschema; discriminate Hschema].
    exact (Hreify 6 (HRef 0) schema Hschema).
  - destruct (Hstand [Samples.storedTool]) as [_ Hnew].
    + repeat constructor.
    + apply List.Forall_cons; [|apply List.Forall_nil].
      apply distinctKeysb_sound. vm_compute. reflexivity.
    + inversion Hnew as [|newTool ? rest ? Hfirst Hrest]; subst.
      inversion Hrest; subst. cbn [List.map]. now rewrite Hfirst.
Defined.

(** ** The further properties at work *)

(** The sample schema has something to remove; a plain string schema has
    not. *)
Lemma cleanParameters_fixed_point_witness :
  cleanParameters Samples.searchSchema <> Samples.searchSchema
  /\ cleanParameters (JObject [("type", JString "string")])
     = JObject [("type", JString "string")].
Proof.
  split.
  - intros [H _]%cleanParameters_fixed_point. vm_compute in H. discriminate H.
  - apply cleanParameters_fixed_point. repeat split; reflexivity.
Defined.

Lemma cleanParameters_idempotent_witness :
  cleanParameters (cleanParameters Samples.searchSchema)
  = cleanParameters Samples.searchSchema.
Proof. apply cleanParameters_idempotent. reflexivity. Defined.

Lemma cleanParameters_other_keys_witness :
  getProp (ownProps (cleanParameters (JObject Samples.strictSchema)))
    "additionalProperties" = Some (JBool false)
  /\ getProp (ownProps (cleanParameters (JObject Samples.strictSchema)))
       "additional_properties" = None.
Proof.
  split; [|reflexivity].
  destruct (cleanParameters_other_keys Samples.strictSchema
              "additionalProperties") as [Hkept _]; try discriminate.
  rewrite Hkept. reflexivity.
Defined.

(** A history translated in two halves. *)
Lemma formatHistoryForGemini_concat_witness :
  formatHistoryForGemini json_parse
    ([Samples.mkMessage "user" (ContentString "hi")] ++ [Samples.assistantTurn])
  = Ok ([textTurn "user" "hi"] ++ [textTurn "model" ("a" ++ newline ++ "b")]).
Proof.
  apply (proj1 (formatHistoryForGemini_concat json_parse
                  [Samples.mkMessage "user" (ContentString "hi")]
                  [Samples.assistantTurn])); reflexivity.
Defined.

Lemma tool_calls_override_content_witness :
  formatMessage json_parse (Samples.callingTurn "call_1")
  = Ok (Some {| role := "model";
                parts := [FunctionCallPart
                            {| fc_name := "search_shop_catalog";
                               fc_args := JObject [("query", JString "shoes")] |}] |})
  /\ formatMessage json_parse (Samples.callingTurn "call_2")
     = formatMessage json_parse (Samples.callingTurn "call_1").
Proof.
  destruct (tool_calls_override_content json_parse (Samples.callingTurn "call_1")
              eq_refl)
    as (turn & Hturn & _ & _ & _ & Hother); [discriminate|].
  split; [reflexivity|].
  rewrite Hturn. exact (Hother (Samples.callingTurn "call_2") eq_refl eq_refl).
Defined.

Lemma tool_turn_translation_witness :
  formatMessage json_parse Samples.jsonToolTurn
  = Ok (Some (functionResponseTurn (Some "search_shop_catalog")
                (JObject [("ok", JBool true)])))
  /\ formatMessage json_parse Samples.plainToolTurn
     = Throw (SyntaxError "Unexpected token in JSON").
Proof.
  split.
  - refine (proj1 (tool_turn_translation json_parse Samples.jsonToolTurn eq_refl)
                  _ _ eq_refl _).
    vm_compute. reflexivity.
  - refine (proj1 (proj2 (tool_turn_translation json_parse Samples.plainToolTurn
                            eq_refl))
                  _ _ eq_refl _).
    vm_compute. reflexivity.
Defined.

Lemma plain_text_turns_witness :
  formatMessage json_parse (Samples.mkMessage "user" (ContentString "hi"))
  = Ok (Some (textTurn "user" "hi"))
  /\ formatMessage json_parse
       (Samples.mkMessage "assistant" (ContentBlocks [TextBlock "hi"]))
     = Ok (Some (textTurn "model" "hi"))
  /\ formatMessage json_parse (Samples.mkMessage "user" (ContentData JNull))
     = Ok (Some (textTurn "user" "")).
Proof.
  split; [|split].
  - exact (proj1 (plain_text_turns json_parse
                    (Samples.mkMessage "user" (ContentString "hi"))
                    (or_introl eq_refl))
                 "hi" (or_introl eq_refl)).
  - exact (proj1 (plain_text_turns json_parse
                    (Samples.mkMessage "assistant" (ContentBlocks [TextBlock "hi"]))
                    (or_intror (conj eq_refl eq_refl)))
                 "hi" (or_intror eq_refl)).
  - refine (proj1 (proj2 (plain_text_turns json_parse
                            (Samples.mkMessage "user" (ContentData JNull))
                            (or_introl eq_refl)))
                  JNull _ _ eq_refl); discriminate.
Defined.

Lemma translated_turn_shapes_witness :
  exists out,
    formatHistoryForGemini json_parse Samples.mixedRoleHistory = Ok out
    /\ List.map role out = ["user"; "model"; "function"]
    /\ Forall (fun turn => wellFormedTurn turn = true) out.
Proof.
  destruct (formatHistoryForGemini json_parse Samples.mixedRoleHistory)
    as [out|e] eqn:Hout; [|vm_compute in Hout; discriminate Hout].
  exists out. split; [reflexivity|]. split.
  - vm_compute in Hout. injection Hout as <-. reflexivity.
  - exact (proj1 (translated_turn_shapes json_parse
                    Samples.mixedRoleHistory out Hout)).
Defined.

(** The failing history of the claims: the translation throws what its
    second turn throws. *)
Lemma formatHistoryForGemini_throws_witness :
  formatHistoryForGemini json_parse Samples.unparsableHistory
  = Throw (SyntaxError "Unexpected token in JSON").
Proof.
  apply formatHistoryForGemini_throws.
  exists [Samples.mkMessage "user" (ContentString "hi")], Samples.plainToolTurn, [].
  split; [reflexivity|]. split; [|reflexivity].
  apply List.Forall_cons; [exact I|apply List.Forall_nil].
Defined.

Lemma getSystemPrompt_fallback_witness :
  getSystemPrompt Samples.prompts "salesAssistant"
  = Ok "You are a helpful assistant.".
Proof.
  destruct (getSystemPrompt_fallback Samples.prompts "salesAssistant"
              "You are a helpful assistant." eq_refl)
    as (c & _ & _ & _ & Hdefault).
  rewrite (Hdefault eq_refl). reflexivity.
Defined.

(** A history that cannot be translated never reaches the provider. *)
Lemma streamConversation_fails_early_witness :
  streamConversation json_parse Samples.prompts
    (Samples.resolving Samples.helloResult)
    {| messages := Samples.unparsableHistory; promptType := None;
       req_tools := [] |}
    Samples.handlers
  = ([], Throw (SyntaxError "Unexpected token in JSON")).
Proof.
  eapply (proj1 (proj2 (proj2 (streamConversation_fails_early
                                 json_parse Samples.prompts
                                 (Samples.resolving Samples.helloResult) _ _))));
    reflexivity.
Defined.

Lemma streamConversation_no_candidate_witness :
  streamConversation json_parse Samples.prompts
    (Samples.resolving Samples.emptyResult) Samples.hiRequest Samples.handlers
  = ([GenerateContentStream
        (modelParams "You are a helpful assistant." [Samples.searchTool])
        [textTurn "user" "hi"];
      OnText "Hel"; OnText "lo"],
     Throw noCandidate)
  /\ onMessageCalls
       (fst (streamConversation json_parse Samples.prompts
               (Samples.resolving Samples.emptyResult)
               Samples.hiRequest Samples.handlers)) = [].
Proof.
  destruct (streamConversation_no_candidate json_parse Samples.prompts
              (Samples.resolving Samples.emptyResult)
              Samples.hiRequest Samples.handlers
              "You are a helpful assistant." [textTurn "user" "hi"]
              Samples.emptyResult (conj eq_refl eq_refl) eq_refl eq_refl)
    as (_ & _ & _ & Hmessage).
  split; [reflexivity|exact Hmessage].
Defined.

Lemma streamConversation_callbacks_witness :
  exists finalMessage,
    snd (streamConversation json_parse Samples.prompts
           (Samples.resolving Samples.searchingResult)
           Samples.hiRequest Samples.handlers) = Ok finalMessage
    /\ onToolUseCalls
         (fst (streamConversation json_parse Samples.prompts
                 (Samples.resolving Samples.searchingResult)
                 Samples.hiRequest Samples.handlers))
       = [ToolUseBlock "search_shop_catalog" "search_shop_catalog"
            (JObject [("query", JString "shoes")]);
          ToolUseBlock "get_cart" "get_cart" (JObject [])]
    /\ onMessageCalls
         (fst (streamConversation json_parse Samples.prompts
                 (Samples.resolving Samples.searchingResult)
                 Samples.hiRequest Samples.handlers))
       = [finalMessage].
Proof.
  destruct (streamConversation_callbacks json_parse Samples.prompts
              (Samples.resolving Samples.searchingResult)
              Samples.hiRequest Samples.handlers
              "You are a helpful assistant." [textTurn "user" "hi"]
              Samples.searchingResult _ []
              (conj eq_refl eq_refl) eq_refl eq_refl)
    as (finalMessage & Hrun & Huses & _ & Hmessage & _).
  exists finalMessage. split; [exact Hrun|]. split; [exact Huses|exact Hmessage].
Defined.

Lemma first_candidate_only_witness :
  streamConversation json_parse Samples.prompts
    (Samples.resolving Samples.twoCandidates) Samples.hiRequest Samples.handlers
  = streamConversation json_parse Samples.prompts
      (Samples.resolving Samples.helloResult) Samples.hiRequest Samples.handlers.
Proof.
  exact (first_candidate_only json_parse Samples.prompts
           (Samples.resolving Samples.helloResult)
           (Samples.resolving Samples.twoCandidates)
           Samples.hiRequest Samples.handlers
           "You are a helpful assistant." [textTurn "user" "hi"]
           Samples.helloResult Samples.twoCandidates
           (conj eq_refl eq_refl) eq_refl eq_refl eq_refl eq_refl).
Defined.

Lemma final_message_envelope_witness :
  exists finalMessage,
    snd (streamConversation json_parse Samples.prompts
           (Samples.resolving Samples.searchingResult)
           Samples.hiRequest Samples.handlers) = Ok finalMessage
    /\ fm_role finalMessage = "assistant"
    /\ fm_model finalMessage = "gemini-2.5-pro"
    /\ fm_stop_reason finalMessage = "tool_use".
Proof.
  destruct (final_message_envelope json_parse Samples.prompts
              (Samples.resolving Samples.searchingResult)
              Samples.hiRequest Samples.handlers
              "You are a helpful assistant." [textTurn "user" "hi"]
              Samples.searchingResult _ []
              (conj eq_refl eq_refl) eq_refl eq_refl)
    as (finalMessage & Hrun & Hrole & Hmodel & _ & Hstop & _).
  exists finalMessage. split; [exact Hrun|]. split; [exact Hrole|].
  split; [exact Hmodel|]. apply Hstop. reflexivity.
Defined.

Lemma final_message_as_history_witness :
  formatHistoryForGemini json_parse
    [Samples.mkMessage "assistant" (ContentBlocks [TextBlock "Hello!"])]
  = Ok [textTurn "model" "Hello!"]
  /\ formatHistoryForGemini json_parse
       [Samples.mkMessage "assistant"
          (ContentBlocks
             [ToolUseBlock "search_shop_catalog" "search_shop_catalog"
                (JObject [("query", JString "shoes")]);
              ToolUseBlock "get_cart" "get_cart" (JObject [])])]
     = Ok [textTurn "model" ""].
Proof.
  split.
  - destruct (final_message_as_history json_parse Samples.prompts
                (Samples.resolving Samples.helloResult)
                Samples.hiRequest Samples.handlers
                "You are a helpful assistant." [textTurn "user" "hi"]
                Samples.helloResult _ []
                (conj eq_refl eq_refl) eq_refl eq_refl)
      as (finalMessage & Hrun & Hturn).
    vm_compute in Hrun. injection Hrun as <-.
    exact (Hturn (Samples.mkMessage "assistant" (ContentBlocks [TextBlock "Hello!"]))
             eq_refl eq_refl eq_refl).
  - destruct (final_message_as_history json_parse Samples.prompts
                (Samples.resolving Samples.searchingResult)
                Samples.hiRequest Samples.handlers
                "You are a helpful assistant." [textTurn "user" "hi"]
                Samples.searchingResult _ []
                (conj eq_refl eq_refl) eq_refl eq_refl)
      as (finalMessage & Hrun & Hturn).
    vm_compute in Hrun. injection Hrun as <-.
    exact (Hturn
             (Samples.mkMessage "assistant"
                (ContentBlocks
                   [ToolUseBlock "search_shop_catalog" "search_shop_catalog"
                      (JObject [("query", JString "shoes")]);
                    ToolUseBlock "get_cart" "get_cart" (JObject [])]))
             eq_refl eq_refl eq_refl).
Defined.

Lemma cleanParametersH_cyclic_witness :
  cleanParametersH 1000 (HRef 0) Samples.cyclicStore = None.
Proof.
  apply cleanParametersH_cyclic. left.
  exists [("type", HString "array"); ("items", HRef 0)], "items".
  split; [reflexivity|]. split; [reflexivity|]. split; discriminate.
Defined.

(** An environment set up for Gemini alone does not pass: the Claude key
    is asked for all the same. *)
Lemma validateEnvironment_reports_witness :
  validateEnvironment Samples.geminiOnlyEnv
  = Throw (Error (missingMessage ["CLAUDE_API_KEY"; "SESSION_SECRET"]
                    "production"))
  /\ unset Samples.geminiOnlyEnv "GEMINI_API_KEY" = false.
Proof.
  destruct (validateEnvironment_reports Samples.geminiOnlyEnv
              (Error (missingMessage ["CLAUDE_API_KEY"; "SESSION_SECRET"]
                        "production")) eq_refl)
    as [[Hin _]|(_ & missing & _ & _ & _ & _)].
  - vm_compute in Hin. repeat destruct Hin as [Hin|Hin]; discriminate || contradiction.
  - split; reflexivity.
Defined.

Lemma EnvironmentConfig_constructed_witness :
  exists env',
    EnvironmentConfig Samples.productionEnv = Ok env'
    /\ getProp env' "NODE_ENV" = Some "production"
    /\ getEnvVar env' "LOG_LEVEL" None = Ok (EnvString "info")
    /\ getEnvVar env' "GEMINI_API_KEY" None
       = Throw (Error "Required environment variable GEMINI_API_KEY is not set")
    /\ getEnvVar env' "constructor" None = Ok (EnvInherited "constructor").
Proof.
  destruct (EnvironmentConfig Samples.productionEnv) as [env'|e] eqn:Hnew;
    [|vm_compute in Hnew; discriminate Hnew].
  destruct (EnvironmentConfig_constructed Samples.productionEnv env' Hnew)
    as (Henv & Hnode & _ & Hmissing & Hinherited).
  exists env'. split; [reflexivity|]. split; [exact Hnode|].
  split; [|split].
  - rewrite Henv. reflexivity.
  - apply (Hmissing "GEMINI_API_KEY" eq_refl eq_refl). left.
    cbn. intros H. repeat (destruct H as [H|H]; [discriminate H|]). exact H.
  - apply (Hinherited "constructor"); [cbn; auto|reflexivity].
Defined.

(** A level written in capitals is none of the four. *)
Lemma shouldLog_levels_witness :
  shouldLog "INFO" "error" = false /\ shouldLog "info" "error" = true
  /\ shouldLog "info" "debug" = false.
Proof.
  split; [|split].
  - apply shouldLog_levels; [|cbn; auto].
    cbn. intuition discriminate.
  - exact (proj1 (shouldLog_levels "info" "error") 0 2 eq_refl eq_refl).
  - exact (proj1 (shouldLog_levels "info" "debug") 3 2 eq_refl eq_refl).
Defined.

Lemma createLogEntry_fields_witness :
  let logEntry :=
    createLogEntry "2025-01-01T00:00:00.000Z" "production" "error" "failed"
      Samples.chatLogData in
  getProp logEntry "level" = Some (JString "debug")
  /\ getProp logEntry "message" = Some (JString "failed")
  /\ getProp logEntry "correlationId" = Some (JString "conv-1").
Proof.
  destruct (createLogEntry_fields "2025-01-01T00:00:00.000Z" "production"
              "error" "failed" Samples.chatLogData)
    as [Hfields Hid].
  { apply (bool_decide_eq_true_1 (NoDup _)). reflexivity. }
  cbv zeta. split; [|split].
  - exact (Hfields "level" ltac:(discriminate)).
  - exact (Hfields "message" ltac:(discriminate)).
  - exact Hid.
Defined.

(** At level [warn] an analytics event leaves no trace. *)
Lemma trackEvent_outputs_witness :
  eventsOf
    (StructuredLogger.trackEvent Samples.clock Samples.toISOString
       Samples.toUpperCase Samples.warnLogger
       "chat_message_sent" [("length", JNumber 12 0)] [] 0)
  = [].
Proof.
  destruct (trackEvent_outputs Samples.clock Samples.toISOString
              Samples.toUpperCase Samples.warnLogger
              "chat_message_sent" [("length", JNumber 12 0)] [] 0)
    as (_ & Hiff & _).
  destruct (eventsOf _) as [|ev rest]; [reflexivity|].
  destruct (proj1 Hiff) as [_ Hinfo]; [discriminate|].
  vm_compute in Hinfo. discriminate Hinfo.
Defined.

(** With the database down the check answers 503 and logs the error. *)
Lemma loader_responds_witness :
  exists response,
    outcomeOf
      (loader Samples.clock Samples.toISOString Samples.toUpperCase
         Samples.stack Samples.warnLogger Samples.warnLogger
         Samples.databaseDown None (JNumber 42 0) 0)
    = Ok response
    /\ resp_status response = 503%Z
    /\ getProp (resp_body response) "error"
       = Some (JString "Can't reach database server").
Proof.
  destruct (loader_responds Samples.clock Samples.toISOString
              Samples.toUpperCase Samples.stack Samples.warnLogger
              Samples.warnLogger Samples.databaseDown None (JNumber 42 0) 0)
    as (response & Hrun & _ & _ & _ & Hdown).
  cbv beta iota delta [Samples.databaseDown] in Hdown.
  destruct Hdown as (Hstatus & _ & Herror & _).
  exists response. split; [exact Hrun|]. split; [exact Hstatus|exact Herror].
Defined.
